(** * school-manager-api: departments API and database seeders

    A shallow embedding of
    - the departments router (GET /, PATCH /, POST /, GET /:slug,
      PUT /:slug, POST /members, PATCH /members) and its helper
      [capitalizeFirstLetter],
    - the seeders [userSeeder], [generateUniqueSlug] and [coursesSeeder],
    - the parts of [db/schema.ts] these touch,
    followed by the properties established about them.

    Conventions.  A JavaScript string is a [string], one character per
    UTF-16 code unit.  [String.prototype.toUpperCase] belongs to the
    runtime and is an interface here; the statements hold for every
    conversion, the examples use the one of ASCII text.  A
    JavaScript number that holds a count or an index is a [nat], one that is
    printed or holds a millisecond timestamp is an [N]; all of them stay far
    below 2^53, where doubles are exact.  Tables are lists of rows in
    insertion order.  The sources of randomness and time ([faker],
    [Math.random], [Date.now], [new Date()], [crypto.randomUUID]) are read
    from explicit oracles.  A loop whose end is not evident from its shape
    takes a bound on its iterations and yields [None] when the bound is
    reached first. *)

From Stdlib Require Import NArith Ascii String Numbers.DecimalString Numbers.DecimalN.
From stdpp Require Import base decidable option list strings gmap.


(** ** JavaScript primitives used by the sources *)

Module JS.

(** [`${n}`] and [n + "..."] for a non-negative integer [n]: its decimal
    digits, without leading zeros. *)
Definition Number_toString (n : N) : string :=
  NilEmpty.string_of_uint (N.to_uint n).

Definition is_digit (c : ascii) : bool :=
  let n := N_of_ascii c in ((48 <=? n) && (n <=? 57))%N.

Definition is_lower (c : ascii) : bool :=
  let n := N_of_ascii c in ((97 <=? n) && (n <=? 122))%N.

Definition is_upper (c : ascii) : bool :=
  let n := N_of_ascii c in ((65 <=? n) && (n <=? 90))%N.


(** The case conversions of ASCII text on one character; outside
    a-z / A-Z the character is returned as it is. *)
Definition char_toUpperCase (c : ascii) : ascii :=
  if is_lower c then ascii_of_N (N_of_ascii c - 32) else c.

Definition char_toLowerCase (c : ascii) : ascii :=
  if is_upper c then ascii_of_N (N_of_ascii c + 32) else c.

(** [s.length] *)
Definition length (s : string) : N := N.of_nat (String.length s).

(** [s.charAt(i)]: the string of the one character at [i], empty when
    there is none. *)
Definition charAt (s : string) (i : nat) : string :=
  match String.get i s with
  | Some c => String c EmptyString
  | None => EmptyString
  end.

(** [s.slice(start)] for an index [start] that is not negative. *)
Fixpoint slice (s : string) (start : nat) {struct start} : string :=
  match start, s with
  | 0, _ => s
  | S start, String _ s' => slice s' start
  | S _, EmptyString => EmptyString
  end.

(** [String.prototype.toUpperCase], which the runtime provides: the
    conversion follows the Unicode case mappings (the result can be longer
    than the input) and is not part of the sources. *)
Class Runtime := { toUpperCase : string → string }.

(** The conversion on ASCII text, where upper case is a matter of the
    letters a-z; the examples, whose names are ASCII text, run on it. *)
Fixpoint ascii_toUpperCase (s : string) : string :=
  match s with
  | EmptyString => EmptyString
  | String c s' => String (char_toUpperCase c) (ascii_toUpperCase s')
  end.

Definition ascii_runtime : Runtime := {| toUpperCase := ascii_toUpperCase |}.

(** A sequence of results of an impure call ([Math.random()],
    [Date.now()], a faker generator ...): [draw] reads the next result and
    returns the rest of the sequence. *)
Definition Oracle (A : Type) : Type := nat → A.

Definition draw {A} (o : Oracle A) : A * Oracle A := (o 0, λ k, o (S k)).

(** The next [n] results, in the order of the calls. *)
Definition draws {A} (n : nat) (o : Oracle A) : list A * Oracle A :=
  (o <$> seq 0 n, λ k, o (n + k)).

End JS.

(** ** [@/utils]: slugify *)

(** The module [@/utils] is imported by both sources and is not part of
    them.  The handlers and the seeders are written against this interface. *)
Class Utils := { slugify : string → string }.

(** Modelled from the spec: [slugify] of [@/utils], whose source is missing.
    The spec describes it as producing "a lowercase, hyphen-separated,
    URL-safe token from arbitrary display text": letters are lowered,
    letters and digits are kept, every run of other characters separates
    two words, and the words are joined by single hyphens (no hyphen at
    either end). *)
Module SpecSlugify.

(** The URL-safe image of one character, [None] for a separator. *)
Definition slug_char (c : ascii) : option ascii :=
  if JS.is_upper c then Some (JS.char_toLowerCase c)
  else if JS.is_lower c || JS.is_digit c then Some c
  else None.

(** [emitted]: a character has been produced already; [sep]: a separator
    was skipped since the last produced character. *)
Fixpoint slug_go (emitted sep : bool) (s : string) : string :=
  match s with
  | EmptyString => EmptyString
  | String c s' =>
      match slug_char c with
      | Some c' =>
          if emitted && sep
          then String "-" (String c' (slug_go true false s'))
          else String c' (slug_go true false s')
      | None => slug_go emitted true s'
      end
  end.

Definition slugify (name : string) : string := slug_go false false name.

End SpecSlugify.

Definition spec_utils : Utils := {| slugify := SpecSlugify.slugify |}.

(** ** [db/schema.ts] *)

(** [timestamp(...)] columns and [new Date()]: milliseconds since the epoch. *)
Definition Timestamp : Type := N.

Module Department.
(** [departmentsTable]: [id] is the primary key, [slug] is [unique()]. *)
Record t := mk {
  id : string;
  name : string;
  slug : string;
  createdAt : Timestamp;
  updatedAt : option Timestamp;
}.
End Department.

Module Course.
(** [coursesTable]: [departmentId] references [departmentsTable.id]
    (on delete cascade), [slug] is [unique()]. *)
Record t := mk {
  id : string;
  departmentId : string;
  name : option string;
  slug : string;
  description : option string;
  createdAt : Timestamp;
  updatedAt : option Timestamp;
}.
End Course.

Module Field.
Record t := mk { id : string; courseId : string; name : string }.
End Field.

Module LessonRoster.
Record t := mk {
  id : string;
  courseId : string;
  creatorId : string;
  name : option string;
  slug : string;
  notes : option string;
  createdAt : Timestamp;
  updatedAt : option Timestamp;
}.
End LessonRoster.

Module Mark.
(** [amount] is [numeric(10, 2)]: kept as the number of hundredths. *)
Record t := mk { id : string; fieldId : string; studentId : string; amount : Z }.
End Mark.

Module Session.
Record t := mk { id : string; lessonRosterId : string; name : string }.
End Session.

Module Attendance.
Record t := mk { id : string; studentId : string; periodId : string; type : string }.
End Attendance.

Module CourseToAcademy.
Record t := mk { courseId : string; departmentId : string }.
End CourseToAcademy.

Module StudentToLessonRoster.
Record t := mk { studentId : string; lessonRosterId : string }.
End StudentToLessonRoster.

(** Modelled from the spec: the enumeration [departmentUserRole] of
    [@/types/roles], which is not among the sources.  The spec names the two
    department roles "leader" and "lecturer"; the router uses its members
    [LEADER] and [LECTURER]. *)
Inductive departmentUserRole := LEADER | LECTURER.

Global Instance departmentUserRole_eq_dec : EqDecision departmentUserRole.
Proof. solve_decision. Defined.

Definition departmentUserRole_value (r : departmentUserRole) : string :=
  match r with LEADER => "leader" | LECTURER => "lecturer" end.

Module UserToDepartment.
(** Modelled from the spec: the table [userToDepartment], which the router
    imports from [@/db/schema] and which is missing from [schema.ts].  Its
    columns are the ones the router writes: a role-qualified
    department/user pairing, with no uniqueness over the pairing. *)
Record t := mk {
  userId : string;
  departmentId : string;
  role : departmentUserRole;
}.
End UserToDepartment.

(** The stored state the departments router and the course seeder work on. *)
Record DB := mkDB {
  departmentsTable : list Department.t;
  coursesTable : list Course.t;
  fields : list Field.t;
  lessonRostersTable : list LessonRoster.t;
  marks : list Mark.t;
  sessionsTable : list Session.t;
  attendanceTable : list Attendance.t;
  coursesToAcademies : list CourseToAcademy.t;
  studentsToLessonRosters : list StudentToLessonRoster.t;
  userToDepartment : list UserToDepartment.t;
}.

(** The constraints of [userToDepartment] are declared with the table, outside
    the sources: whether the storage accepts a new row is left open. *)
Class Schema := { userToDepartment_accepts : DB → UserToDepartment.t → bool }.

(** ** Storage operations (drizzle calls of the sources) *)

Definition with_departmentsTable (db : DB) (ds : list Department.t) : DB :=
  mkDB ds (coursesTable db) (fields db) (lessonRostersTable db) (marks db)
    (sessionsTable db) (attendanceTable db) (coursesToAcademies db)
    (studentsToLessonRosters db) (userToDepartment db).

Definition with_coursesTable (db : DB) (cs : list Course.t) : DB :=
  mkDB (departmentsTable db) cs (fields db) (lessonRostersTable db) (marks db)
    (sessionsTable db) (attendanceTable db) (coursesToAcademies db)
    (studentsToLessonRosters db) (userToDepartment db).

Definition with_userToDepartment (db : DB) (ms : list UserToDepartment.t) : DB :=
  mkDB (departmentsTable db) (coursesTable db) (fields db)
    (lessonRostersTable db) (marks db) (sessionsTable db)
    (attendanceTable db) (coursesToAcademies db)
    (studentsToLessonRosters db) ms.

(** [db.insert(departmentsTable).values(row)]: the primary key and the
    unique slug are checked; [None] is the thrown constraint violation. *)
Definition insert_department (row : Department.t) (db : DB) : option DB :=
  if decide (Department.id row ∈ Department.id <$> departmentsTable db)
  then None
  else if decide (Department.slug row ∈ Department.slug <$> departmentsTable db)
  then None
  else Some (with_departmentsTable db (departmentsTable db ++ [row])).

(** [db.query.departmentsTable.findFirst({ where: eq(department.slug, slug) })] *)
Definition findFirst_department_by_slug (slug : string) (db : DB)
  : option Department.t :=
  head (filter (λ d, Department.slug d = slug) (departmentsTable db)).

(** [db.update(departmentsTable).set(...).where(eq(departmentsTable.slug, slug))] *)
Definition update_departments_by_slug
    (set : Department.t → Department.t) (slug : string) (db : DB) : DB :=
  with_departmentsTable db
    ((λ d, if decide (Department.slug d = slug) then set d else d)
       <$> departmentsTable db).

(** [db.insert(userToDepartment).values(row)] *)
Definition insert_userToDepartment `{Schema} (row : UserToDepartment.t) (db : DB)
  : option DB :=
  if userToDepartment_accepts db row
  then Some (with_userToDepartment db (userToDepartment db ++ [row]))
  else None.

(** [db.delete(userToDepartment).where(and(eq(userId, u), eq(departmentId, d)))] *)
Definition delete_userToDepartment (u d : string) (db : DB) : DB :=
  with_userToDepartment db
    (filter (λ m, ¬ (UserToDepartment.userId m = u
                     ∧ UserToDepartment.departmentId m = d))
       (userToDepartment db)).

(** [db.delete(coursesTable)]: every course goes, and with it, through the
    [onDelete: "cascade"] references, every row that points to a deleted
    row. *)
Definition delete_all_courses (db : DB) : DB :=
  let courses : list Course.t := [] in
  let fields' :=
    filter (λ f, Field.courseId f ∈ Course.id <$> courses) (fields db) in
  let rosters' :=
    filter (λ r, LessonRoster.courseId r ∈ Course.id <$> courses)
      (lessonRostersTable db) in
  let marks' :=
    filter (λ m, Mark.fieldId m ∈ Field.id <$> fields') (marks db) in
  let sessions' :=
    filter (λ s, Session.lessonRosterId s ∈ LessonRoster.id <$> rosters')
      (sessionsTable db) in
  let attendance' :=
    filter (λ a, Attendance.periodId a ∈ Session.id <$> sessions')
      (attendanceTable db) in
  let links' :=
    filter (λ l, CourseToAcademy.courseId l ∈ Course.id <$> courses)
      (coursesToAcademies db) in
  let enrolments' :=
    filter (λ l, StudentToLessonRoster.lessonRosterId l
                   ∈ LessonRoster.id <$> rosters')
      (studentsToLessonRosters db) in
  mkDB (departmentsTable db) courses fields' rosters' marks' sessions'
       attendance' links' enrolments' (userToDepartment db).

(** [a.leftJoin(b, on)]: every row of [a] with each matching row of [b], or
    once with [None] when nothing matches. *)
Definition leftJoin_row {A B} (on : A → B → bool) (a : A) (r : list B)
  : list (A * option B) :=
  match filter (on a) r with
  | [] => [(a, None)]
  | bs => (λ b, (a, Some b)) <$> bs
  end.

Definition leftJoin {A B} (on : A → B → bool)
    (l : list A) (r : list B) : list (A * option B) :=
  a ← l; leftJoin_row on a r.

(** ** The departments router *)

(** What [await ctx.req.json()] yields: a thrown parse error, or the body. *)
Inductive Request (A : Type) :=
  | InvalidJson
  | Json (body : A).
Arguments InvalidJson {A}.
Arguments Json {A} body.

(** A property of a JSON body, as far as the schemas look at it: absent, a
    number, a string, or anything else ([null], a boolean, an array, an
    object). *)
Inductive JsonField :=
  | Undefined
  | Num
  | NotAString
  | Str (s : string).

Inductive ZodIssueCode := invalid_type | too_small | too_big | invalid_enum_value.

(** One issue of a failed [safeParse]: the path of the offending property
    and the message given in the schema ([None]: the library's default). *)
Record ZodIssue := mkIssue {
  path : list string;
  code : ZodIssueCode;
  message : option string;
}.

(** The result of [schema.safeParse(body)]. *)
Inductive SafeParse (A : Type) :=
  | Success (data : A)
  | Failure (issues : list ZodIssue).
Arguments Success {A} data.
Arguments Failure {A} issues.

Inductive ResponseBody :=
  | JsonData                               (* { data } *)
  | JsonError (issues : list ZodIssue)     (* { error: validatedData.error.format() } *)
  | JsonErrorMessage (msg : string).       (* { error: "Internal Server Error" } *)

Record Response := mkResponse { status : N; body : ResponseBody }.

Definition internal_server_error : Response :=
  mkResponse 500 (JsonErrorMessage "Internal Server Error").

(** [z.string().min(lo, msg_lo)] with an optional [.max(hi, msg_hi)] on the
    property at [p]: the issues it raises. *)
Definition zod_string (p : list string) (lo : N) (msg_lo : string)
    (hi : option (N * string)) (f : JsonField) : list ZodIssue :=
  match f with
  | Str s =>
      (if (JS.length s <? lo)%N then [mkIssue p too_small (Some msg_lo)] else [])
      ++ match hi with
         | Some (hi, msg_hi) =>
             if (hi <? JS.length s)%N then [mkIssue p too_big (Some msg_hi)] else []
         | None => []
         end
  | _ => [mkIssue p invalid_type None]
  end.

Definition JsonField_string (f : JsonField) : string :=
  match f with Str s => s | _ => "" end.

Module CreateDepartmentBody.
Record t := mk { name : JsonField }.
End CreateDepartmentBody.

Definition createDepartmentSchema (b : CreateDepartmentBody.t) : SafeParse string :=
  match zod_string ["name"] 2 "Name must be at least 2 characters"
          (Some (100%N, "Name is too long")) (CreateDepartmentBody.name b) with
  | [] => Success (JsonField_string (CreateDepartmentBody.name b))
  | issues => Failure issues
  end.

Module AssignUserToDepartmentBody.
Record t := mk { userId : JsonField; departmentId : JsonField; role : JsonField }.
End AssignUserToDepartmentBody.

(** [z.nativeEnum(departmentUserRole).default(departmentUserRole.LECTURER)]:
    a native enum takes strings and numbers for candidates, and reports a
    candidate that is no value of the enum as [invalid_enum_value]. *)
Definition zod_role (f : JsonField) : SafeParse departmentUserRole :=
  match f with
  | Undefined => Success LECTURER
  | Num => Failure [mkIssue ["role"] invalid_enum_value None]
  | NotAString => Failure [mkIssue ["role"] invalid_type None]
  | Str s =>
      if decide (s = departmentUserRole_value LEADER) then Success LEADER
      else if decide (s = departmentUserRole_value LECTURER) then Success LECTURER
      else Failure [mkIssue ["role"] invalid_enum_value None]
  end.

Definition assignUserToDepartmentSchema (b : AssignUserToDepartmentBody.t)
  : SafeParse UserToDepartment.t :=
  let user_issues :=
    zod_string ["userId"] 1 "User Must be selected" None
      (AssignUserToDepartmentBody.userId b) in
  let department_issues :=
    zod_string ["departmentId"] 1 "Department Must be selected" None
      (AssignUserToDepartmentBody.departmentId b) in
  match zod_role (AssignUserToDepartmentBody.role b) with
  | Success role =>
      match user_issues ++ department_issues with
      | [] =>
          Success (UserToDepartment.mk
                     (JsonField_string (AssignUserToDepartmentBody.userId b))
                     (JsonField_string (AssignUserToDepartmentBody.departmentId b))
                     role)
      | issues => Failure issues
      end
  | Failure role_issues => Failure (user_issues ++ department_issues ++ role_issues)
  end.

Module UnassignUsersBody.
(** [idObject]: [None] when it is not an array. *)
Record t := mk { idObject : option (list (JsonField * JsonField)) }.
End UnassignUsersBody.

Definition zod_plain_string (p : list string) (f : JsonField) : list ZodIssue :=
  match f with Str _ => [] | _ => [mkIssue p invalid_type None] end.

Definition unassignUsersToDeprtmentSchema (b : UnassignUsersBody.t)
  : SafeParse (list (string * string)) :=
  match UnassignUsersBody.idObject b with
  | None => Failure [mkIssue ["idObject"] invalid_type None]
  | Some items =>
      match
        mjoin (imap (λ i '(u, d),
                 let at_i := ["idObject"; JS.Number_toString (N.of_nat i)] in
                 zod_plain_string (at_i ++ ["userId"]) u
                 ++ zod_plain_string (at_i ++ ["departmentId"]) d) items)
      with
      | [] => Success ((λ '(u, d), (JsonField_string u, JsonField_string d)) <$> items)
      | issues => Failure issues
      end
  end.

(** [capitalizeFirstLetter]: [str.charAt(0).toUpperCase() + str.slice(1)] *)
Definition capitalizeFirstLetter `{JS.Runtime} (str : string) : string :=
  JS.toUpperCase (JS.charAt str 0) +:+ JS.slice str 1.

Module DepartmentListItem.
Record t := mk {
  id : string;
  name : string;
  slug : string;
  createdAt : Timestamp;
  updatedAt : option Timestamp;
  leadersCount : nat;
  lecturersCount : nat;
  coursesCount : nat;
}.
End DepartmentListItem.

(** The correlated subquery
    [(SELECT COUNT( * ) FROM userToDepartment WHERE role = r AND departmentId = d)]. *)
Definition count_members (r : departmentUserRole) (d : string) (db : DB) : nat :=
  length (filter (λ m, UserToDepartment.role m = r
                       ∧ UserToDepartment.departmentId m = d)
            (userToDepartment db)).

(** The joined rows of [GET /]: departments left-joined with their courses,
    then with their memberships. *)
Definition departments_GET_rows (db : DB)
  : list (Department.t * option Course.t * option UserToDepartment.t) :=
  leftJoin (λ dc m, bool_decide (Department.id dc.1 = UserToDepartment.departmentId m))
    (leftJoin (λ d c, bool_decide (Department.id d = Course.departmentId c))
       (departmentsTable db) (coursesTable db))
    (userToDepartment db).

(** [count(distinct coursesTable.id)] over the rows of one group; the
    [None] of an unmatched department is not counted. *)
Definition count_distinct_courses
    (g : list (Department.t * option Course.t * option UserToDepartment.t)) : nat :=
  length (remove_dups (omap (λ r, Course.id <$> r.1.2) g)).

(** The select list of [GET /], evaluated on one group of joined rows. *)
Definition departments_GET_item (db : DB)
    (g : list (Department.t * option Course.t * option UserToDepartment.t))
  : option DepartmentListItem.t :=
  match g with
  | [] => None
  | (d, _, _) :: _ =>
      Some (DepartmentListItem.mk
              (Department.id d) (Department.name d) (Department.slug d)
              (Department.createdAt d) (Department.updatedAt d)
              (count_members LEADER (Department.id d) db)
              (count_members LECTURER (Department.id d) db)
              (count_distinct_courses g))
  end.

(** The query of [GET /] has a [groupBy] and no [orderBy]: the order in
    which its groups come back is the storage's choice.  [group_order db
    keys] is that order, for the state [db] and the keys of the groups; it
    is some arrangement of the keys. *)
Class Engine := {
  group_order : DB → list string → list string;
  group_order_Permutation : ∀ db keys, group_order db keys ≡ₚ keys;
}.

(** Two storages, for the examples: one returns the groups in the order of
    the first row of each group, the other in the reverse of it. *)
Definition table_order : Engine :=
  {| group_order _ keys := keys;
     group_order_Permutation _ keys := reflexivity keys |}.

Definition reverse_order : Engine :=
  {| group_order _ keys := reverse keys;
     group_order_Permutation _ keys := reverse_Permutation keys |}.

(** [GET /]: one item per group of [groupBy(departmentsTable.id)]. *)
Definition departments_GET `{Engine} (db : DB) : list DepartmentListItem.t :=
  let rows := departments_GET_rows db in
  let ids := group_order db (remove_dups ((λ r, Department.id r.1.1) <$> rows)) in
  omap (λ i, departments_GET_item db
               (filter (λ r, Department.id r.1.1 = i) rows)) ids.

(** The [while] loop of [POST /]: [slug] and [counter] after the loop, or
    [None] when [fuel] iterations do not reach its end. *)
Fixpoint departments_POST_loop (fuel : nat) (db : DB) (baseSlug slug : string)
    (counter : N) : option (string * N) :=
  match fuel with
  | 0 => None
  | S fuel =>
      match findFirst_department_by_slug slug db with
      | Some _ =>
          departments_POST_loop fuel db baseSlug
            (baseSlug +:+ "-" +:+ JS.Number_toString counter) (counter + 1)%N
      | None => Some (slug, counter)
      end
  end.

(** [POST /].  [uuid] is the [crypto.randomUUID()] of the [id] default,
    [createdAt_now] and [updatedAt_now] are the two [new Date()]. *)
Definition departments_POST `{Utils} `{JS.Runtime} (fuel : nat) (uuid : string)
    (createdAt_now updatedAt_now : Timestamp)
    (req : Request CreateDepartmentBody.t) (db : DB) : option (Response * DB) :=
  match req with
  | InvalidJson => Some (internal_server_error, db)
  | Json body =>
      match createDepartmentSchema body with
      | Failure issues => Some (mkResponse 400 (JsonError issues), db)
      | Success name =>
          let slug := slugify name in
          let baseSlug := slug in
          match departments_POST_loop fuel db baseSlug slug 1 with
          | None => None
          | Some (slug, counter) =>
              match
                insert_department
                  (Department.mk uuid (capitalizeFirstLetter name) (slugify name)
                     createdAt_now (Some updatedAt_now)) db
              with
              | Some db' => Some (mkResponse 201 JsonData, db')
              | None => Some (internal_server_error, db)
              end
          end
      end
  end.

(** [PUT /:slug] *)
Definition departments_PUT `{JS.Runtime} (slug : string)
    (createdAt_now updatedAt_now : Timestamp)
    (req : Request CreateDepartmentBody.t) (db : DB) : Response * DB :=
  match req with
  | InvalidJson => (internal_server_error, db)
  | Json body =>
      match createDepartmentSchema body with
      | Failure issues => (mkResponse 400 (JsonError issues), db)
      | Success name =>
          (mkResponse 200 JsonData,
           update_departments_by_slug
             (λ d, Department.mk (Department.id d) (capitalizeFirstLetter name)
                     (Department.slug d) createdAt_now (Some updatedAt_now))
             slug db)
      end
  end.

(** [POST /members] *)
Definition departments_POST_members `{Schema}
    (req : Request AssignUserToDepartmentBody.t) (db : DB) : Response * DB :=
  match req with
  | InvalidJson => (internal_server_error, db)
  | Json body =>
      match assignUserToDepartmentSchema body with
      | Failure issues => (mkResponse 400 (JsonError issues), db)
      | Success row =>
          match insert_userToDepartment row db with
          | Some db' => (mkResponse 200 JsonData, db')
          | None => (internal_server_error, db)
          end
      end
  end.

(** [PATCH /members]: one delete per listed pair; [Promise.all] waits for all
    of them. *)
Definition departments_PATCH_members
    (req : Request UnassignUsersBody.t) (db : DB) : Response * DB :=
  match req with
  | InvalidJson => (internal_server_error, db)
  | Json body =>
      match unassignUsersToDeprtmentSchema body with
      | Failure issues => (mkResponse 400 (JsonError issues), db)
      | Success idObject =>
          (mkResponse 200 JsonData,
           foldl (λ db '(userId, departmentId),
                    delete_userToDepartment userId departmentId db)
             db idObject)
      end
  end.

(** ** [db/seeds]: the user seeder *)

Module FakerUser.
(** The results of the faker calls made for one user, in the order of the
    calls: [person.fullName()], [internet.email()], [date.recent()],
    [internet.password()], the index picked by [helpers.arrayElement], and
    [image.avatar()]. *)
Record t := mk {
  person_fullName : string;
  internet_email : string;
  date_recent : Timestamp;
  internet_password : string;
  helpers_arrayElement : nat;
  image_avatar : string;
}.
End FakerUser.

Module NewUser.
(** The object the seeder hands to [db.insert(usersTable)] for one user. *)
Record t := mk {
  name : string;
  email : string;
  emailVerified : Timestamp;
  passwordHash : string;
  roleId : string;
  image : string;
}.
End NewUser.

Module User.
(** A row of [usersTable]: the primary key filled in by [$defaultFn], the
    object it was inserted from, and the column [role].  Of the object,
    [name], [email], [emailVerified], [passwordHash] and [image] are columns
    of the table; [roleId] names no column.  [email] is [unique()]; [role]
    is [notNull()] and has no default, [None] is its NULL. *)
Record t := mk { id : string; values : NewUser.t; role : option string }.
End User.

(** [db.insert(usersTable).values(users)]: one statement.  The objects of
    the seeder have no [role], so the column is NULL in every new row.
    [None] is the thrown violation of a constraint: [role] is NULL, the
    primary key repeats, or the unique email repeats. *)
Definition insert_users (ids : list string) (users : list NewUser.t)
    (table : list User.t) : option (list User.t) :=
  let rows := zip_with (λ id user, User.mk id user None) ids users in
  let table' := table ++ rows in
  if decide (Forall (λ row, is_Some (User.role row)) rows
             ∧ NoDup (User.id <$> table')
             ∧ NoDup ((λ u, NewUser.email (User.values u)) <$> table'))
  then Some table' else None.

Definition batchSize : nat := 1000.

Module UserSeederRun.
(** What a run of [userSeeder] leaves behind: the batches it built (a
    batch whose building threw is not one of them), the table, the console,
    and whether it ended in a thrown error. *)
Record t := mk {
  batches : list (list NewUser.t);
  usersTable : list User.t;
  console : list string;
  threw : bool;
}.
End UserSeederRun.

(** [faker.helpers.arrayElement(array)]: the element at the picked index;
    [None] is the error it throws for an empty array. *)
Definition helpers_arrayElement {A} (array : list A) (pick : nat) : option A :=
  array !! (pick `mod` length array).

(** The user built by the callback of [Array.from] at index [idx]; [None]
    when the callback throws. *)
Definition userSeeder_user (roleIds : list string) (totalInserted idx : nat)
    (f : FakerUser.t) : option NewUser.t :=
  roleId ← helpers_arrayElement roleIds (FakerUser.helpers_arrayElement f);
  Some (NewUser.mk
          (FakerUser.person_fullName f)
          (JS.Number_toString (N.of_nat (totalInserted + idx))
             +:+ FakerUser.internet_email f)
          (FakerUser.date_recent f)
          (FakerUser.internet_password f)
          roleId
          (FakerUser.image_avatar f)).

(** The [while (totalInserted < length)] loop of [userSeeder]; [None] when
    [fuel] iterations do not reach its end. *)
Fixpoint userSeeder_loop (fuel : nat) (length : nat) (roleIds : list string)
    (totalInserted : nat) (faker : JS.Oracle FakerUser.t)
    (randomUUID : JS.Oracle string) (run : UserSeederRun.t)
  : option UserSeederRun.t :=
  match fuel with
  | 0 => None
  | S fuel =>
      if decide (totalInserted < length) then
        let currentBatchSize := batchSize `min` (length - totalInserted) in
        let '(fs, faker) := JS.draws currentBatchSize faker in
        match
          mapM id (imap (λ idx f, userSeeder_user roleIds totalInserted idx f) fs)
        with
        | None =>
            Some (UserSeederRun.mk (UserSeederRun.batches run)
                    (UserSeederRun.usersTable run) (UserSeederRun.console run)
                    true)
        | Some users =>
            let '(ids, randomUUID) := JS.draws currentBatchSize randomUUID in
            let batches := UserSeederRun.batches run ++ [users] in
            match insert_users ids users (UserSeederRun.usersTable run) with
            | None =>
                Some (UserSeederRun.mk batches (UserSeederRun.usersTable run)
                        (UserSeederRun.console run) true)
            | Some table =>
                let totalInserted := totalInserted + currentBatchSize in
                userSeeder_loop fuel length roleIds totalInserted faker randomUUID
                  (UserSeederRun.mk batches table
                     (UserSeederRun.console run
                      ++ ["Batch inserted: "
                          +:+ JS.Number_toString (N.of_nat currentBatchSize)
                          +:+ " users (Total: "
                          +:+ JS.Number_toString (N.of_nat totalInserted)
                          +:+ "/" +:+ JS.Number_toString (N.of_nat length)
                          +:+ ")"])
                     false)
            end
        end
      else
        Some (UserSeederRun.mk (UserSeederRun.batches run)
                (UserSeederRun.usersTable run)
                (UserSeederRun.console run
                 ++ ["Seeding complete: "
                     +:+ JS.Number_toString (N.of_nat totalInserted)
                     +:+ " users inserted in batches of "
                     +:+ JS.Number_toString (N.of_nat batchSize)])
                false)
  end.

(** [userSeeder(length)].  [roleIds] is the result of the [rolesTable]
    query; the table is emptied first.  (Rows of other tables that refer to
    the deleted users are not part of this state.) *)
Definition userSeeder (fuel : nat) (length : nat) (roleIds : list string)
    (faker : JS.Oracle FakerUser.t) (randomUUID : JS.Oracle string)
    (usersTable : list User.t) : option UserSeederRun.t :=
  let usersTable : list User.t := [] in
  let totalInserted := 0 in
  userSeeder_loop fuel length roleIds totalInserted faker randomUUID
    (UserSeederRun.mk [] usersTable [] false).

(** ** [db/seeds]: the course seeder *)

(** One [Math.random()]: a number in [0, 1), seen only through
    [Math.floor(x * n)]. *)
Record RandomNumber := mkRandom { floor_times : N → N }.

(** The impure calls of the course seeder. *)
Record World := mkWorld {
  faker_commerce_department : JS.Oracle string;
  faker_lorem_paragraph : JS.Oracle string;
  Math_random : JS.Oracle RandomNumber;
  Date_now : JS.Oracle N;
  crypto_randomUUID : JS.Oracle string;
}.

Definition next_commerce_department (w : World) : string * World :=
  let '(x, o) := JS.draw (faker_commerce_department w) in
  (x, mkWorld o (faker_lorem_paragraph w) (Math_random w) (Date_now w)
        (crypto_randomUUID w)).

Definition next_lorem_paragraph (w : World) : string * World :=
  let '(x, o) := JS.draw (faker_lorem_paragraph w) in
  (x, mkWorld (faker_commerce_department w) o (Math_random w) (Date_now w)
        (crypto_randomUUID w)).

Definition next_Math_random (w : World) : RandomNumber * World :=
  let '(x, o) := JS.draw (Math_random w) in
  (x, mkWorld (faker_commerce_department w) (faker_lorem_paragraph w) o
        (Date_now w) (crypto_randomUUID w)).

Definition next_Date_now (w : World) : N * World :=
  let '(x, o) := JS.draw (Date_now w) in
  (x, mkWorld (faker_commerce_department w) (faker_lorem_paragraph w)
        (Math_random w) o (crypto_randomUUID w)).

Definition next_randomUUIDs (n : nat) (w : World) : list string * World :=
  let '(x, o) := JS.draws n (crypto_randomUUID w) in
  (x, mkWorld (faker_commerce_department w) (faker_lorem_paragraph w)
        (Math_random w) (Date_now w) o).

Definition maxAttempts : nat := 100.

Module UniqueSlug.
(** What a call of [generateUniqueSlug] returns and leaves behind:
    [{ slug, name }], the set it was given as it is afterwards, the final
    value of [attempts], and the rest of the world. *)
Record t := mk {
  slug : string;
  name : string;
  existingSlugs : gset string;
  attempts : nat;
  world : World;
}.
End UniqueSlug.

(** [generateUniqueSlug], from the state in which [attempts] retries have
    been made; [None] when [fuel] evaluations of the loop condition do not
    reach a [return]. *)
Fixpoint generateUniqueSlug_from `{Utils} (fuel : nat) (attempts : nat)
    (existingSlugs : gset string) (w : World) : option UniqueSlug.t :=
  match fuel with
  | 0 => None
  | S fuel =>
      if decide (attempts < maxAttempts) then
        let attempts := S attempts in
        let '(name, w) := next_commerce_department w in
        let slug := slugify name in
        if decide (slug ∉ existingSlugs) then
          Some (UniqueSlug.mk slug name ({[slug]} ∪ existingSlugs) attempts w)
        else
          let '(x, w) := next_Math_random w in
          let slugWithSuffix :=
            slug +:+ "-" +:+ JS.Number_toString (floor_times x 1000) in
          if decide (slugWithSuffix ∉ existingSlugs) then
            Some (UniqueSlug.mk slugWithSuffix name
                    ({[slugWithSuffix]} ∪ existingSlugs) attempts w)
          else generateUniqueSlug_from fuel attempts existingSlugs w
      else
        let '(timestamp, w) := next_Date_now w in
        let fallbackName := "Course " +:+ JS.Number_toString timestamp in
        let fallbackSlug := "course-" +:+ JS.Number_toString timestamp in
        Some (UniqueSlug.mk fallbackSlug fallbackName
                ({[fallbackSlug]} ∪ existingSlugs) attempts w)
  end.

Definition generateUniqueSlug `{Utils} (fuel : nat)
    (existingSlugs : gset string) (w : World) : option UniqueSlug.t :=
  generateUniqueSlug_from fuel 0 existingSlugs w.

Module NewCourse.
(** An element of [coursesData]. *)
Record t := mk {
  name : string;
  slug : string;
  departmentId : string;
  description : string;
}.
End NewCourse.

(** [db.insert(coursesTable).values(coursesData).returning()]: one
    statement.  [None] is a thrown error: an empty [values], or a violation
    of the primary key, of the unique slug or of the reference to
    [departmentsTable].  [now] is the [defaultNow()] of both timestamps. *)
Definition insert_courses (ids : list string) (now : Timestamp)
    (coursesData : list NewCourse.t) (db : DB) : option DB :=
  let rows :=
    zip_with (λ i c, Course.mk i (NewCourse.departmentId c)
                       (Some (NewCourse.name c)) (NewCourse.slug c)
                       (Some (NewCourse.description c)) now (Some now))
      ids coursesData in
  let table' := coursesTable db ++ rows in
  if decide (coursesData ≠ []
             ∧ NoDup (Course.id <$> table')
             ∧ NoDup (Course.slug <$> table')
             ∧ Forall (λ c, Course.departmentId c
                              ∈ Department.id <$> departmentsTable db) rows)
  then Some (with_coursesTable db table')
  else None.

Module CoursesSeederRun.
(** What a run of [coursesSeeder] leaves behind: the [coursesData] it built,
    the stored state, the console, and whether it ended in a thrown error
    ([false]: it returned). *)
Record t := mk {
  coursesData : list NewCourse.t;
  db : DB;
  console : list string;
  threw : bool;
}.
End CoursesSeederRun.

(** The [for] loop of [coursesSeeder], with [n] iterations to go: the
    [coursesData] built, and whether the loop ended in a thrown [TypeError]
    ([department.id] when there is no department at the picked index). *)
Fixpoint coursesSeeder_loop `{Utils} (fuel : nat) (n : nat)
    (departments : list string) (existingSlugs : gset string)
    (coursesData : list NewCourse.t) (w : World)
  : option (list NewCourse.t * bool * World) :=
  match n with
  | 0 => Some (coursesData, false, w)
  | S n =>
      let '(x, w) := next_Math_random w in
      let department :=
        departments !! N.to_nat (floor_times x (N.of_nat (length departments))) in
      match generateUniqueSlug fuel existingSlugs w with
      | None => None
      | Some g =>
          match department with
          | None => Some (coursesData, true, UniqueSlug.world g)
          | Some department =>
              let '(description, w) := next_lorem_paragraph (UniqueSlug.world g) in
              coursesSeeder_loop fuel n departments (UniqueSlug.existingSlugs g)
                (coursesData
                 ++ [NewCourse.mk (UniqueSlug.name g) (UniqueSlug.slug g)
                       department description])
                w
          end
      end
  end.

(** [coursesSeeder(length)]; [fuel] bounds each call of
    [generateUniqueSlug], [now] is the time of the insert statement. *)
Definition coursesSeeder `{Utils} (fuel : nat) (length : nat) (now : Timestamp)
    (w : World) (db : DB) : option CoursesSeederRun.t :=
  let db := delete_all_courses db in
  let departments := Department.id <$> departmentsTable db in
  if decide (List.length departments = 0) then
    Some (CoursesSeederRun.mk [] db
            ["No departments found. Please seed departments first."] false)
  else
    match coursesSeeder_loop fuel length departments ∅ [] w with
    | None => None
    | Some (coursesData, true, _) => Some (CoursesSeederRun.mk coursesData db [] true)
    | Some (coursesData, false, w) =>
        let '(ids, w) := next_randomUUIDs (List.length coursesData) w in
        match insert_courses ids now coursesData db with
        | None => Some (CoursesSeederRun.mk coursesData db [] true)
        | Some db' =>
            Some (CoursesSeederRun.mk coursesData db'
                    [JS.Number_toString (N.of_nat length) +:+ " new courses seeded!"]
                    false)
        end
    end.

(** ** The departments router: bulk delete and fetch by slug *)

Module DeleteDepartmentsBody.
(** [ids]: [None] when it is not an array. *)
Record t := mk { ids : option (list JsonField) }.
End DeleteDepartmentsBody.

(** [z.object({ ids: z.array(z.string()) })] *)
Definition deleteDepartmentsSchema (b : DeleteDepartmentsBody.t)
  : SafeParse (list string) :=
  match DeleteDepartmentsBody.ids b with
  | None => Failure [mkIssue ["ids"] invalid_type None]
  | Some items =>
      match
        mjoin (imap (λ i f,
                 zod_plain_string ["ids"; JS.Number_toString (N.of_nat i)] f)
                 items)
      with
      | [] => Success (JsonField_string <$> items)
      | issues => Failure issues
      end
  end.

(** What goes with the departments whose ids are [gone], through the
    [onDelete: "cascade"] references of [schema.ts]: their courses, the
    fields, rosters and links of those courses, and so on down.  (The link
    tables [departmentLeadersToDepartments] and [lecturerToAcademy], which
    no handler or seeder reads, are not part of this state.)

    Modelled from the spec: the memberships go with their department
    ("deleting a Department removes all its ... membership rows referencing
    it"); the table [userToDepartment] and its references are missing from
    [schema.ts]. *)
Definition cascade_departments (gone : list string) (db : DB) : DB :=
  let gone_courses :=
    Course.id <$> filter (λ c, Course.departmentId c ∈ gone) (coursesTable db) in
  let gone_fields :=
    Field.id <$> filter (λ f, Field.courseId f ∈ gone_courses) (fields db) in
  let gone_rosters :=
    LessonRoster.id
      <$> filter (λ r, LessonRoster.courseId r ∈ gone_courses)
            (lessonRostersTable db) in
  let gone_sessions :=
    Session.id
      <$> filter (λ s, Session.lessonRosterId s ∈ gone_rosters)
            (sessionsTable db) in
  mkDB (departmentsTable db)
    (filter (λ c, Course.departmentId c ∉ gone) (coursesTable db))
    (filter (λ f, Field.courseId f ∉ gone_courses) (fields db))
    (filter (λ r, LessonRoster.courseId r ∉ gone_courses) (lessonRostersTable db))
    (filter (λ m, Mark.fieldId m ∉ gone_fields) (marks db))
    (filter (λ s, Session.lessonRosterId s ∉ gone_rosters) (sessionsTable db))
    (filter (λ a, Attendance.periodId a ∉ gone_sessions) (attendanceTable db))
    (filter (λ l, (CourseToAcademy.courseId l ∉ gone_courses)
                  ∧ (CourseToAcademy.departmentId l ∉ gone))
       (coursesToAcademies db))
    (filter (λ l, StudentToLessonRoster.lessonRosterId l ∉ gone_rosters)
       (studentsToLessonRosters db))
    (filter (λ m, UserToDepartment.departmentId m ∉ gone) (userToDepartment db)).

(** [db.delete(departmentsTable).where(eq(departmentsTable.id, departmentId))] *)
Definition delete_department (departmentId : string) (db : DB) : DB :=
  let gone :=
    Department.id
      <$> filter (λ d, Department.id d = departmentId) (departmentsTable db) in
  with_departmentsTable (cascade_departments gone db)
    (filter (λ d, Department.id d ≠ departmentId) (departmentsTable db)).

(** [PATCH /]: one delete per listed id; [Promise.all] waits for all of
    them. *)
Definition departments_PATCH
    (req : Request DeleteDepartmentsBody.t) (db : DB) : Response * DB :=
  match req with
  | InvalidJson => (internal_server_error, db)
  | Json body =>
      match deleteDepartmentsSchema body with
      | Failure issues => (mkResponse 400 (JsonError issues), db)
      | Success ids =>
          (mkResponse 200 JsonData,
           foldl (λ db departmentId, delete_department departmentId db) db ids)
      end
  end.

Module MemberUser.
(** [user: { columns: { id: true, name: true, email: true } }] *)
Record t := mk { id : string; name : string; email : string }.
End MemberUser.

Module DepartmentMember.
(** An element of [members]: the membership row with its [user]. *)
Record t := mk {
  userId : string;
  departmentId : string;
  role : departmentUserRole;
  user : option MemberUser.t;
}.
End DepartmentMember.

Module DepartmentCourse.
(** [courses: { columns: { id: true, name: true, slug: true, createdAt: true } }] *)
Record t := mk {
  id : string;
  name : option string;
  slug : string;
  createdAt : Timestamp;
}.
End DepartmentCourse.

Module DepartmentWithRelations.
(** The [data] of [GET /:slug]. *)
Record t := mk {
  id : string;
  name : string;
  slug : string;
  createdAt : Timestamp;
  updatedAt : option Timestamp;
  members : list DepartmentMember.t;
  courses : list DepartmentCourse.t;
}.
End DepartmentWithRelations.

(** [GET /:slug]: the [data] of the answer, [None] for the [undefined] of a
    [findFirst] that finds nothing; the status is 200 either way.

    Modelled from the spec: the relations [members], [user] and [courses]
    that the query names are declared with the schema, outside the sources;
    they follow the references: the memberships and the courses of the
    department, and the user of a membership ("one department with nested
    members (each with their User's id/name/email) and nested courses"). *)
Definition departments_GET_slug (usersTable : list User.t) (slug : string)
    (db : DB) : option DepartmentWithRelations.t :=
  d ← findFirst_department_by_slug slug db;
  Some (DepartmentWithRelations.mk
          (Department.id d) (Department.name d) (Department.slug d)
          (Department.createdAt d) (Department.updatedAt d)
          ((λ m, DepartmentMember.mk
                   (UserToDepartment.userId m) (UserToDepartment.departmentId m)
                   (UserToDepartment.role m)
                   ((λ u, MemberUser.mk (User.id u) (NewUser.name (User.values u))
                            (NewUser.email (User.values u)))
                      <$> head (filter (λ u, User.id u = UserToDepartment.userId m)
                                  usersTable)))
             <$> filter (λ m, UserToDepartment.departmentId m = Department.id d)
                   (userToDepartment db))
          ((λ c, DepartmentCourse.mk (Course.id c) (Course.name c) (Course.slug c)
                   (Course.createdAt c))
             <$> filter (λ c, Course.departmentId c = Department.id d)
                   (coursesTable db))).

(** ** Vocabulary of the statements *)

(** The slugs of the stored departments. *)
Definition department_slugs (db : DB) : list string :=
  Department.slug <$> departmentsTable db.

(** The references of [schema.ts] from a course to its department and, from
    there down, from every row to the course, field, roster or session it
    belongs to: each points to a live row.  (The [departmentId] of a course
    link and of a membership are added in [foreign_keys_intact].) *)
Record referential_integrity (db : DB) : Prop := {
  fk_course_department :
    ∀ c, c ∈ coursesTable db →
      Course.departmentId c ∈ Department.id <$> departmentsTable db;
  fk_field_course :
    ∀ f, f ∈ fields db → Field.courseId f ∈ Course.id <$> coursesTable db;
  fk_lessonRoster_course :
    ∀ r, r ∈ lessonRostersTable db →
      LessonRoster.courseId r ∈ Course.id <$> coursesTable db;
  fk_mark_field :
    ∀ m, m ∈ marks db → Mark.fieldId m ∈ Field.id <$> fields db;
  fk_session_lessonRoster :
    ∀ s, s ∈ sessionsTable db →
      Session.lessonRosterId s ∈ LessonRoster.id <$> lessonRostersTable db;
  fk_attendance_session :
    ∀ a, a ∈ attendanceTable db →
      Attendance.periodId a ∈ Session.id <$> sessionsTable db;
  fk_courseToAcademy_course :
    ∀ l, l ∈ coursesToAcademies db →
      CourseToAcademy.courseId l ∈ Course.id <$> coursesTable db;
  fk_studentToLessonRoster_lessonRoster :
    ∀ l, l ∈ studentsToLessonRosters db →
      StudentToLessonRoster.lessonRosterId l
        ∈ LessonRoster.id <$> lessonRostersTable db;
}.

(** Every reference in the stored state that leads to [departmentsTable]
    points to a live row: the references of [referential_integrity], the
    [departmentId] of [coursesToAcademies], and the [departmentId] of the
    memberships.  (The references to [usersTable] are not part of this
    state.) *)
Record foreign_keys_intact (db : DB) : Prop := {
  fk_referential_integrity : referential_integrity db;
  fk_courseToAcademy_department :
    ∀ l, l ∈ coursesToAcademies db →
      CourseToAcademy.departmentId l ∈ Department.id <$> departmentsTable db;
  fk_userToDepartment_department :
    ∀ m, m ∈ userToDepartment db →
      UserToDepartment.departmentId m ∈ Department.id <$> departmentsTable db;
}.

(** Modelled from the spec: a storage that demands of a new membership what
    the spec demands of every reference, "every foreign key reference must
    point to a live row": the department of the row exists. *)
Definition referencing_schema : Schema :=
  {| userToDepartment_accepts db row :=
       bool_decide (UserToDepartment.departmentId row
                      ∈ Department.id <$> departmentsTable db) |}.

(** The [leadersCount] of the item of department [d] raised by one, the
    other items as they are. *)
Definition one_more_leader (d : string) (item : DepartmentListItem.t)
  : DepartmentListItem.t :=
  if decide (DepartmentListItem.id item = d) then
    DepartmentListItem.mk
      (DepartmentListItem.id item) (DepartmentListItem.name item)
      (DepartmentListItem.slug item) (DepartmentListItem.createdAt item)
      (DepartmentListItem.updatedAt item)
      (S (DepartmentListItem.leadersCount item))
      (DepartmentListItem.lecturersCount item)
      (DepartmentListItem.coursesCount item)
  else item.

(** The email values of the users a run has built, batch after batch. *)
Definition generated_emails (run : UserSeederRun.t) : list string :=
  NewUser.email <$> mjoin (UserSeederRun.batches run).


(** The characters of a slug: lowercase letters, digits and the hyphen. *)
Definition is_slug_char (c : ascii) : bool :=
  JS.is_lower c || JS.is_digit c || bool_decide (c = "-"%char).

(** A sequence of [POST /] calls, each with its own UUID and clock readings;
    the state after the last one. *)
Fixpoint departments_POST_all `{Utils} `{JS.Runtime} (fuel : nat)
    (calls : list (string * Timestamp * Timestamp * Request CreateDepartmentBody.t))
    (db : DB) : option DB :=
  match calls with
  | [] => Some db
  | (uuid, createdAt_now, updatedAt_now, req) :: calls =>
      '(_, db) ← departments_POST fuel uuid createdAt_now updatedAt_now req db;
      departments_POST_all fuel calls db
  end.

(** * Properties *)

(** ** Lists *)

Lemma not_NoDup_lookup {A} (l : list A) (i j : nat) (x : A) :
  i ≠ j → l !! i = Some x → l !! j = Some x → ¬ NoDup l.
Proof. intros Hij Hi Hj Hnd. by apply Hij, (NoDup_lookup l i j x). Qed.

Lemma filter_all {A} (P : A → Prop) `{∀ x, Decision (P x)} (l : list A) :
  Forall P l → filter P l = l.
Proof.
  induction 1 as [|x l Hx _ IH]; [done|].
  by rewrite filter_cons_True, IH.
Qed.

Lemma filter_none {A} (P : A → Prop) `{∀ x, Decision (P x)} (l : list A) :
  Forall (λ x, ¬ P x) l → filter P l = [].
Proof.
  induction 1 as [|x l Hx _ IH]; [done|].
  by rewrite filter_cons_False.
Qed.

Lemma remove_dups_cons_elem {A} `{EqDecision A} (x : A) (l : list A) :
  x ∈ l → remove_dups (x :: l) = remove_dups l.
Proof. intros Hx. simpl. by destruct (decide_rel _ x l). Qed.

Lemma remove_dups_cons_not_elem {A} `{EqDecision A} (x : A) (l : list A) :
  x ∉ l → remove_dups (x :: l) = x :: remove_dups l.
Proof. intros Hx. simpl. by destruct (decide_rel _ x l). Qed.

(** Repeating the first element directly after itself adds no group. *)
Lemma remove_dups_repeated_head {A} `{EqDecision A} (x : A) (xs rest : list A) :
  Forall (λ x', x' = x) xs →
  remove_dups (x :: xs ++ rest) = remove_dups (x :: rest).
Proof.
  induction 1 as [|x' xs -> _ IH]; [done|].
  rewrite <- IH. apply remove_dups_cons_elem. simpl. apply list_elem_of_here.
Qed.

Lemma omap_fmap_pointwise {A B} (f f' : A → option B) (g : B → B) (l : list A) :
  (∀ x, f' x = g <$> f x) → omap f' l = g <$> omap f l.
Proof.
  intros Hf. induction l as [|x l IH]; [done|].
  csimpl. rewrite Hf, IH. by destruct (f x).
Qed.

(** ** Strings and decimal rendering *)



Lemma string_length_app (s1 s2 : string) :
  String.length (s1 +:+ s2) = String.length s1 + String.length s2.
Proof. induction s1 as [|c s1 IH]; simpl; [done|by rewrite IH]. Qed.

Lemma Number_toString_inj (n m : N) :
  JS.Number_toString n = JS.Number_toString m → n = m.
Proof.
  unfold JS.Number_toString. intros Heq.
  apply DecimalN.Unsigned.to_uint_inj.
  assert (Hsome : Some (N.to_uint n) = Some (N.to_uint m))
    by (rewrite <- !NilEmpty.usu; by rewrite Heq).
  by injection Hsome.
Qed.


(** ** slugify *)

Example slugify_math : @slugify spec_utils "Math" = "math".
Proof. reflexivity. Qed.

Example slugify_words :
  @slugify spec_utils "  Home & Garden 2 " = "home-garden-2".
Proof. reflexivity. Qed.

Lemma slug_char_fixed (c c' : ascii) :
  SpecSlugify.slug_char c = Some c' → SpecSlugify.slug_char c' = Some c'.
Proof.
  destruct c as [[] [] [] [] [] [] [] []]; intros Hc; vm_compute in Hc;
    try discriminate Hc; injection Hc as <-; reflexivity.
Qed.

Lemma slug_char_hyphen : SpecSlugify.slug_char "-" = None.
Proof. reflexivity. Qed.

Lemma slug_char_url_safe (c c' : ascii) :
  SpecSlugify.slug_char c = Some c' → is_slug_char c' = true.
Proof.
  destruct c as [[] [] [] [] [] [] [] []]; intros Hc; vm_compute in Hc;
    try discriminate Hc; injection Hc as <-; reflexivity.
Qed.

Lemma slug_go_url_safe (emitted sep : bool) (s : string) :
  Forall (λ c, is_slug_char c = true)
    (list_ascii_of_string (SpecSlugify.slug_go emitted sep s)).
Proof.
  revert emitted sep. induction s as [|c s IH]; intros emitted sep; simpl.
  - constructor.
  - destruct (SpecSlugify.slug_char c) as [c'|] eqn:Hc; [|apply IH].
    apply slug_char_url_safe in Hc.
    destruct (emitted && sep); simpl; repeat constructor; auto.
Qed.

(** The slugs are URL-safe: lowercase letters, digits and hyphens only. *)
Lemma slugify_url_safe (x : string) :
  Forall (λ c, is_slug_char c = true) (list_ascii_of_string (@slugify spec_utils x)).
Proof. apply slug_go_url_safe. Qed.

(** Once a character has been produced, slugifying the rest of an output
    gives it back. *)
Lemma slug_go_resume (sep : bool) (s : string) :
  SpecSlugify.slug_go true false (SpecSlugify.slug_go true sep s)
  = SpecSlugify.slug_go true sep s.
Proof.
  revert sep. induction s as [|c s IH]; intros sep; [done|].
  simpl. destruct (SpecSlugify.slug_char c) as [c'|] eqn:Hc; [|apply IH].
  destruct sep; simpl.
  - rewrite (slug_char_fixed _ _ Hc). simpl. by rewrite IH.
  - rewrite (slug_char_fixed _ _ Hc). simpl. by rewrite IH.
Qed.

Lemma slug_go_start (sep : bool) (s : string) :
  SpecSlugify.slug_go false false (SpecSlugify.slug_go false sep s)
  = SpecSlugify.slug_go false sep s.
Proof.
  revert sep. induction s as [|c s IH]; intros sep; [done|].
  simpl. destruct (SpecSlugify.slug_char c) as [c'|] eqn:Hc; [|apply IH].
  simpl. rewrite (slug_char_fixed _ _ Hc). simpl. by rewrite slug_go_resume.
Qed.

(** C8: slugify is a function of its argument alone, and applying it to one
    of its results changes nothing. *)
Theorem C8_slugify_idempotent (x : string) :
  @slugify spec_utils (@slugify spec_utils x) = @slugify spec_utils x.
Proof. apply slug_go_start. Qed.

(** ** Validation of create requests *)

Lemma createDepartmentSchema_string_ok (s : string) :
  (2 ≤ JS.length s ≤ 100)%N →
  createDepartmentSchema (CreateDepartmentBody.mk (Str s)) = Success s.
Proof.
  intros [Hlo Hhi]. unfold createDepartmentSchema, zod_string. simpl.
  destruct (N.ltb_spec (JS.length s) 2); [lia|].
  destruct (N.ltb_spec 100 (JS.length s)); [lia|]. reflexivity.
Qed.

Lemma createDepartmentSchema_string_bad (s : string) :
  (JS.length s < 2 ∨ 100 < JS.length s)%N →
  createDepartmentSchema (CreateDepartmentBody.mk (Str s))
  = Failure
      (if (JS.length s <? 2)%N
       then [mkIssue ["name"] too_small (Some "Name must be at least 2 characters")]
       else [mkIssue ["name"] too_big (Some "Name is too long")]).
Proof.
  intros Hbad. unfold createDepartmentSchema, zod_string. simpl.
  destruct (N.ltb_spec (JS.length s) 2) as [Hlo|Hlo];
    destruct (N.ltb_spec 100 (JS.length s)) as [Hhi|Hhi];
    try reflexivity; lia.
Qed.

(** A request that fails [createDepartmentSchema] never reaches the storage. *)
Lemma departments_POST_rejected `{Utils} `{JS.Runtime} fuel uuid t1 t2 body issues db :
  createDepartmentSchema body = Failure issues →
  departments_POST fuel uuid t1 t2 (Json body) db
  = Some (mkResponse 400 (JsonError issues), db).
Proof. intros Hv. unfold departments_POST. by rewrite Hv. Qed.

(** C7: a create request whose name is shorter than 2 or longer than 100
    characters is answered with status 400 and one issue on the property
    [name]; no row is persisted: the stored state is the one before. *)
Theorem C7_create_invalid_name `{Utils} `{JS.Runtime} (fuel : nat) (uuid : string)
    (t1 t2 : Timestamp) (s : string) (db : DB) :
  (JS.length s < 2 ∨ 100 < JS.length s)%N →
  departments_POST fuel uuid t1 t2 (Json (CreateDepartmentBody.mk (Str s))) db
  = Some (mkResponse 400
            (JsonError
               (if (JS.length s <? 2)%N
                then [mkIssue ["name"] too_small
                        (Some "Name must be at least 2 characters")]
                else [mkIssue ["name"] too_big (Some "Name is too long")])),
          db).
Proof.
  intros Hbad. apply departments_POST_rejected.
  by apply createDepartmentSchema_string_bad.
Qed.

Lemma C7_create_invalid_name_witness :
  (JS.length "M" < 2 ∨ 100 < JS.length "M")%N
  ∧ @departments_POST spec_utils JS.ascii_runtime 0 "id-1" 5%N 5%N
      (Json (CreateDepartmentBody.mk (Str "M")))
      (mkDB [Department.mk "d0" "Art" "art" 1%N (Some 1%N)] [] [] [] [] [] [] [] [] [])
    = Some (mkResponse 400
              (JsonError [mkIssue ["name"] too_small
                            (Some "Name must be at least 2 characters")]),
            mkDB [Department.mk "d0" "Art" "art" 1%N (Some 1%N)] [] [] [] [] [] [] [] [] []).
Proof.
  split; [left; vm_compute; reflexivity|].
  apply (@C7_create_invalid_name spec_utils JS.ascii_runtime 0 "id-1" 5%N 5%N "M").
  left; vm_compute; reflexivity.
Defined.

(** ** Creating departments *)

Lemma findFirst_department_by_slug_None (slug : string) (db : DB) :
  findFirst_department_by_slug slug db = None ↔ slug ∉ department_slugs db.
Proof.
  unfold findFirst_department_by_slug, department_slugs.
  rewrite head_None, list_elem_of_fmap. split.
  - intros Hnil (d & -> & Hd).
    assert (Hin : d ∈ filter (λ d', Department.slug d' = Department.slug d)
                        (departmentsTable db)) by (by apply list_elem_of_filter).
    rewrite Hnil in Hin. by apply elem_of_nil in Hin.
  - intros Hno. destruct (filter _ _) as [|d l] eqn:Hf; [done|].
    assert (Hin : d ∈ filter (λ d', Department.slug d' = slug)
                        (departmentsTable db))
      by (rewrite Hf; apply list_elem_of_here).
    apply list_elem_of_filter in Hin as [Hs Hd]. destruct Hno. eauto.
Qed.

(** The candidates [base-1], [base-2], ... are pairwise different, and
    different from [base]. *)
Lemma suffixed_slug_inj (base : string) (i j : N) :
  base +:+ "-" +:+ JS.Number_toString i = base +:+ "-" +:+ JS.Number_toString j →
  i = j.
Proof.
  intros Heq. apply (inj (String.append base)) in Heq.
  apply Number_toString_inj. by injection Heq.
Qed.

Lemma suffixed_slug_ne_base (base : string) (i : N) :
  base +:+ "-" +:+ JS.Number_toString i ≠ base.
Proof.
  intros Heq. apply (f_equal String.length) in Heq.
  rewrite string_length_app in Heq. simpl in Heq. lia.
Qed.

(** The slug search visits pairwise different candidates, all of them taken;
    it cannot visit more of them than there are rows. *)
Lemma departments_POST_loop_returns (db : DB) (baseSlug : string) (fuel : nat) :
  ∀ (tried : list string) (slug : string) (counter : N),
    NoDup tried →
    (∀ x, x ∈ tried → x ∈ department_slugs db) →
    slug ∉ tried →
    (∀ j, (counter ≤ j)%N →
          (baseSlug +:+ "-" +:+ JS.Number_toString j ∉ tried)
          ∧ baseSlug +:+ "-" +:+ JS.Number_toString j ≠ slug) →
    length (department_slugs db) < fuel + length tried →
    ∃ slug' counter',
      departments_POST_loop fuel db baseSlug slug counter = Some (slug', counter')
      ∧ slug' ∉ department_slugs db.
Proof.
  induction fuel as [|fuel IH]; intros tried slug counter Hnd Hsub Hslug Hnext Hlen.
  - apply NoDup_submseteq in Hsub; [|done].
    apply submseteq_length in Hsub. simpl in Hlen. lia.
  - simpl.
    destruct (findFirst_department_by_slug slug db) as [d|] eqn:Hfind.
    + assert (Htaken : slug ∈ department_slugs db).
      { destruct (decide (slug ∈ department_slugs db)) as [|Hno]; [done|].
        apply findFirst_department_by_slug_None in Hno. congruence. }
      apply (IH (slug :: tried)).
      * by constructor.
      * intros x [->|Hx]%elem_of_cons; auto.
      * destruct (Hnext counter) as [Hfresh Hne]; [lia|].
        rewrite elem_of_cons. intros [Heq|Hin]; [by apply Hne|by apply Hfresh].
      * intros j Hj. destruct (Hnext j) as [Hfresh Hne]; [lia|]. split.
        -- rewrite elem_of_cons. intros [Heq|Hin]; [by apply Hne|by apply Hfresh].
        -- intros Heq%suffixed_slug_inj. lia.
      * simpl. lia.
    + eexists _, _. split; [reflexivity|].
      by apply findFirst_department_by_slug_None.
Qed.

Lemma departments_POST_loop_terminates (db : DB) (baseSlug : string) (fuel : nat) :
  length (departmentsTable db) < fuel →
  ∃ slug' counter',
    departments_POST_loop fuel db baseSlug baseSlug 1 = Some (slug', counter')
    ∧ slug' ∉ department_slugs db.
Proof.
  intros Hfuel. apply (departments_POST_loop_returns db baseSlug fuel []).
  - constructor.
  - intros x Hx. by apply elem_of_nil in Hx.
  - apply not_elem_of_nil.
  - intros j _. split; [apply not_elem_of_nil|apply suffixed_slug_ne_base].
  - unfold department_slugs. rewrite length_fmap. simpl. lia.
Qed.

(** What [POST /] does with a valid name: it inserts the slug of the name
    itself, whatever the slug search has found. *)
Lemma departments_POST_valid `{Utils} `{JS.Runtime} fuel uuid t1 t2 s db :
  (2 ≤ JS.length s ≤ 100)%N →
  length (departmentsTable db) < fuel →
  departments_POST fuel uuid t1 t2 (Json (CreateDepartmentBody.mk (Str s))) db
  = Some match insert_department
                 (Department.mk uuid (capitalizeFirstLetter s) (slugify s)
                    t1 (Some t2)) db with
         | Some db' => (mkResponse 201 JsonData, db')
         | None => (internal_server_error, db)
         end.
Proof.
  intros Hs Hfuel. unfold departments_POST.
  rewrite createDepartmentSchema_string_ok by done.
  destruct (departments_POST_loop_terminates db (slugify s) fuel Hfuel)
    as (slug' & counter' & -> & _).
  by destruct (insert_department _ _).
Qed.

(** A create whose name slugifies to a slug that is taken persists nothing. *)
Lemma departments_POST_taken `{Utils} `{JS.Runtime} fuel uuid t1 t2 s db :
  (2 ≤ JS.length s ≤ 100)%N →
  length (departmentsTable db) < fuel →
  slugify s ∈ department_slugs db →
  departments_POST fuel uuid t1 t2 (Json (CreateDepartmentBody.mk (Str s))) db
  = Some (internal_server_error, db).
Proof.
  intros Hs Hfuel Htaken. rewrite departments_POST_valid by done.
  unfold insert_department. simpl. case_decide; [done|].
  by rewrite decide_True.
Qed.

(** The unique constraint keeps the stored slugs pairwise different, whatever
    is requested. *)
Lemma departments_POST_unique_slugs `{Utils} `{JS.Runtime} fuel uuid t1 t2 req db r db' :
  NoDup (department_slugs db) →
  departments_POST fuel uuid t1 t2 req db = Some (r, db') →
  NoDup (department_slugs db').
Proof.
  intros Hnd. unfold departments_POST.
  destruct req as [|body]; [by intros [= _ <-]|].
  destruct (createDepartmentSchema body) as [s|issues]; [|by intros [= _ <-]].
  destruct (departments_POST_loop _ _ _ _ _) as [[slug counter]|]; [|done].
  unfold insert_department. simpl.
  repeat case_decide; intros [= _ <-]; try done.
  unfold department_slugs, with_departmentsTable. simpl.
  rewrite fmap_app. simpl. apply NoDup_app. split; [done|].
  split; [|apply NoDup_singleton].
  intros x Hx ->%list_elem_of_singleton. done.
Qed.

(** The unique constraint at work over any sequence of create calls. *)
Lemma departments_POST_all_unique_slugs `{Utils} `{JS.Runtime} (fuel : nat)
    (calls : list (string * Timestamp * Timestamp * Request CreateDepartmentBody.t)) :
  ∀ db db',
    NoDup (department_slugs db) →
    departments_POST_all fuel calls db = Some db' →
    NoDup (department_slugs db').
Proof.
  induction calls as [|[[[uuid t1] t2] req] calls IH]; intros db db' Hnd; simpl.
  - by intros [= <-].
  - destruct (departments_POST fuel uuid t1 t2 req db) as [[r db1]|] eqn:Hcall;
      [|done].
    simpl. apply IH. by eapply departments_POST_unique_slugs.
Qed.

(** C1 (the code departs from it): on the empty table, a first create of
    "Math" persists the slug [math]; for a second create of "Math" the slug
    search does find the free slug [math-1], but the insert is given the
    slug of the name again: the storage rejects it, the answer is 500, and
    no second department is persisted. *)
Theorem C1_second_create_persists_nothing :
  ∃ db1,
    @departments_POST spec_utils JS.ascii_runtime 5 "id-1" 10%N 10%N
      (Json (CreateDepartmentBody.mk (Str "Math")))
      (mkDB [] [] [] [] [] [] [] [] [] [])
    = Some (mkResponse 201 JsonData, db1)
    ∧ department_slugs db1 = ["math"]
    ∧ departments_POST_loop 5 db1 "math" "math" 1 = Some ("math-1", 2%N)
    ∧ (@departments_POST spec_utils JS.ascii_runtime 5 "id-2" 20%N 20%N
         (Json (CreateDepartmentBody.mk (Str "Math"))) db1
       = Some (internal_server_error, db1)).
Proof. eexists. split; [vm_compute; reflexivity|]. by vm_compute. Qed.

(** ** Left joins *)

Section leftJoin.
Context {A B : Type} (on : A → B → bool).

Lemma leftJoin_cons (a : A) (l : list A) (r : list B) :
  leftJoin on (a :: l) r = leftJoin_row on a r ++ leftJoin on l r.
Proof. reflexivity. Qed.

Lemma leftJoin_row_fst (a : A) (r : list B) (p : A * option B) :
  p ∈ leftJoin_row on a r → p.1 = a.
Proof.
  unfold leftJoin_row. destruct (filter (on a) r) as [|b bs].
  - by intros ->%list_elem_of_singleton.
  - by intros (b' & -> & _)%list_elem_of_fmap.
Qed.

Lemma leftJoin_row_head (a : A) (r : list B) :
  ∃ ob rest, leftJoin_row on a r = (a, ob) :: rest.
Proof.
  unfold leftJoin_row. destruct (filter (on a) r) as [|b bs]; simpl; eauto.
Qed.

Lemma leftJoin_row_Some (a a' : A) (b : B) (r : list B) :
  (a', Some b) ∈ leftJoin_row on a r ↔ a' = a ∧ b ∈ r ∧ on a b.
Proof.
  unfold leftJoin_row. destruct (filter (on a) r) as [|b0 bs] eqn:Hf.
  - rewrite list_elem_of_singleton. split; [done|].
    intros (_ & Hb & Hon).
    assert (Hin : b ∈ filter (on a) r) by (by apply list_elem_of_filter).
    rewrite Hf in Hin. by apply elem_of_nil in Hin.
  - rewrite <- Hf, list_elem_of_fmap. split.
    + intros (b' & [= -> ->] & [Hon Hb]%list_elem_of_filter). done.
    + intros (-> & Hb & Hon). exists b. split; [done|].
      by apply list_elem_of_filter.
Qed.

(** The rows of a left join whose left part has the key [k] are the rows of
    the join of the left rows that have it. *)
Lemma filter_leftJoin {K} `{EqDecision K} (key : A → K) (k : K)
    (l : list A) (r : list B) :
  filter (λ p, key p.1 = k) (leftJoin on l r)
  = leftJoin on (filter (λ a, key a = k) l) r.
Proof.
  induction l as [|a l IH]; [done|].
  rewrite leftJoin_cons, filter_app, IH.
  destruct (decide (key a = k)) as [Ha|Ha].
  - rewrite (filter_cons_True (λ a, key a = k)) by done.
    rewrite leftJoin_cons. f_equal.
    apply filter_all. apply Forall_forall.
    intros p Hp. by rewrite (leftJoin_row_fst _ _ _ Hp).
  - rewrite (filter_cons_False (λ a, key a = k)) by done.
    rewrite (filter_none _ (leftJoin_row on a r)); [done|].
    apply Forall_forall.
    intros p Hp. by rewrite (leftJoin_row_fst _ _ _ Hp).
Qed.

Lemma leftJoin_head (l : list A) (r : list B) :
  fst <$> head (leftJoin on l r) = head l.
Proof.
  destruct l as [|a l]; [done|]. rewrite leftJoin_cons.
  by destruct (leftJoin_row_head a r) as (ob & rest & ->).
Qed.

Lemma elem_of_leftJoin_fst (l : list A) (r : list B) (a : A) :
  a ∈ fst <$> leftJoin on l r ↔ a ∈ l.
Proof.
  induction l as [|a' l IH].
  - simpl. split; intros Hin; by apply elem_of_nil in Hin.
  - rewrite leftJoin_cons, fmap_app, elem_of_app, IH, elem_of_cons.
    destruct (leftJoin_row_head a' r) as (ob & rest & Hrow).
    split; (intros [Hin|Hin]; [left|by right]).
    + apply list_elem_of_fmap in Hin as (p & -> & Hp).
      by apply leftJoin_row_fst in Hp.
    + subst a'. rewrite Hrow. simpl. apply list_elem_of_here.
Qed.

Lemma elem_of_leftJoin_Some (l : list A) (r : list B) (a : A) (b : B) :
  (a, Some b) ∈ leftJoin on l r ↔ a ∈ l ∧ b ∈ r ∧ on a b.
Proof.
  induction l as [|a' l IH].
  - simpl. split; [by intros Hin%elem_of_nil|by intros [Hin%elem_of_nil _]].
  - rewrite leftJoin_cons, elem_of_app, IH, leftJoin_row_Some, elem_of_cons.
    split.
    + intros [(-> & Hb & Hon)|(Ha & Hb & Hon)];
        (split; [|done]); [by left|by right].
    + intros ([->|Ha] & Hb & Hon); [by left|by right].
Qed.

(** Grouping a left join by a key of its left rows gives the keys of the
    left rows. *)
Lemma remove_dups_leftJoin {K} `{EqDecision K} (key : A → K)
    (l : list A) (r : list B) :
  remove_dups ((λ p, key p.1) <$> leftJoin on l r) = remove_dups (key <$> l).
Proof.
  induction l as [|a l IH]; [done|].
  rewrite leftJoin_cons, fmap_app.
  destruct (leftJoin_row_head a r) as (ob & rest & Hrow).
  assert (Hkeys : Forall (λ k', k' = key a) ((λ p, key p.1) <$> rest)).
  { apply Forall_fmap, Forall_forall. intros p Hp. simpl. f_equal.
    apply (leftJoin_row_fst a r). rewrite Hrow. by apply list_elem_of_further. }
  rewrite Hrow, fmap_cons, <- app_comm_cons.
  rewrite (remove_dups_repeated_head _ _ _ Hkeys). cbn [fst]. rewrite fmap_cons.
  assert (Hin : key a ∈ (λ p, key p.1) <$> leftJoin on l r ↔ key a ∈ key <$> l).
  { rewrite <- (elem_of_remove_dups (_ <$> leftJoin on l r)), IH.
    apply elem_of_remove_dups. }
  destruct (decide (key a ∈ key <$> l)) as [Hk|Hk].
  - rewrite !remove_dups_cons_elem by tauto. exact IH.
  - rewrite !remove_dups_cons_not_elem by tauto. by rewrite IH.
Qed.

End leftJoin.

(** ** Adding a member, then listing the departments *)

Example departments_GET_counts :
  let db :=
    mkDB [Department.mk "d1" "Math" "math" 1%N (Some 1%N);
          Department.mk "d2" "Art" "art" 2%N (Some 2%N)]
         [Course.mk "c1" "d1" (Some "Algebra") "algebra" None 3%N (Some 3%N);
          Course.mk "c2" "d1" (Some "Analysis") "analysis" None 4%N (Some 4%N)]
         [] [] [] [] [] [] []
         [UserToDepartment.mk "u1" "d1" LEADER;
          UserToDepartment.mk "u2" "d1" LECTURER;
          UserToDepartment.mk "u3" "d1" LEADER] in
  @departments_GET table_order db
  = [DepartmentListItem.mk "d1" "Math" "math" 1%N (Some 1%N) 2 1 2;
     DepartmentListItem.mk "d2" "Art" "art" 2%N (Some 2%N) 0 0 0]
  ∧ @departments_GET reverse_order db
    = [DepartmentListItem.mk "d2" "Art" "art" 2%N (Some 2%N) 0 0 0;
       DepartmentListItem.mk "d1" "Math" "math" 1%N (Some 1%N) 2 1 2].
Proof. split; vm_compute; reflexivity. Qed.

Lemma departments_GET_ids (db : DB) :
  remove_dups ((λ r, Department.id r.1.1) <$> departments_GET_rows db)
  = remove_dups (Department.id <$> departmentsTable db).
Proof.
  unfold departments_GET_rows.
  rewrite (remove_dups_leftJoin _ (λ dc, Department.id dc.1)).
  apply (remove_dups_leftJoin _ Department.id).
Qed.

(** The group of one department id: the join of the departments of that id
    with the courses, then with the memberships. *)
Lemma departments_GET_group (db : DB) (i : string) :
  filter (λ r, Department.id r.1.1 = i) (departments_GET_rows db)
  = leftJoin (λ dc m, bool_decide (Department.id dc.1 = UserToDepartment.departmentId m))
      (leftJoin (λ d c, bool_decide (Department.id d = Course.departmentId c))
         (filter (λ d, Department.id d = i) (departmentsTable db))
         (coursesTable db))
      (userToDepartment db).
Proof.
  unfold departments_GET_rows.
  rewrite (filter_leftJoin _
             (λ dc : Department.t * option Course.t, Department.id dc.1) i).
  by rewrite (filter_leftJoin _ Department.id i).
Qed.

(** Whatever order the storage chooses, the items are those of the groups
    taken in the order of the table. *)
Lemma departments_GET_Permutation `{Engine} (db : DB) :
  departments_GET db ≡ₚ @departments_GET table_order db.
Proof.
  unfold departments_GET. cbn [group_order table_order].
  apply omap_Permutation, group_order_Permutation.
Qed.

(** Every stored department is reported: the item of its group carries its
    id and the two member counts of that id. *)
Lemma departments_GET_reports `{Engine} (db : DB) (dep : Department.t) :
  dep ∈ departmentsTable db →
  ∃ item,
    item ∈ departments_GET db
    ∧ DepartmentListItem.id item = Department.id dep
    ∧ DepartmentListItem.leadersCount item
      = count_members LEADER (Department.id dep) db
    ∧ DepartmentListItem.lecturersCount item
      = count_members LECTURER (Department.id dep) db.
Proof.
  intros Hdep.
  set (g := filter (λ r, Department.id r.1.1 = Department.id dep)
              (departments_GET_rows db)).
  assert (Hg : ∃ d0 oc om rest,
             g = (d0, oc, om) :: rest ∧ Department.id d0 = Department.id dep).
  { unfold g. rewrite departments_GET_group.
    set (on := λ (dc : Department.t * option Course.t) (m : UserToDepartment.t),
                 bool_decide (Department.id dc.1 = UserToDepartment.departmentId m)).
    set (on' := λ (d : Department.t) (c : Course.t),
                  bool_decide (Department.id d = Course.departmentId c)).
    set (ds := filter (λ d, Department.id d = Department.id dep)
                 (departmentsTable db)).
    assert (Hin : dep ∈ ds) by (by apply list_elem_of_filter).
    pose proof (leftJoin_head on (leftJoin on' ds (coursesTable db))
                  (userToDepartment db)) as Hhead.
    pose proof (leftJoin_head on' ds (coursesTable db)) as Hhead'.
    destruct ds as [|d0 ds'] eqn:Hds; [by apply elem_of_nil in Hin|].
    assert (Hd0 : d0 ∈ filter (λ d, Department.id d = Department.id dep)
                         (departmentsTable db))
      by (fold ds; rewrite Hds; apply list_elem_of_here).
    apply list_elem_of_filter in Hd0 as [Hd0 _].
    destruct (leftJoin on' (d0 :: ds') (coursesTable db)) as [|[d1 oc] l];
      [done|]. injection Hhead' as ->.
    destruct (leftJoin on ((d0, oc) :: l) (userToDepartment db))
      as [|[[d2 oc2] om] rest]; [done|]. injection Hhead as -> ->.
    by exists d0, oc, om, rest. }
  destruct Hg as (d0 & oc & om & rest & Hg & Hid).
  eexists. split; [|split; [|split]].
  - rewrite departments_GET_Permutation. unfold departments_GET.
    cbn [group_order table_order]. apply list_elem_of_omap.
    exists (Department.id dep). split.
    + rewrite departments_GET_ids, elem_of_remove_dups.
      by apply list_elem_of_fmap_2.
    + fold g. rewrite Hg. reflexivity.
  - exact Hid.
  - cbn. by rewrite Hid.
  - cbn. by rewrite Hid.
Qed.

(** The distinct courses of a group do not depend on the memberships joined
    to it. *)
Lemma count_distinct_courses_leftJoin
    (on : Department.t * option Course.t → UserToDepartment.t → bool)
    (l : list (Department.t * option Course.t)) (r r' : list UserToDepartment.t) :
  count_distinct_courses (leftJoin on l r) = count_distinct_courses (leftJoin on l r').
Proof.
  assert (Helem : ∀ (ms : list UserToDepartment.t) (x : string),
            x ∈ omap (λ p : Department.t * option Course.t * option UserToDepartment.t,
                        Course.id <$> p.1.2) (leftJoin on l ms)
            ↔ ∃ dc, dc ∈ l ∧ Course.id <$> dc.2 = Some x).
  { intros ms x. rewrite list_elem_of_omap. split.
    - intros (p & Hp & Hx). exists p.1. split; [|done].
      apply (elem_of_leftJoin_fst on l ms). by apply list_elem_of_fmap_2.
    - intros (dc & Hdc & Hx).
      apply (elem_of_leftJoin_fst on l ms) in Hdc.
      apply list_elem_of_fmap in Hdc as (p & -> & Hp). eauto. }
  unfold count_distinct_courses.
  apply Permutation_length, NoDup_Permutation; [apply NoDup_remove_dups..|].
  intros x. by rewrite !elem_of_remove_dups, !Helem.
Qed.

Lemma count_members_insert (role : departmentUserRole) (d : string)
    (db : DB) (m : UserToDepartment.t) :
  count_members role d (with_userToDepartment db (userToDepartment db ++ [m]))
  = count_members role d db
    + (if decide (UserToDepartment.role m = role
                  ∧ UserToDepartment.departmentId m = d) then 1 else 0).
Proof.
  unfold count_members. simpl. rewrite filter_app, length_app. f_equal.
  rewrite filter_cons. by case_decide.
Qed.

(** What [GET /] reports after one more leader of department [d] has been
    stored. *)
Lemma departments_GET_insert_leader (db : DB) (u d : string) :
  @departments_GET table_order
    (with_userToDepartment db
       (userToDepartment db ++ [UserToDepartment.mk u d LEADER]))
  = one_more_leader d <$> @departments_GET table_order db.
Proof.
  set (m := UserToDepartment.mk u d LEADER).
  set (db' := with_userToDepartment db (userToDepartment db ++ [m])).
  unfold departments_GET. cbn [group_order table_order].
  rewrite !departments_GET_ids.
  change (departmentsTable db') with (departmentsTable db).
  apply omap_fmap_pointwise. intros i. rewrite !departments_GET_group.
  change (departmentsTable db') with (departmentsTable db).
  change (coursesTable db') with (coursesTable db).
  change (userToDepartment db') with (userToDepartment db ++ [m]).
  set (on := λ (dc : Department.t * option Course.t) (m : UserToDepartment.t),
               bool_decide (Department.id dc.1 = UserToDepartment.departmentId m)).
  set (X := leftJoin _ (filter _ (departmentsTable db)) (coursesTable db)).
  pose proof (leftJoin_head on X (userToDepartment db)) as Hhead.
  pose proof (leftJoin_head on X (userToDepartment db ++ [m])) as Hhead'.
  pose proof (count_distinct_courses_leftJoin on X
                (userToDepartment db ++ [m]) (userToDepartment db)) as Hcount.
  destruct (leftJoin on X (userToDepartment db)) as [|[[d0 oc] om] g];
    destruct (leftJoin on X (userToDepartment db ++ [m])) as [|[[d0' oc'] om'] g'];
    simpl in Hhead, Hhead'; rewrite <- Hhead in Hhead'; try done.
  injection Hhead' as -> ->. simpl. f_equal.
  unfold db'. rewrite !count_members_insert, Hcount. unfold one_more_leader. simpl.
  destruct (decide (Department.id d0 = d)) as [Hd|Hd].
  - rewrite decide_True by done. f_equal; lia.
  - rewrite decide_False by (by intros [_ ?]). f_equal; lia.
Qed.

(** A request answered with 200 has passed the schema, and its row has been
    appended to the memberships. *)
Lemma departments_POST_members_200 `{Schema}
    (body : AssignUserToDepartmentBody.t) (db db' : DB) (response : Response) :
  departments_POST_members (Json body) db = (response, db') →
  status response = 200%N →
  ∃ row, assignUserToDepartmentSchema body = Success row
         ∧ db' = with_userToDepartment db (userToDepartment db ++ [row]).
Proof.
  unfold departments_POST_members.
  destruct (assignUserToDepartmentSchema body) as [row|issues];
    [|by intros [= <- _]].
  unfold insert_userToDepartment.
  destruct (userToDepartment_accepts db row); [|by intros [= <- _]].
  intros [= _ <-] _. eauto.
Qed.

Lemma assignUserToDepartmentSchema_leader (userId : JsonField) (d : string)
    (row : UserToDepartment.t) :
  assignUserToDepartmentSchema
    (AssignUserToDepartmentBody.mk userId (Str d) (Str "leader"))
  = Success row →
  row = UserToDepartment.mk (UserToDepartment.userId row) d LEADER.
Proof.
  unfold assignUserToDepartmentSchema.
  change (zod_role _) with (Success LEADER). cbv iota beta.
  destruct (_ ++ _) as [|issue issues]; [|done]. by intros [= <-].
Qed.

(** C2: when [POST /members] with role "leader" for department [d]
    succeeds, [GET /] afterwards reports the items it reported before (in
    whatever order the storage returns them), except that the
    [leadersCount] of [d] is higher by exactly one.  Every stored
    department is reported before and after: its item shows the numbers of
    its leader and lecturer rows, and afterwards the same item with, for
    [d], one leader more, that is the number of leader rows of the
    pre-state plus one; its [lecturersCount], and every count of every
    other department, is unchanged. *)
Theorem C2_add_leader_then_list `{Schema} `{Engine} (userId : JsonField) (d : string)
    (db db' : DB) (response : Response) :
  departments_POST_members
    (Json (AssignUserToDepartmentBody.mk userId (Str d) (Str "leader"))) db
  = (response, db') →
  status response = 200%N →
  departments_GET db' ≡ₚ one_more_leader d <$> departments_GET db
  ∧ ∀ dep, dep ∈ departmentsTable db →
      ∃ item,
        item ∈ departments_GET db
        ∧ DepartmentListItem.id item = Department.id dep
        ∧ DepartmentListItem.leadersCount item
          = count_members LEADER (Department.id dep) db
        ∧ DepartmentListItem.lecturersCount item
          = count_members LECTURER (Department.id dep) db
        ∧ one_more_leader d item ∈ departments_GET db'
        ∧ DepartmentListItem.leadersCount (one_more_leader d item)
          = count_members LEADER (Department.id dep) db
            + (if decide (Department.id dep = d) then 1 else 0)
        ∧ DepartmentListItem.lecturersCount (one_more_leader d item)
          = count_members LECTURER (Department.id dep) db.
Proof.
  intros Hrun Hok.
  destruct (departments_POST_members_200 _ _ _ _ Hrun Hok) as (row & Hrow & ->).
  rewrite (assignUserToDepartmentSchema_leader _ _ _ Hrow).
  set (db' := with_userToDepartment db _).
  assert (Hafter : departments_GET db' ≡ₚ one_more_leader d <$> departments_GET db).
  { rewrite (departments_GET_Permutation db'), (departments_GET_Permutation db).
    unfold db'. by rewrite departments_GET_insert_leader. }
  split; [exact Hafter|].
  intros dep Hdep.
  destruct (departments_GET_reports db dep Hdep)
    as (item & Hitem & Hid & Hleaders & Hlecturers).
  exists item. repeat (split; [done|]).
  split; [rewrite Hafter; by apply list_elem_of_fmap_2|].
  unfold one_more_leader. rewrite Hid.
  case_decide; simpl; split; lia.
Qed.

Lemma C2_add_leader_then_list_witness :
  let db :=
    mkDB [Department.mk "d1" "Math" "math" 1%N (Some 1%N);
          Department.mk "d2" "Art" "art" 2%N (Some 2%N)]
         [Course.mk "c1" "d1" (Some "Algebra") "algebra" None 3%N (Some 3%N);
          Course.mk "c2" "d1" (Some "Analysis") "analysis" None 4%N (Some 4%N)]
         [] [] [] [] [] [] []
         [UserToDepartment.mk "u1" "d1" LEADER;
          UserToDepartment.mk "u2" "d1" LECTURER] in
  let db' :=
    with_userToDepartment db
      (userToDepartment db ++ [UserToDepartment.mk "u3" "d1" LEADER]) in
  @departments_POST_members referencing_schema
    (Json (AssignUserToDepartmentBody.mk (Str "u3") (Str "d1") (Str "leader"))) db
  = (mkResponse 200 JsonData, db')
  ∧ status (mkResponse 200 JsonData) = 200%N
  ∧ @departments_GET reverse_order db
    = [DepartmentListItem.mk "d2" "Art" "art" 2%N (Some 2%N) 0 0 0;
       DepartmentListItem.mk "d1" "Math" "math" 1%N (Some 1%N) 1 1 2]
  ∧ @departments_GET reverse_order db'
    = [DepartmentListItem.mk "d2" "Art" "art" 2%N (Some 2%N) 0 0 0;
       DepartmentListItem.mk "d1" "Math" "math" 1%N (Some 1%N) 2 1 2]
  ∧ @departments_GET reverse_order db'
    ≡ₚ one_more_leader "d1" <$> @departments_GET reverse_order db
  ∧ ∀ dep, dep ∈ departmentsTable db →
      ∃ item,
        item ∈ @departments_GET reverse_order db
        ∧ DepartmentListItem.id item = Department.id dep
        ∧ DepartmentListItem.leadersCount item
          = count_members LEADER (Department.id dep) db
        ∧ DepartmentListItem.lecturersCount item
          = count_members LECTURER (Department.id dep) db
        ∧ one_more_leader "d1" item ∈ @departments_GET reverse_order db'
        ∧ DepartmentListItem.leadersCount (one_more_leader "d1" item)
          = count_members LEADER (Department.id dep) db
            + (if decide (Department.id dep = "d1") then 1 else 0)
        ∧ DepartmentListItem.lecturersCount (one_more_leader "d1" item)
          = count_members LECTURER (Department.id dep) db.
Proof.
  intros db db'.
  assert (Hrun : @departments_POST_members referencing_schema
                   (Json (AssignUserToDepartmentBody.mk (Str "u3") (Str "d1")
                            (Str "leader"))) db
                 = (mkResponse 200 JsonData, db'))
    by (vm_compute; reflexivity).
  split; [exact Hrun|]. split; [reflexivity|].
  split; [vm_compute; reflexivity|]. split; [vm_compute; reflexivity|].
  exact (@C2_add_leader_then_list referencing_schema reverse_order (Str "u3") "d1"
           db db' (mkResponse 200 JsonData) Hrun eq_refl).
Defined.

(** ** Update by slug *)

(** The capitalized form of a name that is not empty: the upper case of its
    first character, then the rest as it is. *)
Lemma capitalizeFirstLetter_cons `{JS.Runtime} (c : ascii) (rest : string) :
  capitalizeFirstLetter (String c rest)
  = JS.toUpperCase (String c EmptyString) +:+ rest.
Proof. reflexivity. Qed.

(** C3: for a valid name, [PUT /:slug] answers 200 and rewrites exactly the
    rows whose slug matches: their name becomes the capitalized input (the
    upper case of its first character, as the runtime converts it, followed
    by the rest of the input unchanged), their [createdAt] and [updatedAt]
    the two readings of the clock, their id and slug stay; every other
    department row and every other table is as before. *)
Theorem C3_update_by_slug `{JS.Runtime} (slug : string)
    (createdAt_now updatedAt_now : Timestamp)
    (c : ascii) (rest : string) (db : DB) :
  (2 ≤ JS.length (String c rest) ≤ 100)%N →
  ∃ db',
    departments_PUT slug createdAt_now updatedAt_now
      (Json (CreateDepartmentBody.mk (Str (String c rest)))) db
    = (mkResponse 200 JsonData, db')
    ∧ length (departmentsTable db') = length (departmentsTable db)
    ∧ (∀ i d, departmentsTable db !! i = Some d →
         ∃ d', departmentsTable db' !! i = Some d'
           ∧ Department.id d' = Department.id d
           ∧ Department.slug d' = Department.slug d
           ∧ if decide (Department.slug d = slug)
             then Department.name d'
                  = JS.toUpperCase (String c EmptyString) +:+ rest
                  ∧ Department.createdAt d' = createdAt_now
                  ∧ Department.updatedAt d' = Some updatedAt_now
             else d' = d)
    ∧ db' = with_departmentsTable db (departmentsTable db').
Proof.
  intros Hlen. eexists. unfold departments_PUT.
  rewrite createDepartmentSchema_string_ok by done.
  split; [reflexivity|]. simpl. split; [by rewrite length_fmap|].
  split; [|reflexivity].
  intros i d Hi. rewrite list_lookup_fmap, Hi. simpl.
  eexists; split; [reflexivity|].
  case_decide; simpl; auto.
Qed.

Lemma C3_update_by_slug_witness :
  (2 ≤ JS.length "applied math" ≤ 100)%N
  ∧ ∃ db',
      @departments_PUT JS.ascii_runtime "math" 70%N 71%N
        (Json (CreateDepartmentBody.mk (Str "applied math")))
        (mkDB [Department.mk "d0" "Art" "art" 1%N (Some 1%N);
               Department.mk "d1" "Math" "math" 2%N (Some 3%N)]
           [] [] [] [] [] [] [] [] [])
      = (mkResponse 200 JsonData, db')
      ∧ departmentsTable db'
        = [Department.mk "d0" "Art" "art" 1%N (Some 1%N);
           Department.mk "d1" "Applied math" "math" 70%N (Some 71%N)].
Proof.
  assert (Hlen : (2 ≤ JS.length "applied math" ≤ 100)%N) by (vm_compute; split; discriminate).
  split; [exact Hlen|].
  destruct (@C3_update_by_slug JS.ascii_runtime "math" 70%N 71%N
              "a"%char "pplied math"
              (mkDB [Department.mk "d0" "Art" "art" 1%N (Some 1%N);
                     Department.mk "d1" "Math" "math" 2%N (Some 3%N)]
                 [] [] [] [] [] [] [] [] []) Hlen) as (db' & Hrun & _).
  exists db'. split; [exact Hrun|].
  vm_compute in Hrun. by injection Hrun as <-.
Defined.

(** ** Removing members *)

Lemma unassign_schema_strings (pairs : list (string * string)) :
  unassignUsersToDeprtmentSchema
    (UnassignUsersBody.mk (Some ((λ '(u, d), (Str u, Str d)) <$> pairs)))
  = Success pairs.
Proof.
  unfold unassignUsersToDeprtmentSchema. simpl.
  assert (Hnone : ∀ (g : nat → list string) (l : list (string * string)),
             mjoin (imap (λ i '(u, d),
                      zod_plain_string (g i ++ ["userId"]) u
                      ++ zod_plain_string (g i ++ ["departmentId"]) d)
                      ((λ '(u, d), (Str u, Str d)) <$> l)) = []).
  { intros g l. revert g. induction l as [|[u d] l IH]; intros g; [done|].
    simpl. apply (IH (g ∘ S)). }
  rewrite (Hnone (λ i, ["idObject"; JS.Number_toString (N.of_nat i)])).
  f_equal. rewrite <- list_fmap_compose.
  rewrite <- (list_fmap_id pairs) at 2.
  apply list_fmap_ext. by intros _ [u d] _.
Qed.

Lemma delete_pairs_spec (pairs : list (string * string)) (db : DB) :
  foldl (λ db '(userId, departmentId),
           delete_userToDepartment userId departmentId db) db pairs
  = with_userToDepartment db
      (filter (λ m, (UserToDepartment.userId m, UserToDepartment.departmentId m)
                      ∉ pairs) (userToDepartment db)).
Proof.
  revert db. induction pairs as [|[u d] pairs IH]; intros db; simpl.
  - destruct db; unfold with_userToDepartment; simpl. f_equal.
    induction userToDepartment0 as [|m ms IHm]; [done|].
    rewrite filter_cons_True by apply not_elem_of_nil. by rewrite <- IHm.
  - rewrite IH. unfold with_userToDepartment, delete_userToDepartment. simpl.
    f_equal. rewrite list_filter_filter. apply list_filter_iff.
    intros m. rewrite elem_of_cons. split.
    + intros [Hp Hm] [Heq|Hin]; [|done]. apply Hm. by inversion Heq.
    + intros Hn. split; [intros Hin; apply Hn; by right|].
      intros [<- <-]. apply Hn. by left.
Qed.

Lemma departments_PATCH_members_filter (pairs : list (string * string)) (db : DB) :
  departments_PATCH_members
    (Json (UnassignUsersBody.mk (Some ((λ '(u, d), (Str u, Str d)) <$> pairs)))) db
  = (mkResponse 200 JsonData,
     with_userToDepartment db
       (filter (λ m, (UserToDepartment.userId m, UserToDepartment.departmentId m)
                       ∉ pairs) (userToDepartment db))).
Proof.
  unfold departments_PATCH_members.
  rewrite unassign_schema_strings. f_equal. apply delete_pairs_spec.
Qed.

(** X27: the outcome of [PATCH /members] does not depend on the order in
    which the pairs are listed, nor on how often: the deletes can settle in
    any order. *)
Lemma departments_PATCH_members_order (pairs pairs' : list (string * string)) (db : DB) :
  (∀ p, p ∈ pairs ↔ p ∈ pairs') →
  departments_PATCH_members
    (Json (UnassignUsersBody.mk (Some ((λ '(u, d), (Str u, Str d)) <$> pairs)))) db
  = departments_PATCH_members
      (Json (UnassignUsersBody.mk (Some ((λ '(u, d), (Str u, Str d)) <$> pairs')))) db.
Proof.
  intros Hsame. rewrite !departments_PATCH_members_filter. do 2 f_equal.
  apply list_filter_iff. intros m. by rewrite Hsame.
Qed.

(** C10: [PATCH /members] answers 200 and leaves exactly the membership rows
    whose (userId, departmentId) pair is not listed, whatever their role and
    however often the pair occurs; the rows that stay keep their order, and
    all other tables are as before. *)
Theorem C10_remove_members (pairs : list (string * string)) (db : DB) :
  departments_PATCH_members
    (Json (UnassignUsersBody.mk (Some ((λ '(u, d), (Str u, Str d)) <$> pairs)))) db
  = (mkResponse 200 JsonData,
     with_userToDepartment db
       (filter (λ m, (UserToDepartment.userId m, UserToDepartment.departmentId m)
                       ∉ pairs) (userToDepartment db))).
Proof. apply departments_PATCH_members_filter. Qed.

Example remove_members_all_roles :
  userToDepartment
    (departments_PATCH_members
       (Json (UnassignUsersBody.mk (Some [(Str "u1", Str "d1")])))
       (mkDB [] [] [] [] [] [] [] [] []
          [UserToDepartment.mk "u1" "d1" LEADER;
           UserToDepartment.mk "u2" "d1" LEADER;
           UserToDepartment.mk "u1" "d1" LECTURER;
           UserToDepartment.mk "u1" "d2" LECTURER;
           UserToDepartment.mk "u1" "d1" LEADER])).2
  = [UserToDepartment.mk "u2" "d1" LEADER; UserToDepartment.mk "u1" "d2" LECTURER].
Proof. reflexivity. Qed.

(** ** The user seeder *)








(** Why the addresses must not begin with a digit: the index is followed by
    the address without a separator.  If the generator produced "2a@x.com"
    for the user with index 1 and "a@x.com" for the others, a run with
    count 13 would build the email "12a@x.com" twice, at the indices 1 and
    12. *)
Example indexed_email_collision :
  ∃ run,
    userSeeder 14 13 ["r1"]
      (λ k, FakerUser.mk "Ann Lee"
              (if decide (k = 1) then "2a@x.com" else "a@x.com")
              1700000000000%N "secret" 0 "avatar.png")
      (λ k, "uuid-" +:+ JS.Number_toString (N.of_nat k)) []
    = Some run
    ∧ generated_emails run !! 1 = Some "12a@x.com"
    ∧ generated_emails run !! 12 = Some "12a@x.com"
    ∧ ¬ NoDup (generated_emails run).
Proof.
  eexists. split; [vm_compute; reflexivity|].
  split; [reflexivity|]. split; [reflexivity|].
  by apply (not_NoDup_lookup _ 1 12 "12a@x.com").
Qed.

(** ** generateUniqueSlug *)

(** The loop of [generateUniqueSlug] reads names and random numbers only:
    the clock is not consulted before the fallback. *)
Lemma next_commerce_department_Date_now (w : World) :
  Date_now (next_commerce_department w).2 = Date_now w.
Proof. reflexivity. Qed.

Lemma next_Math_random_Date_now (w : World) :
  Date_now (next_Math_random w).2 = Date_now w.
Proof. reflexivity. Qed.

(** From [attempts] retries made and [n] to go, [n + 1] evaluations of the
    loop condition are enough to reach a [return]. *)
Lemma generateUniqueSlug_from_returns `{Utils} (n : nat) :
  ∀ (fuel attempts : nat) (existingSlugs : gset string) (w : World),
    attempts + n = maxAttempts → n < fuel →
    ∃ g, generateUniqueSlug_from fuel attempts existingSlugs w = Some g
         ∧ attempts ≤ UniqueSlug.attempts g ≤ maxAttempts
         ∧ (attempts < UniqueSlug.attempts g
              ∧ UniqueSlug.slug g ∉ existingSlugs
            ∨ UniqueSlug.attempts g = maxAttempts
              ∧ UniqueSlug.slug g
                = "course-" +:+ JS.Number_toString (Date_now w 0)
              ∧ UniqueSlug.name g
                = "Course " +:+ JS.Number_toString (Date_now w 0)).
Proof.
  induction n as [|n IH]; intros fuel attempts existingSlugs w Hn Hfuel;
    (destruct fuel as [|fuel]; [lia|]); simpl.
  - rewrite decide_False by lia. eexists; split; [reflexivity|]. simpl.
    split; [lia|]. right. split; [lia|done].
  - rewrite decide_True by lia.
    case_decide as Hbase.
    { eexists; split; [reflexivity|]. simpl. split; [lia|]. left. split; [lia|done]. }
    case_decide as Hsuffix.
    { eexists; split; [reflexivity|]. simpl. split; [lia|]. left. split; [lia|done]. }
    destruct (IH fuel (S attempts) existingSlugs
                (next_Math_random (next_commerce_department w).2).2)
      as (g & Hg & Hbound & Hcase); [lia..|].
    exists g. split; [exact Hg|]. split; [lia|].
    destruct Hcase as [[? ?]|?]; [left; split; [lia|done]|by right].
Qed.

(** [generateUniqueSlug] adds the slug it returns to the set it was given. *)
Lemma generateUniqueSlug_from_adds `{Utils} (fuel : nat) :
  ∀ (attempts : nat) (existingSlugs : gset string) (w : World) (g : UniqueSlug.t),
    generateUniqueSlug_from fuel attempts existingSlugs w = Some g →
    UniqueSlug.existingSlugs g = {[UniqueSlug.slug g]} ∪ existingSlugs.
Proof.
  induction fuel as [|fuel IH]; intros attempts existingSlugs w g Hg; [done|].
  simpl in Hg. case_decide; [|by injection Hg as <-].
  case_decide; [by injection Hg as <-|].
  case_decide; [by injection Hg as <-|].
  by apply IH in Hg.
Qed.

(** C9: [generateUniqueSlug] returns for every set of existing slugs: with
    room for 101 evaluations of the loop condition it yields a result after
    at most 100 attempts; the result was either accepted by the loop (its
    slug was not in the set) or, after exactly 100 failed attempts, is the
    name and slug derived from the timestamp. *)
Theorem C9_generateUniqueSlug_terminates `{Utils} (k : nat)
    (existingSlugs : gset string) (w : World) :
  ∃ g, generateUniqueSlug (S maxAttempts + k) existingSlugs w = Some g
       ∧ UniqueSlug.attempts g ≤ 100
       ∧ (1 ≤ UniqueSlug.attempts g ∧ UniqueSlug.slug g ∉ existingSlugs
          ∨ UniqueSlug.attempts g = 100
            ∧ UniqueSlug.slug g = "course-" +:+ JS.Number_toString (Date_now w 0)
            ∧ UniqueSlug.name g = "Course " +:+ JS.Number_toString (Date_now w 0)).
Proof.
  destruct (generateUniqueSlug_from_returns maxAttempts (S maxAttempts + k) 0
              existingSlugs w) as (g & Hg & Hbound & Hcase); [done|lia|].
  exists g. split; [exact Hg|]. change maxAttempts with 100 in *.
  split; [lia|]. destruct Hcase as [[? ?]|?]; [left; split; [lia|done]|by right].
Qed.

Example generateUniqueSlug_fallback :
  (λ g, (UniqueSlug.slug g, UniqueSlug.name g, UniqueSlug.attempts g))
    <$> @generateUniqueSlug spec_utils 101 {["books"; "books-5"]}
          (mkWorld (λ _, "Books") (λ _, "Lorem ipsum.")
             (λ _, mkRandom (λ n, 5 * n / 1000)%N) (λ _, 1700000000000%N)
             (λ _, "uuid"))
  = Some ("course-1700000000000", "Course 1700000000000", 100).
Proof. vm_compute. reflexivity. Qed.

(** ** The course seeder *)

Lemma no_reference_to_nothing {A B} (f : A → string) (g : B → string) (l : list A) :
  (∀ x, x ∈ l → f x ∈ g <$> []) → l = [].
Proof.
  destruct l as [|x l]; [done|]. intros Hfk.
  specialize (Hfk x (list_elem_of_here _ _)). by apply elem_of_nil in Hfk.
Qed.

(** With no department, referential integrity leaves no course and nothing
    that hangs on a course. *)
Lemma no_departments_no_courses (db : DB) :
  referential_integrity db → departmentsTable db = [] →
  db = mkDB [] [] [] [] [] [] [] [] [] (userToDepartment db).
Proof.
  intros [Hc Hf Hr Hm Hs Ha Hl He] Hd. destruct db as [ds cs fs rs ms ss ats ls es us].
  simpl in *. subst ds.
  apply (no_reference_to_nothing _ Department.id) in Hc as ->.
  apply (no_reference_to_nothing _ Course.id) in Hf as ->.
  apply (no_reference_to_nothing _ Course.id) in Hr as ->.
  apply (no_reference_to_nothing _ Field.id) in Hm as ->.
  apply (no_reference_to_nothing _ LessonRoster.id) in Hs as ->.
  apply (no_reference_to_nothing _ Session.id) in Ha as ->.
  apply (no_reference_to_nothing _ Course.id) in Hl as ->.
  apply (no_reference_to_nothing _ LessonRoster.id) in He as ->.
  reflexivity.
Qed.

(** Whatever the state, the seeder stops before building or inserting
    anything when there is no department. *)
Lemma coursesSeeder_no_departments `{Utils} fuel length now w db :
  departmentsTable db = [] →
  coursesSeeder fuel length now w db
  = Some (CoursesSeederRun.mk [] (delete_all_courses db)
            ["No departments found. Please seed departments first."] false).
Proof. intros Hd. unfold coursesSeeder. simpl. by rewrite Hd. Qed.

(** C5: run on a state without departments, the course seeder returns
    normally, logs its notice, builds and inserts no course, and leaves the
    stored state as it was. *)
Theorem C5_coursesSeeder_no_departments `{Utils} (fuel length : nat)
    (now : Timestamp) (w : World) (db : DB) :
  referential_integrity db →
  departmentsTable db = [] →
  coursesSeeder fuel length now w db
  = Some (CoursesSeederRun.mk [] db
            ["No departments found. Please seed departments first."] false).
Proof.
  intros Hfk Hd. rewrite coursesSeeder_no_departments by done.
  rewrite (no_departments_no_courses db Hfk Hd). reflexivity.
Qed.

Lemma C5_coursesSeeder_no_departments_witness :
  let db := mkDB [] [] [] [] [] [] [] [] [] [] in
  let w := mkWorld (λ _, "Books") (λ _, "Lorem ipsum.")
             (λ _, mkRandom (λ n, 5 * n / 1000)%N) (λ _, 1700000000000%N)
             (λ _, "uuid") in
  referential_integrity db
  ∧ departmentsTable db = []
  ∧ @coursesSeeder spec_utils 101 3 99%N w db
    = Some (CoursesSeederRun.mk [] db
              ["No departments found. Please seed departments first."] false).
Proof.
  intros db w.
  assert (Hfk : referential_integrity db).
  { split; intros x Hx; simpl in Hx; by apply elem_of_nil in Hx. }
  split; [exact Hfk|]. split; [reflexivity|].
  exact (@C5_coursesSeeder_no_departments spec_utils 101 3 99%N w db Hfk eq_refl).
Defined.

(** C4 (the code departs from it): with one department, a generator that
    keeps producing "Books", a random number that keeps giving the suffix 5
    and a clock that stands still for the run, the third and the fourth
    course both get the timestamp slug: [generateUniqueSlug] hands out a
    slug that is in its set already, the slugs of the four courses built are
    not pairwise different, and the insert is rejected. *)
Theorem C4_fallback_slug_repeats :
  let w := mkWorld (λ _, "Books") (λ _, "Lorem ipsum.")
             (λ _, mkRandom (λ n, 5 * n / 1000)%N) (λ _, 1700000000000%N)
             (λ k, "uuid-" +:+ JS.Number_toString (N.of_nat k)) in
  let db := mkDB [Department.mk "d1" "Science" "science" 1%N (Some 1%N)]
              [] [] [] [] [] [] [] [] [] in
  (∃ g, @generateUniqueSlug spec_utils 101
          {["books"; "books-5"; "course-1700000000000"]} w = Some g
        ∧ UniqueSlug.slug g = "course-1700000000000"
        ∧ UniqueSlug.slug g ∈ ({["books"; "books-5"; "course-1700000000000"]} : gset string))
  ∧ ∃ run, @coursesSeeder spec_utils 101 4 1700000000001%N w db = Some run
           ∧ NewCourse.slug <$> CoursesSeederRun.coursesData run
             = ["books"; "books-5"; "course-1700000000000"; "course-1700000000000"]
           ∧ ¬ NoDup (NewCourse.slug <$> CoursesSeederRun.coursesData run)
           ∧ CoursesSeederRun.threw run = true
           ∧ coursesTable (CoursesSeederRun.db run) = [].
Proof.
  intros w db. split.
  - eexists. split; [vm_compute; reflexivity|]. split; [reflexivity|].
    set_solver.
  - eexists. split; [vm_compute; reflexivity|]. split; [reflexivity|].
    split; [|done]. by apply (not_NoDup_lookup _ 2 3 "course-1700000000000").
Qed.

(** * Further properties *)

(** ** Bulk delete *)

Lemma deleteDepartmentsSchema_strings (ids : list string) :
  deleteDepartmentsSchema (DeleteDepartmentsBody.mk (Some (Str <$> ids)))
  = Success ids.
Proof.
  unfold deleteDepartmentsSchema. simpl.
  assert (Hnone : ∀ (g : nat → list string) (l : list string),
             mjoin (imap (λ i f, zod_plain_string (g i) f) (Str <$> l)) = []).
  { intros g l. revert g. induction l as [|x l IH]; intros g; [done|].
    simpl. apply (IH (g ∘ S)). }
  rewrite (Hnone (λ i, ["ids"; JS.Number_toString (N.of_nat i)])).
  f_equal. rewrite <- list_fmap_compose. apply list_fmap_id.
Qed.

Lemma delete_departments_departmentsTable (ids : list string) :
  ∀ db,
    departmentsTable
      (foldl (λ db departmentId, delete_department departmentId db) db ids)
    = filter (λ d, Department.id d ∉ ids) (departmentsTable db).
Proof.
  induction ids as [|i ids IH]; intros db; simpl.
  - symmetry. apply filter_all, Forall_forall. intros d _. apply not_elem_of_nil.
  - rewrite IH. simpl. rewrite list_filter_filter. apply list_filter_iff.
    intros d. rewrite elem_of_cons. split.
    + intros [Hids Hi] [Heq|Hin]; [by apply Hi|by apply Hids].
    + intros Hno. split; [intros Hin|intros Heq]; apply Hno; [by right|by left].
Qed.

(** A kept row that referred to a live row still does, when every row it
    can refer to either stays or has its id among the ids that go. *)
Lemma kept_reference {P} (pid : P → string) (parents parents' : list P)
    (gone : list string) (x : string) :
  x ∈ pid <$> parents →
  (∀ p, p ∈ parents → pid p ∉ gone → p ∈ parents') →
  x ∉ gone →
  x ∈ pid <$> parents'.
Proof.
  intros (p & -> & Hp)%list_elem_of_fmap Hstay Hx.
  apply list_elem_of_fmap_2. by apply Hstay.
Qed.

(** A row stays when its id is not among the ids of the rows that go. *)
Local Ltac row_stays gone :=
  let Hid := fresh "Hid" in
  let Hgo := fresh "Hgo" in
  intros ? ? Hid; apply list_elem_of_filter; (split; [|done]);
  intros Hgo; apply Hid; unfold gone;
  apply list_elem_of_fmap_2; by apply list_elem_of_filter.

Lemma delete_department_referential_integrity (departmentId : string) (db : DB) :
  referential_integrity db → referential_integrity (delete_department departmentId db).
Proof.
  intros [Hc Hf Hr Hm Hs Ha Hl He].
  unfold delete_department, cascade_departments, with_departmentsTable.
  set (gone := Department.id <$> filter _ (departmentsTable db)).
  set (gone_courses := Course.id <$> filter _ (coursesTable db)).
  set (gone_fields := Field.id <$> filter _ (fields db)).
  set (gone_rosters := LessonRoster.id <$> filter _ (lessonRostersTable db)).
  set (gone_sessions := Session.id <$> filter _ (sessionsTable db)).
  split; simpl.
  - intros c [Hkeep Hin]%list_elem_of_filter.
    apply (kept_reference _ (departmentsTable db) _ gone); auto.
    row_stays gone.
  - intros f [Hkeep Hin]%list_elem_of_filter.
    apply (kept_reference _ (coursesTable db) _ gone_courses); auto.
    row_stays gone_courses.
  - intros r [Hkeep Hin]%list_elem_of_filter.
    apply (kept_reference _ (coursesTable db) _ gone_courses); auto.
    row_stays gone_courses.
  - intros m [Hkeep Hin]%list_elem_of_filter.
    apply (kept_reference _ (fields db) _ gone_fields); auto.
    row_stays gone_fields.
  - intros s [Hkeep Hin]%list_elem_of_filter.
    apply (kept_reference _ (lessonRostersTable db) _ gone_rosters); auto.
    row_stays gone_rosters.
  - intros a [Hkeep Hin]%list_elem_of_filter.
    apply (kept_reference _ (sessionsTable db) _ gone_sessions); auto.
    row_stays gone_sessions.
  - intros l [[Hkeep _] Hin]%list_elem_of_filter.
    apply (kept_reference _ (coursesTable db) _ gone_courses); auto.
    row_stays gone_courses.
  - intros l [Hkeep Hin]%list_elem_of_filter.
    apply (kept_reference _ (lessonRostersTable db) _ gone_rosters); auto.
    row_stays gone_rosters.
Qed.

Lemma delete_departments_referential_integrity (ids : list string) :
  ∀ db,
    referential_integrity db →
    referential_integrity
      (foldl (λ db departmentId, delete_department departmentId db) db ids).
Proof.
  induction ids as [|i ids IH]; intros db Hfk; [done|].
  simpl. by apply IH, delete_department_referential_integrity.
Qed.

Lemma delete_department_foreign_keys (departmentId : string) (db : DB) :
  foreign_keys_intact db → foreign_keys_intact (delete_department departmentId db).
Proof.
  intros [Hfk Hl Hm]. split.
  - by apply delete_department_referential_integrity.
  - unfold delete_department, cascade_departments, with_departmentsTable.
    set (gone := Department.id <$> filter _ (departmentsTable db)).
    simpl. intros l [[_ Hkeep] Hin]%list_elem_of_filter.
    apply (kept_reference _ (departmentsTable db) _ gone); auto.
    row_stays gone.
  - unfold delete_department, cascade_departments, with_departmentsTable.
    set (gone := Department.id <$> filter _ (departmentsTable db)).
    simpl. intros m [Hkeep Hin]%list_elem_of_filter.
    apply (kept_reference _ (departmentsTable db) _ gone); auto.
    row_stays gone.
Qed.

Lemma delete_departments_foreign_keys (ids : list string) :
  ∀ db,
    foreign_keys_intact db →
    foreign_keys_intact
      (foldl (λ db departmentId, delete_department departmentId db) db ids).
Proof.
  induction ids as [|i ids IH]; intros db Hfk; [done|].
  simpl. by apply IH, delete_department_foreign_keys.
Qed.

(** The memberships of the departments that are not listed stay. *)
Lemma delete_departments_other_memberships (ids : list string) :
  ∀ db,
    filter (λ m, UserToDepartment.departmentId m ∉ ids)
      (userToDepartment
         (foldl (λ db departmentId, delete_department departmentId db) db ids))
    = filter (λ m, UserToDepartment.departmentId m ∉ ids) (userToDepartment db).
Proof.
  induction ids as [|i ids IH]; intros db; [done|].
  cbn [foldl].
  trans (filter (λ m, UserToDepartment.departmentId m ≠ i)
           (filter (λ m, UserToDepartment.departmentId m ∉ ids)
              (userToDepartment
                 (foldl (λ db departmentId, delete_department departmentId db)
                    (delete_department i db) ids)))).
  { rewrite list_filter_filter. apply list_filter_iff. intros m.
    rewrite elem_of_cons. split.
    - intros Hno. split; [intros Heq|intros Hin]; apply Hno; [by left|by right].
    - by intros [Hi Hids] [?|?]. }
  rewrite IH, list_filter_filter.
  unfold delete_department, cascade_departments, with_departmentsTable. simpl.
  rewrite list_filter_filter. apply list_filter_iff. intros m. split.
  - intros [[Hi Hids] _]. rewrite elem_of_cons. by intros [?|?].
  - rewrite elem_of_cons. intros Hno. split; [split|].
    + intros Heq. apply Hno. by left.
    + intros Hin. apply Hno. by right.
    + intros (d & Hd & [Hid _]%list_elem_of_filter)%list_elem_of_fmap.
      apply Hno. left. by rewrite Hd, Hid.
Qed.

(** The courses of the departments that are not listed stay. *)
Lemma delete_departments_other_courses (ids : list string) :
  ∀ db,
    filter (λ c, Course.departmentId c ∉ ids)
      (coursesTable
         (foldl (λ db departmentId, delete_department departmentId db) db ids))
    = filter (λ c, Course.departmentId c ∉ ids) (coursesTable db).
Proof.
  induction ids as [|i ids IH]; intros db; [done|].
  cbn [foldl].
  trans (filter (λ c, Course.departmentId c ≠ i)
           (filter (λ c, Course.departmentId c ∉ ids)
              (coursesTable
                 (foldl (λ db departmentId, delete_department departmentId db)
                    (delete_department i db) ids)))).
  { rewrite list_filter_filter. apply list_filter_iff. intros c.
    rewrite elem_of_cons. split.
    - intros Hno. split; [intros Heq|intros Hin]; apply Hno; [by left|by right].
    - by intros [Hi Hids] [?|?]. }
  rewrite IH, list_filter_filter.
  unfold delete_department, cascade_departments, with_departmentsTable. simpl.
  rewrite list_filter_filter. apply list_filter_iff. intros c. split.
  - intros [[Hi Hids] _]. rewrite elem_of_cons. by intros [?|?].
  - rewrite elem_of_cons. intros Hno. split; [split|].
    + intros Heq. apply Hno. by left.
    + intros Hin. apply Hno. by right.
    + intros (d & Hd & [Hid _]%list_elem_of_filter)%list_elem_of_fmap.
      apply Hno. left. by rewrite Hd, Hid.
Qed.

Lemma departments_PATCH_strings (ids : list string) (db : DB) :
  departments_PATCH (Json (DeleteDepartmentsBody.mk (Some (Str <$> ids)))) db
  = (mkResponse 200 JsonData,
     foldl (λ db departmentId, delete_department departmentId db) db ids).
Proof. unfold departments_PATCH. by rewrite deleteDepartmentsSchema_strings. Qed.

(** X1: on a state in which every reference to a department or a course
    points to a live row, [PATCH /] with an array of strings answers 200 and
    leaves exactly the departments whose id is not listed, exactly the
    courses of those departments and exactly the memberships of those
    departments; in the state after it every such reference points to a
    live row again, the [departmentId] of the course links and of the
    memberships included: nothing is left pointing to a deleted row. *)
Theorem departments_PATCH_cascade (ids : list string) (db : DB) :
  foreign_keys_intact db →
  ∃ db',
    departments_PATCH (Json (DeleteDepartmentsBody.mk (Some (Str <$> ids)))) db
    = (mkResponse 200 JsonData, db')
    ∧ departmentsTable db'
      = filter (λ d, Department.id d ∉ ids) (departmentsTable db)
    ∧ coursesTable db'
      = filter (λ c, Course.departmentId c ∉ ids) (coursesTable db)
    ∧ userToDepartment db'
      = filter (λ m, UserToDepartment.departmentId m ∉ ids) (userToDepartment db)
    ∧ foreign_keys_intact db'.
Proof.
  intros Hfk. eexists. split; [apply departments_PATCH_strings|].
  pose proof (delete_departments_foreign_keys ids db Hfk) as Hfk'.
  pose proof (delete_departments_departmentsTable ids db) as Hdepartments.
  split; [done|]. split; [|split; [|done]].
  - rewrite <- delete_departments_other_courses.
    symmetry. apply filter_all, Forall_forall. intros c Hc.
    apply (fk_course_department _ (fk_referential_integrity _ Hfk')) in Hc.
    rewrite Hdepartments in Hc.
    apply list_elem_of_fmap in Hc as (d & -> & [Hd _]%list_elem_of_filter). done.
  - rewrite <- delete_departments_other_memberships.
    symmetry. apply filter_all, Forall_forall. intros m Hm.
    apply (fk_userToDepartment_department _ Hfk') in Hm.
    rewrite Hdepartments in Hm.
    apply list_elem_of_fmap in Hm as (d & -> & [Hd _]%list_elem_of_filter). done.
Qed.

Lemma referential_integrity_Forall (db : DB) :
  Forall (λ c, Course.departmentId c ∈ Department.id <$> departmentsTable db)
    (coursesTable db) →
  Forall (λ f, Field.courseId f ∈ Course.id <$> coursesTable db) (fields db) →
  Forall (λ r, LessonRoster.courseId r ∈ Course.id <$> coursesTable db)
    (lessonRostersTable db) →
  Forall (λ m, Mark.fieldId m ∈ Field.id <$> fields db) (marks db) →
  Forall (λ s, Session.lessonRosterId s ∈ LessonRoster.id <$> lessonRostersTable db)
    (sessionsTable db) →
  Forall (λ a, Attendance.periodId a ∈ Session.id <$> sessionsTable db)
    (attendanceTable db) →
  Forall (λ l, CourseToAcademy.courseId l ∈ Course.id <$> coursesTable db)
    (coursesToAcademies db) →
  Forall (λ l, StudentToLessonRoster.lessonRosterId l
                 ∈ LessonRoster.id <$> lessonRostersTable db)
    (studentsToLessonRosters db) →
  referential_integrity db.
Proof. rewrite !Forall_forall. by split. Qed.

Local Ltac check_referential_integrity :=
  apply referential_integrity_Forall;
  apply (bool_decide_unpack _); vm_compute; exact I.

Lemma foreign_keys_intact_Forall (db : DB) :
  referential_integrity db →
  Forall (λ l, CourseToAcademy.departmentId l
                 ∈ Department.id <$> departmentsTable db)
    (coursesToAcademies db) →
  Forall (λ m, UserToDepartment.departmentId m
                 ∈ Department.id <$> departmentsTable db)
    (userToDepartment db) →
  foreign_keys_intact db.
Proof. rewrite !Forall_forall. by split. Qed.

Local Ltac check_foreign_keys :=
  apply foreign_keys_intact_Forall;
  [check_referential_integrity
  |apply (bool_decide_unpack _); vm_compute; exact I..].

Lemma departments_PATCH_cascade_witness :
  let db :=
    mkDB [Department.mk "d1" "Math" "math" 1%N (Some 1%N);
          Department.mk "d2" "Art" "art" 2%N (Some 2%N)]
         [Course.mk "c1" "d1" (Some "Algebra") "algebra" None 3%N (Some 3%N);
          Course.mk "c2" "d2" (Some "Drawing") "drawing" None 4%N (Some 4%N)]
         [Field.mk "f1" "c1" "midterm"; Field.mk "f2" "c2" "portfolio"]
         [] [Mark.mk "m1" "f1" "u9" 1250%Z] [] []
         [CourseToAcademy.mk "c2" "d1"; CourseToAcademy.mk "c2" "d2"] []
         [UserToDepartment.mk "u1" "d1" LEADER;
          UserToDepartment.mk "u2" "d2" LECTURER] in
  foreign_keys_intact db
  ∧ ∃ db',
      departments_PATCH
        (Json (DeleteDepartmentsBody.mk (Some (Str <$> ["d1"; "zz"])))) db
      = (mkResponse 200 JsonData, db')
      ∧ departmentsTable db'
        = filter (λ d, Department.id d ∉ ["d1"; "zz"]) (departmentsTable db)
      ∧ coursesTable db'
        = filter (λ c, Course.departmentId c ∉ ["d1"; "zz"]) (coursesTable db)
      ∧ userToDepartment db'
        = filter (λ m, UserToDepartment.departmentId m ∉ ["d1"; "zz"])
            (userToDepartment db)
      ∧ foreign_keys_intact db'.
Proof.
  intros db.
  assert (Hfk : foreign_keys_intact db) by check_foreign_keys.
  split; [exact Hfk|]. exact (departments_PATCH_cascade ["d1"; "zz"] db Hfk).
Defined.

Example departments_PATCH_example :
  (departments_PATCH
     (Json (DeleteDepartmentsBody.mk (Some (Str <$> ["d1"; "zz"]))))
     (mkDB [Department.mk "d1" "Math" "math" 1%N (Some 1%N);
            Department.mk "d2" "Art" "art" 2%N (Some 2%N)]
        [Course.mk "c1" "d1" (Some "Algebra") "algebra" None 3%N (Some 3%N);
         Course.mk "c2" "d2" (Some "Drawing") "drawing" None 4%N (Some 4%N)]
        [Field.mk "f1" "c1" "midterm"; Field.mk "f2" "c2" "portfolio"]
        [] [Mark.mk "m1" "f1" "u9" 1250%Z] [] []
        [CourseToAcademy.mk "c2" "d1"; CourseToAcademy.mk "c2" "d2"] []
        [UserToDepartment.mk "u1" "d1" LEADER;
         UserToDepartment.mk "u2" "d2" LECTURER])).2
  = mkDB [Department.mk "d2" "Art" "art" 2%N (Some 2%N)]
      [Course.mk "c2" "d2" (Some "Drawing") "drawing" None 4%N (Some 4%N)]
      [Field.mk "f2" "c2" "portfolio"] [] [] [] []
      [CourseToAcademy.mk "c2" "d2"] []
      [UserToDepartment.mk "u2" "d2" LECTURER].
Proof. vm_compute. reflexivity. Qed.

Lemma filter_in_nil {A} (f : A → string) (l : list A) :
  filter (λ x, f x ∈ @nil string) l = [].
Proof. apply filter_none, Forall_forall. intros x _. apply not_elem_of_nil. Qed.

Lemma filter_not_in_nil {A} (f : A → string) (l : list A) :
  filter (λ x, f x ∉ @nil string) l = l.
Proof. apply filter_all, Forall_forall. intros x _. apply not_elem_of_nil. Qed.

(** When no department goes, nothing goes. *)
Lemma cascade_departments_nil (db : DB) : cascade_departments [] db = db.
Proof.
  destruct db as [ds cs fs rs ms ss ats ls es us].
  unfold cascade_departments.
  cbn [departmentsTable coursesTable fields lessonRostersTable marks
       sessionsTable attendanceTable coursesToAcademies
       studentsToLessonRosters userToDepartment].
  rewrite (filter_in_nil Course.departmentId cs). cbn [fmap list_fmap].
  rewrite (filter_in_nil Field.courseId fs), (filter_in_nil LessonRoster.courseId rs).
  cbn [fmap list_fmap].
  rewrite (filter_in_nil Session.lessonRosterId ss). cbn [fmap list_fmap].
  rewrite (filter_not_in_nil Course.departmentId cs),
    (filter_not_in_nil Field.courseId fs),
    (filter_not_in_nil LessonRoster.courseId rs),
    (filter_not_in_nil Mark.fieldId ms),
    (filter_not_in_nil Session.lessonRosterId ss),
    (filter_not_in_nil Attendance.periodId ats),
    (filter_not_in_nil StudentToLessonRoster.lessonRosterId es),
    (filter_not_in_nil UserToDepartment.departmentId us).
  rewrite (filter_all _ ls); [done|].
  apply Forall_forall. intros l _. split; apply not_elem_of_nil.
Qed.

(** Deleting an id that no department has is a delete of zero rows. *)
Lemma delete_department_unknown (departmentId : string) (db : DB) :
  departmentId ∉ Department.id <$> departmentsTable db →
  delete_department departmentId db = db.
Proof.
  intros Hno. unfold delete_department.
  rewrite (filter_none (λ d, Department.id d = departmentId)).
  2:{ apply Forall_forall. intros d Hd Heq. apply Hno.
      rewrite <- Heq. by apply list_elem_of_fmap_2. }
  rewrite (filter_all (λ d, Department.id d ≠ departmentId)).
  2:{ apply Forall_forall. intros d Hd Heq. apply Hno.
      rewrite <- Heq. by apply list_elem_of_fmap_2. }
  cbn [fmap list_fmap]. rewrite cascade_departments_nil. by destruct db.
Qed.

Lemma delete_departments_unknown (ids : list string) (db : DB) :
  (∀ i, i ∈ ids → i ∉ Department.id <$> departmentsTable db) →
  foldl (λ db departmentId, delete_department departmentId db) db ids = db.
Proof.
  intros Hunknown. induction ids as [|i ids IH]; [done|]. simpl.
  rewrite delete_department_unknown by (apply Hunknown, list_elem_of_here).
  apply IH. intros j Hj. by apply Hunknown, list_elem_of_further.
Qed.

(** X2: listing ids that no department has (the empty array included) is
    not an error: [PATCH /] answers 200 and the stored state is the one
    before. *)
Theorem departments_PATCH_unknown_ids (ids : list string) (db : DB) :
  (∀ i, i ∈ ids → i ∉ Department.id <$> departmentsTable db) →
  departments_PATCH (Json (DeleteDepartmentsBody.mk (Some (Str <$> ids)))) db
  = (mkResponse 200 JsonData, db).
Proof.
  intros Hunknown. rewrite departments_PATCH_strings. f_equal.
  by apply delete_departments_unknown.
Qed.

Lemma departments_PATCH_unknown_ids_witness :
  let db :=
    mkDB [Department.mk "d1" "Math" "math" 1%N (Some 1%N)]
         [Course.mk "c1" "d1" (Some "Algebra") "algebra" None 3%N (Some 3%N)]
         [] [] [] [] [] [] [] [UserToDepartment.mk "u1" "d1" LEADER] in
  (∀ i, i ∈ ["d7"; ""] → i ∉ Department.id <$> departmentsTable db)
  ∧ departments_PATCH (Json (DeleteDepartmentsBody.mk (Some (Str <$> ["d7"; ""])))) db
    = (mkResponse 200 JsonData, db).
Proof.
  intros db.
  assert (Hunknown : ∀ i, i ∈ ["d7"; ""] → i ∉ Department.id <$> departmentsTable db).
  { intros i Hi. apply (Forall_forall (λ i, i ∉ Department.id <$> departmentsTable db)
                          ["d7"; ""]); [|done].
    apply (bool_decide_unpack _). vm_compute. exact I. }
  split; [exact Hunknown|]. exact (departments_PATCH_unknown_ids ["d7"; ""] db Hunknown).
Defined.

(** An array either holds strings only, or the element-wise check raises
    an issue. *)
Lemma zod_array_of_strings (items : list JsonField) :
  ∀ g : nat → list string,
    (∃ ss, items = Str <$> ss)
    ∨ mjoin (imap (λ i f, zod_plain_string (g i) f) items) ≠ [].
Proof.
  induction items as [|f items IH]; intros g.
  - left. by exists [].
  - destruct f as [| | |s]; [right; simpl; discriminate..|].
    destruct (IH (g ∘ S)) as [[ss ->]|Hissue].
    + left. by exists (s :: ss).
    + right. exact Hissue.
Qed.

(** X3: a body whose [ids] is not an array of strings is answered by
    [PATCH /] with status 400 and at least one issue; nothing is deleted. *)
Theorem departments_PATCH_invalid (body : DeleteDepartmentsBody.t) (db : DB) :
  (∀ ids, DeleteDepartmentsBody.ids body ≠ Some (Str <$> ids)) →
  ∃ issues,
    issues ≠ []
    ∧ departments_PATCH (Json body) db = (mkResponse 400 (JsonError issues), db).
Proof.
  intros Hbad. unfold departments_PATCH, deleteDepartmentsSchema.
  destruct (DeleteDepartmentsBody.ids body) as [items|] eqn:Hids;
    [|eexists; (split; [|reflexivity]); discriminate].
  destruct (zod_array_of_strings items
              (λ i, ["ids"; JS.Number_toString (N.of_nat i)])) as [[ss ->]|Hissue].
  - by destruct (Hbad ss).
  - destruct (mjoin _) as [|issue issues]; [done|].
    eexists; (split; [|reflexivity]); discriminate.
Qed.

Lemma departments_PATCH_invalid_witness :
  let body := DeleteDepartmentsBody.mk (Some [Str "d1"; NotAString]) in
  let db := mkDB [Department.mk "d1" "Math" "math" 1%N (Some 1%N)]
              [] [] [] [] [] [] [] [] [] in
  (∀ ids, DeleteDepartmentsBody.ids body ≠ Some (Str <$> ids))
  ∧ ∃ issues,
      issues ≠ []
      ∧ departments_PATCH (Json body) db = (mkResponse 400 (JsonError issues), db).
Proof.
  intros body db.
  assert (Hbad : ∀ ids, DeleteDepartmentsBody.ids body ≠ Some (Str <$> ids)).
  { intros [|i [|j ids]]; simpl; intros [=]. }
  split; [exact Hbad|]. exact (departments_PATCH_invalid body db Hbad).
Defined.

(** ** Create, fetch, update *)

(** X4: [POST /] answers every request, once the slug search is given more
    iterations than there are departments: with 201, and then exactly one
    row has been appended to the departments, or with 400 or 500, and then
    the stored state is the one before. *)
Theorem departments_POST_answers `{Utils} `{JS.Runtime} (fuel : nat) (uuid : string)
    (t1 t2 : Timestamp) (req : Request CreateDepartmentBody.t) (db : DB) :
  length (departmentsTable db) < fuel →
  ∃ response db',
    departments_POST fuel uuid t1 t2 req db = Some (response, db')
    ∧ (status response = 201%N
       ∧ (∃ row, db' = with_departmentsTable db (departmentsTable db ++ [row]))
       ∨ (status response = 400%N ∨ status response = 500%N) ∧ db' = db).
Proof.
  intros Hfuel. unfold departments_POST.
  destruct req as [|body]; [eexists _, _; split; [done|]; right; auto|].
  destruct (createDepartmentSchema body) as [name|issues];
    [|eexists _, _; split; [done|]; right; auto].
  destruct (departments_POST_loop_terminates db (slugify name) fuel Hfuel)
    as (slug' & counter' & -> & _).
  unfold insert_department.
  repeat case_decide; eexists _, _; (split; [done|]); [right; auto..|].
  left. split; [done|]. by eexists.
Qed.

Lemma departments_POST_answers_witness :
  let db := mkDB [Department.mk "d1" "Math" "math" 1%N (Some 1%N)]
              [] [] [] [] [] [] [] [] [] in
  length (departmentsTable db) < 2
  ∧ ∃ response db',
      @departments_POST spec_utils JS.ascii_runtime 2 "d2" 5%N 6%N
        (Json (CreateDepartmentBody.mk (Str "math"))) db
      = Some (response, db')
      ∧ (status response = 201%N
         ∧ (∃ row, db' = with_departmentsTable db (departmentsTable db ++ [row]))
         ∨ (status response = 400%N ∨ status response = 500%N) ∧ db' = db).
Proof.
  intros db. split; [simpl; lia|].
  apply (@departments_POST_answers spec_utils JS.ascii_runtime 2 "d2" 5%N 6%N). simpl; lia.
Defined.

(** X5: a create with a valid name whose slug is free and whose UUID is
    fresh answers 201 and appends one department: the UUID, the name with
    its first character in upper case (as the runtime converts it) and the
    rest unchanged, the slug of the name and the two readings of the
    clock. *)
Theorem departments_POST_created `{Utils} `{JS.Runtime} (fuel : nat) (uuid : string)
    (t1 t2 : Timestamp) (c : ascii) (rest : string) (db : DB) :
  (2 ≤ JS.length (String c rest) ≤ 100)%N →
  length (departmentsTable db) < fuel →
  uuid ∉ Department.id <$> departmentsTable db →
  slugify (String c rest) ∉ department_slugs db →
  departments_POST fuel uuid t1 t2
    (Json (CreateDepartmentBody.mk (Str (String c rest)))) db
  = Some (mkResponse 201 JsonData,
          with_departmentsTable db
            (departmentsTable db
             ++ [Department.mk uuid
                   (JS.toUpperCase (String c EmptyString) +:+ rest)
                   (slugify (String c rest)) t1 (Some t2)])).
Proof.
  intros Hs Hfuel Hid Hslug. rewrite departments_POST_valid by done.
  unfold insert_department. cbn [Department.id Department.slug].
  rewrite capitalizeFirstLetter_cons. by repeat case_decide.
Qed.

Lemma departments_POST_created_witness :
  let db := mkDB [Department.mk "d1" "Math" "math" 1%N (Some 1%N)]
              [] [] [] [] [] [] [] [] [] in
  (2 ≤ JS.length "fine arts" ≤ 100)%N
  ∧ length (departmentsTable db) < 2
  ∧ ("d2" ∉ Department.id <$> departmentsTable db)
  ∧ (@slugify spec_utils "fine arts" ∉ department_slugs db)
  ∧ @departments_POST spec_utils JS.ascii_runtime 2 "d2" 5%N 6%N
      (Json (CreateDepartmentBody.mk (Str "fine arts"))) db
    = Some (mkResponse 201 JsonData,
            with_departmentsTable db
              (departmentsTable db
               ++ [Department.mk "d2" "Fine arts" "fine-arts" 5%N (Some 6%N)])).
Proof.
  intros db.
  assert (H1 : (2 ≤ JS.length "fine arts" ≤ 100)%N) by (vm_compute; split; discriminate).
  assert (H2 : length (departmentsTable db) < 2) by (simpl; lia).
  assert (H3 : "d2" ∉ Department.id <$> departmentsTable db)
    by (apply (bool_decide_unpack _); vm_compute; exact I).
  assert (H4 : @slugify spec_utils "fine arts" ∉ department_slugs db)
    by (apply (bool_decide_unpack _); vm_compute; exact I).
  repeat (split; [assumption|]).
  exact (@departments_POST_created spec_utils JS.ascii_runtime 2 "d2" 5%N 6%N
           "f"%char "ine arts" db H1 H2 H3 H4).
Defined.

Lemma findFirst_department_by_slug_app_new (slug : string) (row : Department.t) (db : DB) :
  slug ∉ department_slugs db → Department.slug row = slug →
  findFirst_department_by_slug slug
    (with_departmentsTable db (departmentsTable db ++ [row]))
  = Some row.
Proof.
  intros Hfree Hrow. unfold findFirst_department_by_slug, with_departmentsTable.
  cbn [departmentsTable].
  rewrite filter_app, (filter_none _ (departmentsTable db)).
  - by rewrite filter_cons_True.
  - apply Forall_forall. intros d Hd Heq. apply Hfree. rewrite <- Heq.
    by apply list_elem_of_fmap_2.
Qed.

(** X6: after a create that was answered with 201, [GET /:slug] with the
    slug of the name finds the new department: its id, its name (the first
    character of the input in upper case, as the runtime converts it, then
    the rest unchanged), its slug and its timestamps are the ones of the
    create, and it has no course. *)
Theorem create_then_fetch `{Utils} `{JS.Runtime} (fuel : nat) (uuid : string)
    (t1 t2 : Timestamp) (c : ascii) (rest : string) (usersTable : list User.t)
    (db db' : DB) (response : Response) :
  (2 ≤ JS.length (String c rest) ≤ 100)%N →
  length (departmentsTable db) < fuel →
  referential_integrity db →
  departments_POST fuel uuid t1 t2
    (Json (CreateDepartmentBody.mk (Str (String c rest)))) db
  = Some (response, db') →
  status response = 201%N →
  ∃ data,
    departments_GET_slug usersTable (slugify (String c rest)) db' = Some data
    ∧ DepartmentWithRelations.id data = uuid
    ∧ DepartmentWithRelations.name data
      = JS.toUpperCase (String c EmptyString) +:+ rest
    ∧ DepartmentWithRelations.slug data = slugify (String c rest)
    ∧ DepartmentWithRelations.createdAt data = t1
    ∧ DepartmentWithRelations.updatedAt data = Some t2
    ∧ DepartmentWithRelations.courses data = [].
Proof.
  intros Hs Hfuel Hfk. rewrite departments_POST_valid by done.
  unfold insert_department. cbn [Department.id Department.slug].
  case_decide as Hid; [by intros [= <- _]|].
  case_decide as Hslug; [by intros [= <- _]|].
  intros [= _ <-] _. unfold departments_GET_slug.
  rewrite findFirst_department_by_slug_app_new by done. simpl.
  eexists. split; [reflexivity|]. simpl. repeat (split; [done|]).
  rewrite (filter_none _ (coursesTable db)); [done|].
  apply Forall_forall. intros course Hc Heq. apply Hid. rewrite <- Heq.
  by apply (fk_course_department _ Hfk).
Qed.

Lemma create_then_fetch_witness :
  let db := mkDB [Department.mk "d1" "Math" "math" 1%N (Some 1%N)]
              [Course.mk "c1" "d1" (Some "Algebra") "algebra" None 3%N (Some 3%N)]
              [] [] [] [] [] [] [] [] in
  let db' := with_departmentsTable db
               (departmentsTable db
                ++ [Department.mk "d2" "Fine arts" "fine-arts" 5%N (Some 6%N)]) in
  (2 ≤ JS.length "fine arts" ≤ 100)%N
  ∧ length (departmentsTable db) < 2
  ∧ referential_integrity db
  ∧ @departments_POST spec_utils JS.ascii_runtime 2 "d2" 5%N 6%N
      (Json (CreateDepartmentBody.mk (Str "fine arts"))) db
    = Some (mkResponse 201 JsonData, db')
  ∧ status (mkResponse 201 JsonData) = 201%N
  ∧ ∃ data,
      departments_GET_slug [] (@slugify spec_utils "fine arts") db' = Some data
      ∧ DepartmentWithRelations.id data = "d2"
      ∧ DepartmentWithRelations.name data = "Fine arts"
      ∧ DepartmentWithRelations.slug data = @slugify spec_utils "fine arts"
      ∧ DepartmentWithRelations.createdAt data = 5%N
      ∧ DepartmentWithRelations.updatedAt data = Some 6%N
      ∧ DepartmentWithRelations.courses data = [].
Proof.
  intros db db'.
  assert (H1 : (2 ≤ JS.length "fine arts" ≤ 100)%N) by (vm_compute; split; discriminate).
  assert (H2 : length (departmentsTable db) < 2) by (simpl; lia).
  assert (H3 : referential_integrity db) by check_referential_integrity.
  assert (H4 : @departments_POST spec_utils JS.ascii_runtime 2 "d2" 5%N 6%N
                 (Json (CreateDepartmentBody.mk (Str "fine arts"))) db
               = Some (mkResponse 201 JsonData, db')) by (vm_compute; reflexivity).
  repeat (split; [assumption || reflexivity|]).
  exact (@create_then_fetch spec_utils JS.ascii_runtime 2 "d2" 5%N 6%N
           "f"%char "ine arts" [] db db'
           (mkResponse 201 JsonData) H1 H2 H3 H4 eq_refl).
Defined.

(** X7: [PUT /:slug] with a slug that no department has is not an error:
    for a valid name it answers 200 and the stored state is the one before. *)
Theorem departments_PUT_unknown_slug `{JS.Runtime} (slug : string) (t1 t2 : Timestamp)
    (s : string) (db : DB) :
  (2 ≤ JS.length s ≤ 100)%N →
  slug ∉ department_slugs db →
  departments_PUT slug t1 t2 (Json (CreateDepartmentBody.mk (Str s))) db
  = (mkResponse 200 JsonData, db).
Proof.
  intros Hs Hunknown. unfold departments_PUT.
  rewrite createDepartmentSchema_string_ok by done. f_equal.
  unfold update_departments_by_slug.
  rewrite (list_fmap_ext _ id (departmentsTable db));
    [by rewrite list_fmap_id; destruct db|].
  intros i d Hd. rewrite decide_False; [done|].
  intros Heq. apply Hunknown. rewrite <- Heq.
  apply list_elem_of_fmap_2. by eapply list_elem_of_lookup_2.
Qed.

Lemma departments_PUT_unknown_slug_witness :
  let db := mkDB [Department.mk "d1" "Math" "math" 1%N (Some 1%N)]
              [] [] [] [] [] [] [] [] [] in
  (2 ≤ JS.length "arts" ≤ 100)%N
  ∧ ("art" ∉ department_slugs db)
  ∧ @departments_PUT JS.ascii_runtime "art" 5%N 6%N
      (Json (CreateDepartmentBody.mk (Str "arts"))) db
    = (mkResponse 200 JsonData, db).
Proof.
  intros db.
  assert (H1 : (2 ≤ JS.length "arts" ≤ 100)%N) by (vm_compute; split; discriminate).
  assert (H2 : "art" ∉ department_slugs db)
    by (apply (bool_decide_unpack _); vm_compute; exact I).
  repeat (split; [assumption|]).
  exact (@departments_PUT_unknown_slug JS.ascii_runtime "art" 5%N 6%N "arts" db H1 H2).
Defined.

Lemma findFirst_department_by_slug_update
    (set : Department.t → Department.t) (slug : string) (db : DB) :
  (∀ d, Department.slug (set d) = Department.slug d) →
  findFirst_department_by_slug slug (update_departments_by_slug set slug db)
  = set <$> findFirst_department_by_slug slug db.
Proof.
  intros Hset. unfold findFirst_department_by_slug, update_departments_by_slug,
    with_departmentsTable. cbn [departmentsTable].
  induction (departmentsTable db) as [|d ds IH]; [done|].
  rewrite fmap_cons. destruct (decide (Department.slug d = slug)) as [Hd|Hd].
  - rewrite !filter_cons_True by (by rewrite ?Hset). done.
  - rewrite !filter_cons_False by done. exact IH.
Qed.

(** X8: after [PUT /:slug] with a valid name, [GET /:slug] with the same
    slug finds what it found before, with the name replaced by the input
    with its first character in upper case (as the runtime converts it, the
    rest unchanged) and both timestamps by the readings of the clock; id,
    slug, members and courses are as before, and a slug that was not found
    before is still not found. *)
Theorem update_then_fetch `{JS.Runtime} (usersTable : list User.t) (slug : string)
    (t1 t2 : Timestamp) (c : ascii) (rest : string) (db : DB) :
  (2 ≤ JS.length (String c rest) ≤ 100)%N →
  departments_GET_slug usersTable slug
    (departments_PUT slug t1 t2
       (Json (CreateDepartmentBody.mk (Str (String c rest)))) db).2
  = (λ old,
       DepartmentWithRelations.mk
         (DepartmentWithRelations.id old)
         (JS.toUpperCase (String c EmptyString) +:+ rest)
         (DepartmentWithRelations.slug old) t1 (Some t2)
         (DepartmentWithRelations.members old)
         (DepartmentWithRelations.courses old))
      <$> departments_GET_slug usersTable slug db.
Proof.
  intros Hs. unfold departments_PUT.
  rewrite createDepartmentSchema_string_ok by done. cbn [snd].
  unfold departments_GET_slug.
  rewrite findFirst_department_by_slug_update by done.
  by destruct (findFirst_department_by_slug slug db) as [d|].
Qed.

Lemma update_then_fetch_witness :
  let db := mkDB [Department.mk "d1" "Math" "math" 1%N (Some 1%N)]
              [Course.mk "c1" "d1" (Some "Algebra") "algebra" None 3%N (Some 3%N)]
              [] [] [] [] [] [] [] [UserToDepartment.mk "u1" "d1" LEADER] in
  (2 ≤ JS.length "applied math" ≤ 100)%N
  ∧ departments_GET_slug [] "math"
      (@departments_PUT JS.ascii_runtime "math" 5%N 6%N
         (Json (CreateDepartmentBody.mk (Str "applied math"))) db).2
    = Some (DepartmentWithRelations.mk "d1" "Applied math" "math" 5%N (Some 6%N)
              [DepartmentMember.mk "u1" "d1" LEADER None]
              [DepartmentCourse.mk "c1" (Some "Algebra") "algebra" 3%N]).
Proof.
  intros db.
  assert (H1 : (2 ≤ JS.length "applied math" ≤ 100)%N)
    by (vm_compute; split; discriminate).
  split; [exact H1|].
  rewrite (@update_then_fetch JS.ascii_runtime [] "math" 5%N 6%N
             "a"%char "pplied math" db H1).
  vm_compute. reflexivity.
Defined.

(** [createDepartmentSchema] accepts exactly the strings of 2 to 100
    characters. *)
Lemma createDepartmentSchema_Success (body : CreateDepartmentBody.t) (s : string) :
  createDepartmentSchema body = Success s ↔
  CreateDepartmentBody.name body = Str s ∧ (2 ≤ JS.length s ≤ 100)%N.
Proof.
  split.
  - unfold createDepartmentSchema, zod_string.
    destruct (CreateDepartmentBody.name body) as [| | |s']; [done..|].
    destruct (N.ltb_spec (JS.length s') 2); [done|].
    destruct (N.ltb_spec 100 (JS.length s')); [done|].
    simpl. intros [= <-]. split; [done|lia].
  - intros [Hname Hlen]. destruct body as [name]. simpl in Hname. subst name.
    by apply createDepartmentSchema_string_ok.
Qed.

(** X9: a body whose [name] is not a string of 2 to 100 characters is
    answered by [PUT /:slug] with status 400 and at least one issue; no
    department is changed. *)
Theorem departments_PUT_invalid_name `{JS.Runtime} (slug : string) (t1 t2 : Timestamp)
    (body : CreateDepartmentBody.t) (db : DB) :
  (∀ s, CreateDepartmentBody.name body = Str s → (2 ≤ JS.length s ≤ 100)%N → False) →
  ∃ issues,
    issues ≠ []
    ∧ departments_PUT slug t1 t2 (Json body) db
      = (mkResponse 400 (JsonError issues), db).
Proof.
  intros Hbad. unfold departments_PUT.
  destruct (createDepartmentSchema body) as [s|issues] eqn:Hschema.
  - apply createDepartmentSchema_Success in Hschema as [Hname Hlen].
    by destruct (Hbad s).
  - exists issues. split; [|done]. intros ->.
    unfold createDepartmentSchema in Hschema.
    by destruct (zod_string _ _ _ _ _).
Qed.

Lemma departments_PUT_invalid_name_witness :
  let body := CreateDepartmentBody.mk Undefined in
  let db := mkDB [Department.mk "d1" "Math" "math" 1%N (Some 1%N)]
              [] [] [] [] [] [] [] [] [] in
  (∀ s, CreateDepartmentBody.name body = Str s → (2 ≤ JS.length s ≤ 100)%N → False)
  ∧ ∃ issues,
      issues ≠ []
      ∧ @departments_PUT JS.ascii_runtime "math" 5%N 6%N (Json body) db
        = (mkResponse 400 (JsonError issues), db).
Proof.
  intros body db.
  assert (Hbad : ∀ s, CreateDepartmentBody.name body = Str s →
                      (2 ≤ JS.length s ≤ 100)%N → False)
    by (intros s [=]).
  split; [exact Hbad|].
  exact (@departments_PUT_invalid_name JS.ascii_runtime "math" 5%N 6%N body db Hbad).
Defined.

(** ** Delete, then fetch *)

Lemma NoDup_fmap_eq {A B} (f : A → B) (l : list A) (x y : A) :
  NoDup (f <$> l) → x ∈ l → y ∈ l → f x = f y → x = y.
Proof.
  induction l as [|a l IH]; [by intros _ ?%elem_of_nil|].
  rewrite fmap_cons, NoDup_cons, !elem_of_cons.
  intros [Ha Hnd] [->|Hx] [->|Hy] Heq; auto.
  - destruct Ha. rewrite Heq. by apply list_elem_of_fmap_2.
  - destruct Ha. rewrite <- Heq. by apply list_elem_of_fmap_2.
Qed.

Lemma findFirst_department_by_slug_Some (slug : string) (db : DB) (d : Department.t) :
  findFirst_department_by_slug slug db = Some d →
  d ∈ departmentsTable db ∧ Department.slug d = slug.
Proof.
  unfold findFirst_department_by_slug. intros Hhead.
  apply head_Some_elem_of in Hhead. by apply list_elem_of_filter in Hhead as [? ?].
Qed.

(** X10: when the slugs are pairwise different, a department that
    [GET /:slug] would find is not found any more after a [PATCH /] that
    lists its id. *)
Theorem delete_then_fetch (usersTable : list User.t) (ids : list string)
    (slug : string) (db : DB) (d : Department.t) :
  NoDup (department_slugs db) →
  findFirst_department_by_slug slug db = Some d →
  Department.id d ∈ ids →
  departments_GET_slug usersTable slug
    (departments_PATCH (Json (DeleteDepartmentsBody.mk (Some (Str <$> ids)))) db).2
  = None.
Proof.
  intros Hnd Hfind Hlisted. rewrite departments_PATCH_strings. cbn [snd].
  apply findFirst_department_by_slug_Some in Hfind as [Hd Hslug].
  unfold departments_GET_slug.
  rewrite (proj2 (findFirst_department_by_slug_None slug _)); [done|].
  unfold department_slugs. rewrite delete_departments_departmentsTable.
  intros (d' & Hslug' & [Hkept Hd']%list_elem_of_filter)%list_elem_of_fmap.
  apply Hkept. rewrite (NoDup_fmap_eq Department.slug _ d' d Hnd Hd' Hd); [done|].
  congruence.
Qed.

Lemma delete_then_fetch_witness :
  let db :=
    mkDB [Department.mk "d1" "Math" "math" 1%N (Some 1%N);
          Department.mk "d2" "Art" "art" 2%N (Some 2%N)]
         [Course.mk "c1" "d1" (Some "Algebra") "algebra" None 3%N (Some 3%N)]
         [] [] [] [] [] [] []
         [UserToDepartment.mk "u1" "d1" LEADER] in
  let d := Department.mk "d1" "Math" "math" 1%N (Some 1%N) in
  NoDup (department_slugs db)
  ∧ findFirst_department_by_slug "math" db = Some d
  ∧ Department.id d ∈ ["d1"]
  ∧ departments_GET_slug [] "math"
      (departments_PATCH (Json (DeleteDepartmentsBody.mk (Some (Str <$> ["d1"])))) db).2
    = None.
Proof.
  intros db d.
  assert (H1 : NoDup (department_slugs db))
    by (apply (bool_decide_unpack _); vm_compute; exact I).
  assert (H2 : findFirst_department_by_slug "math" db = Some d) by reflexivity.
  assert (H3 : Department.id d ∈ ["d1"])
    by (apply (bool_decide_unpack _); vm_compute; exact I).
  repeat (split; [assumption|]).
  exact (delete_then_fetch [] ["d1"] "math" db d H1 H2 H3).
Defined.

(** ** The constraints of the schema *)

Lemma update_departments_by_slug_ids
    (set : Department.t → Department.t) (slug : string) (db : DB) :
  (∀ d, Department.id (set d) = Department.id d) →
  Department.id <$> departmentsTable (update_departments_by_slug set slug db)
  = Department.id <$> departmentsTable db.
Proof.
  intros Hset. unfold update_departments_by_slug, with_departmentsTable.
  cbn [departmentsTable]. rewrite <- list_fmap_compose.
  apply list_fmap_ext. intros i d _. cbn. by case_decide.
Qed.

Lemma update_departments_by_slug_slugs
    (set : Department.t → Department.t) (slug : string) (db : DB) :
  (∀ d, Department.slug (set d) = Department.slug d) →
  department_slugs (update_departments_by_slug set slug db) = department_slugs db.
Proof.
  intros Hset. unfold department_slugs, update_departments_by_slug,
    with_departmentsTable.
  cbn [departmentsTable]. rewrite <- list_fmap_compose.
  apply list_fmap_ext. intros i d _. cbn. by case_decide.
Qed.

(** The references look at the ids of the departments only. *)
Lemma foreign_keys_departments (db : DB) (ds : list Department.t) :
  (∀ i, i ∈ Department.id <$> departmentsTable db → i ∈ Department.id <$> ds) →
  foreign_keys_intact db →
  foreign_keys_intact (with_departmentsTable db ds).
Proof.
  intros Hids [[Hc Hf Hr Hm Hs Ha Hl He] Hld Hmd]. split; [split|..]; simpl; auto.
Qed.

(** Memberships that refer to stored departments can replace the stored
    ones. *)
Lemma foreign_keys_memberships (db : DB) (ms : list UserToDepartment.t) :
  (∀ m, m ∈ ms →
        UserToDepartment.departmentId m ∈ Department.id <$> departmentsTable db) →
  foreign_keys_intact db →
  foreign_keys_intact (with_userToDepartment db ms).
Proof. intros Hms [[Hc Hf Hr Hm Hs Ha Hl He] Hld Hmd]. by split; [split|..]. Qed.

Lemma NoDup_fmap_filter {A B} (f : A → B) (P : A → Prop) `{∀ x, Decision (P x)}
    (l : list A) :
  NoDup (f <$> l) → NoDup (f <$> filter P l).
Proof.
  induction l as [|a l IH]; [done|].
  rewrite fmap_cons, NoDup_cons. intros [Ha Hnd].
  rewrite filter_cons. case_decide; [|by apply IH].
  rewrite fmap_cons, NoDup_cons. split; [|by apply IH].
  intros (y & Hy & [_ Hin]%list_elem_of_filter)%list_elem_of_fmap.
  apply Ha. rewrite Hy. by apply list_elem_of_fmap_2.
Qed.

(** X11: the handlers that write keep the constraints of the schema.
    From a state in which the ids and the slugs of the departments are
    pairwise different and every reference to a department or a course
    points to a live row (the [departmentId] of the course links and of the
    memberships included), [POST /], [PUT /:slug], [PATCH /],
    [POST /members] and [PATCH /members] lead, whatever the request, to a
    state of which the same holds, given that the storage accepts a
    membership only for a stored department. *)
Theorem handlers_keep_constraints `{Utils} `{JS.Runtime} `{Schema} (db : DB) :
  (∀ db row, userToDepartment_accepts db row →
     UserToDepartment.departmentId row ∈ Department.id <$> departmentsTable db) →
  NoDup (Department.id <$> departmentsTable db) →
  NoDup (department_slugs db) →
  foreign_keys_intact db →
  let kept (db' : DB) :=
    NoDup (Department.id <$> departmentsTable db')
    ∧ NoDup (department_slugs db')
    ∧ foreign_keys_intact db' in
  (∀ fuel uuid t1 t2 req response db',
     departments_POST fuel uuid t1 t2 req db = Some (response, db') → kept db')
  ∧ (∀ slug t1 t2 req, kept (departments_PUT slug t1 t2 req db).2)
  ∧ (∀ req, kept (departments_PATCH req db).2)
  ∧ (∀ req, kept (departments_POST_members req db).2)
  ∧ (∀ req, kept (departments_PATCH_members req db).2).
Proof.
  intros Haccepts Hid Hslug Hfk kept.
  assert (Hkept : kept db) by done.
  unfold kept in *. clear kept.
  split; [|split; [|split; [|split]]].
  - intros fuel uuid t1 t2 req response db' Hrun.
    split; [|split; [by eapply departments_POST_unique_slugs|]];
      revert Hrun; unfold departments_POST;
      (destruct req as [|body]; [by intros [= _ <-]|]);
      (destruct (createDepartmentSchema body) as [s|issues]; [|by intros [= _ <-]]);
      (destruct (departments_POST_loop _ _ _ _ _) as [[slug counter]|]; [|done]);
      unfold insert_department; cbn [Department.id Department.slug];
      repeat case_decide; intros [= _ <-]; try done.
    + unfold with_departmentsTable. cbn [departmentsTable].
      rewrite fmap_app. apply NoDup_app. split; [done|].
      split; [|apply NoDup_singleton].
      by intros x Hx ->%list_elem_of_singleton.
    + apply foreign_keys_departments; [|done].
      intros i Hi. rewrite fmap_app. apply elem_of_app. by left.
  - intros slug t1 t2 [|body]; [done|]. unfold departments_PUT.
    destruct (createDepartmentSchema body) as [s|issues]; [|done]. cbn [snd].
    split; [by rewrite update_departments_by_slug_ids|].
    split; [by rewrite update_departments_by_slug_slugs|].
    apply foreign_keys_departments; [|done].
    intros i.
    pose proof (update_departments_by_slug_ids
                  (λ d, Department.mk (Department.id d) (capitalizeFirstLetter s)
                          (Department.slug d) t1 (Some t2)) slug db
                  (λ _, eq_refl)) as Hids.
    unfold update_departments_by_slug, with_departmentsTable in Hids.
    cbn [departmentsTable] in Hids. by rewrite Hids.
  - intros [|body]; [done|]. unfold departments_PATCH.
    destruct (deleteDepartmentsSchema body) as [ids|issues]; [|done]. cbn [snd].
    split; [|split; [|by apply delete_departments_foreign_keys]].
    + rewrite delete_departments_departmentsTable. by apply NoDup_fmap_filter.
    + unfold department_slugs. rewrite delete_departments_departmentsTable.
      by apply NoDup_fmap_filter.
  - intros [|body]; [done|]. unfold departments_POST_members.
    destruct (assignUserToDepartmentSchema body) as [row|issues]; [|done].
    unfold insert_userToDepartment.
    destruct (userToDepartment_accepts db row) eqn:Hrow; [|done]. cbn [snd].
    split; [done|]. split; [done|]. apply foreign_keys_memberships; [|done].
    intros m [Hm| ->%list_elem_of_singleton]%elem_of_app.
    + by apply (fk_userToDepartment_department _ Hfk).
    + apply Haccepts. by rewrite Hrow.
  - intros [|body]; [done|]. unfold departments_PATCH_members.
    destruct (unassignUsersToDeprtmentSchema body) as [pairs|issues]; [|done].
    cbn [snd]. rewrite delete_pairs_spec.
    split; [done|]. split; [done|]. apply foreign_keys_memberships; [|done].
    intros m [_ Hm]%list_elem_of_filter.
    by apply (fk_userToDepartment_department _ Hfk).
Qed.

Lemma handlers_keep_constraints_witness :
  let db :=
    mkDB [Department.mk "d1" "Math" "math" 1%N (Some 1%N);
          Department.mk "d2" "Art" "art" 2%N (Some 2%N)]
         [Course.mk "c1" "d1" (Some "Algebra") "algebra" None 3%N (Some 3%N)]
         [Field.mk "f1" "c1" "midterm"] [] [Mark.mk "m1" "f1" "u9" 1250%Z]
         [] [] [CourseToAcademy.mk "c1" "d2"] []
         [UserToDepartment.mk "u1" "d1" LEADER] in
  let kept (db' : DB) :=
    NoDup (Department.id <$> departmentsTable db')
    ∧ NoDup (department_slugs db')
    ∧ foreign_keys_intact db' in
  (∀ db row, @userToDepartment_accepts referencing_schema db row →
     UserToDepartment.departmentId row ∈ Department.id <$> departmentsTable db)
  ∧ kept db
  ∧ (∀ fuel uuid t1 t2 req response db',
       @departments_POST spec_utils JS.ascii_runtime fuel uuid t1 t2 req db
       = Some (response, db') →
       kept db')
  ∧ (∀ slug t1 t2 req, kept (@departments_PUT JS.ascii_runtime slug t1 t2 req db).2)
  ∧ (∀ req, kept (departments_PATCH req db).2)
  ∧ (∀ req, kept (@departments_POST_members referencing_schema req db).2)
  ∧ (∀ req, kept (departments_PATCH_members req db).2).
Proof.
  intros db kept.
  assert (H0 : ∀ db row, @userToDepartment_accepts referencing_schema db row →
                 UserToDepartment.departmentId row
                 ∈ Department.id <$> departmentsTable db)
    by (intros db0 row Hrow; exact (bool_decide_unpack _ Hrow)).
  assert (H1 : NoDup (Department.id <$> departmentsTable db))
    by (apply (bool_decide_unpack _); vm_compute; exact I).
  assert (H2 : NoDup (department_slugs db))
    by (apply (bool_decide_unpack _); vm_compute; exact I).
  assert (H3 : foreign_keys_intact db) by check_foreign_keys.
  split; [exact H0|]. split; [exact (conj H1 (conj H2 H3))|].
  exact (@handlers_keep_constraints spec_utils JS.ascii_runtime referencing_schema
           db H0 H1 H2 H3).
Defined.

(** ** Listing the departments *)

Lemma remove_dups_NoDup {A} `{EqDecision A} (l : list A) :
  NoDup l → remove_dups l = l.
Proof.
  induction 1 as [|x l Hx _ IH]; [done|].
  by rewrite remove_dups_cons_not_elem, IH.
Qed.

Lemma omap_fmap_Some {A K B} (f : K → option B) (key : A → K) (g : A → B)
    (l : list A) :
  (∀ x, x ∈ l → f (key x) = Some (g x)) → omap f (key <$> l) = g <$> l.
Proof.
  induction l as [|x l IH]; intros Hf; [done|].
  csimpl. rewrite (Hf x) by apply list_elem_of_here.
  rewrite IH; [done|]. intros y Hy. apply Hf. by apply list_elem_of_further.
Qed.

Lemma filter_key_NoDup {A K} `{EqDecision K} (key : A → K) (l : list A) (x : A) :
  NoDup (key <$> l) → x ∈ l → filter (λ y, key y = key x) l = [x].
Proof.
  induction l as [|a l IH]; [by intros _ ?%elem_of_nil|].
  rewrite fmap_cons, NoDup_cons, elem_of_cons. intros [Ha Hnd] [->|Hx].
  - rewrite filter_cons_True by done. f_equal.
    apply filter_none, Forall_forall. intros y Hy Heq. apply Ha.
    rewrite <- Heq. by apply list_elem_of_fmap_2.
  - rewrite filter_cons_False; [by apply IH|].
    intros Heq. apply Ha. rewrite Heq. by apply list_elem_of_fmap_2.
Qed.

Lemma leftJoin_nil_r {A B} (on : A → B → bool) (l : list A) :
  leftJoin on l [] = (λ a, (a, None)) <$> l.
Proof.
  induction l as [|a l IH]; [done|]. by rewrite leftJoin_cons, IH.
Qed.

(** The distinct courses among the joined rows of one department. *)
Lemma count_distinct_courses_row
    (on : Department.t * option Course.t → UserToDepartment.t → bool)
    (d : Department.t) (courses : list Course.t) (members : list UserToDepartment.t) :
  count_distinct_courses
    (leftJoin on
       (leftJoin_row (λ d c, bool_decide (Department.id d = Course.departmentId c))
          d courses)
       members)
  = length (remove_dups
              (Course.id
                 <$> filter (λ c, Course.departmentId c = Department.id d) courses)).
Proof.
  rewrite (count_distinct_courses_leftJoin on _ members []), leftJoin_nil_r.
  unfold count_distinct_courses. do 2 f_equal.
  assert (Hfilter :
    filter (λ c, bool_decide (Department.id d = Course.departmentId c)) courses
    = filter (λ c, Course.departmentId c = Department.id d) courses).
  { apply list_filter_iff. intros c. rewrite bool_decide_spec. split; congruence. }
  unfold leftJoin_row. rewrite Hfilter. clear Hfilter.
  destruct (filter _ courses) as [|c cs]; [reflexivity|].
  generalize (c :: cs). intros l. induction l as [|c' l IH]; [reflexivity|].
  rewrite !fmap_cons. csimpl. by rewrite IH.
Qed.

(** With the primary keys in force, the groups of [GET /] are the
    departments, one by one; a storage that keeps the order of the table
    returns them in that order. *)
Lemma departments_GET_items (db : DB) :
  NoDup (Department.id <$> departmentsTable db) →
  NoDup (Course.id <$> coursesTable db) →
  @departments_GET table_order db
  = (λ d, DepartmentListItem.mk
            (Department.id d) (Department.name d) (Department.slug d)
            (Department.createdAt d) (Department.updatedAt d)
            (count_members LEADER (Department.id d) db)
            (count_members LECTURER (Department.id d) db)
            (length (filter (λ c, Course.departmentId c = Department.id d)
                       (coursesTable db))))
      <$> departmentsTable db.
Proof.
  intros Hid Hcourses. unfold departments_GET. cbn [group_order table_order].
  rewrite departments_GET_ids, (remove_dups_NoDup _ Hid).
  apply omap_fmap_Some. intros d Hd.
  rewrite departments_GET_group, (filter_key_NoDup Department.id _ d Hid Hd).
  rewrite leftJoin_cons. change (leftJoin _ [] (coursesTable db)) with
    (@nil (Department.t * option Course.t)). rewrite app_nil_r.
  set (on := λ (dc : Department.t * option Course.t) (m : UserToDepartment.t),
               bool_decide (Department.id dc.1 = UserToDepartment.departmentId m)).
  pose proof (count_distinct_courses_row on d (coursesTable db)
                (userToDepartment db)) as Hcount.
  pose proof (leftJoin_head on
                (leftJoin_row (λ d c, bool_decide (Department.id d = Course.departmentId c))
                   d (coursesTable db)) (userToDepartment db)) as Hhead.
  destruct (leftJoin_row_head
              (λ d c, bool_decide (Department.id d = Course.departmentId c))
              d (coursesTable db)) as (oc & rest & Hrow).
  rewrite Hrow in Hhead at 2. cbn [head] in Hhead.
  destruct (leftJoin on _ (userToDepartment db)) as [|[[d0 oc0] om0] g]; [done|].
  injection Hhead as ->. cbn [departments_GET_item]. do 2 f_equal.
  rewrite Hcount, remove_dups_NoDup, length_fmap; [done|].
  by apply NoDup_fmap_filter.
Qed.

(** X12: with the primary keys in force, [GET /] reports exactly one item
    per department, in the order the storage chooses (the query has no
    [orderBy]): the columns of the department, the number of its leader
    rows, the number of its lecturer rows, and the number of its courses;
    the two left joins do not multiply the counts. *)
Theorem departments_GET_one_item_per_department `{Engine} (db : DB) :
  NoDup (Department.id <$> departmentsTable db) →
  NoDup (Course.id <$> coursesTable db) →
  departments_GET db
  ≡ₚ (λ d, DepartmentListItem.mk
            (Department.id d) (Department.name d) (Department.slug d)
            (Department.createdAt d) (Department.updatedAt d)
            (count_members LEADER (Department.id d) db)
            (count_members LECTURER (Department.id d) db)
            (length (filter (λ c, Course.departmentId c = Department.id d)
                       (coursesTable db))))
      <$> departmentsTable db.
Proof.
  intros Hid Hcourses.
  rewrite departments_GET_Permutation. by rewrite departments_GET_items.
Qed.

Lemma departments_GET_one_item_per_department_witness :
  let db :=
    mkDB [Department.mk "d1" "Math" "math" 1%N (Some 1%N);
          Department.mk "d2" "Art" "art" 2%N (Some 2%N)]
         [Course.mk "c1" "d1" (Some "Algebra") "algebra" None 3%N (Some 3%N);
          Course.mk "c2" "d1" (Some "Analysis") "analysis" None 4%N (Some 4%N)]
         [] [] [] [] [] [] []
         [UserToDepartment.mk "u1" "d1" LEADER;
          UserToDepartment.mk "u2" "d1" LECTURER;
          UserToDepartment.mk "u3" "d1" LEADER] in
  NoDup (Department.id <$> departmentsTable db)
  ∧ NoDup (Course.id <$> coursesTable db)
  ∧ @departments_GET reverse_order db
    = [DepartmentListItem.mk "d2" "Art" "art" 2%N (Some 2%N) 0 0 0;
       DepartmentListItem.mk "d1" "Math" "math" 1%N (Some 1%N) 2 1 2]
  ∧ @departments_GET reverse_order db
    ≡ₚ [DepartmentListItem.mk "d1" "Math" "math" 1%N (Some 1%N) 2 1 2;
        DepartmentListItem.mk "d2" "Art" "art" 2%N (Some 2%N) 0 0 0].
Proof.
  intros db.
  assert (H1 : NoDup (Department.id <$> departmentsTable db))
    by (apply (bool_decide_unpack _); vm_compute; exact I).
  assert (H2 : NoDup (Course.id <$> coursesTable db))
    by (apply (bool_decide_unpack _); vm_compute; exact I).
  repeat (split; [assumption|]). split; [vm_compute; reflexivity|].
  exact (@departments_GET_one_item_per_department reverse_order db H1 H2).
Defined.

(** Under referential integrity every course is counted with exactly one
    department. *)
Lemma courses_by_department (ds : list Department.t) :
  ∀ cs : list Course.t,
    NoDup (Department.id <$> ds) →
    (∀ c, c ∈ cs → Course.departmentId c ∈ Department.id <$> ds) →
    foldr Nat.add 0
      ((λ d, length (filter (λ c, Course.departmentId c = Department.id d) cs))
         <$> ds)
    = length cs.
Proof.
  induction ds as [|d ds IH]; intros cs Hid Href.
  - destruct cs as [|c cs]; [done|].
    specialize (Href c (list_elem_of_here _ _)). by apply elem_of_nil in Href.
  - rewrite fmap_cons in Hid. apply NoDup_cons in Hid as [Hd Hid].
    rewrite fmap_cons. cbn [foldr].
    rewrite <- (Permutation_length
                  (filter_app_complement
                     (λ c, Course.departmentId c = Department.id d) cs)).
    rewrite length_app. f_equal.
    rewrite <- (IH (filter (λ c, ¬ Course.departmentId c = Department.id d) cs) Hid).
    + f_equal. apply list_fmap_ext. intros i d' Hd'. f_equal.
      rewrite list_filter_filter. apply list_filter_iff. intros c.
      split; [|tauto]. intros Heq. split; [done|]. intros Heq'. apply Hd.
      rewrite <- Heq', Heq. apply list_elem_of_fmap_2. by eapply list_elem_of_lookup_2.
    + intros c [Hne Hc]%list_elem_of_filter. specialize (Href c Hc).
      rewrite fmap_cons in Href. apply elem_of_cons in Href as [?|?]; done.
Qed.

Lemma foldr_Permutation_add (l l' : list nat) :
  l ≡ₚ l' → foldr Nat.add 0 l = foldr Nat.add 0 l'.
Proof. induction 1; simpl; lia. Qed.

(** X13: on a state with the primary keys in force and the references
    intact, the [coursesCount] values reported by [GET /] add up to the
    number of stored courses: every course is counted once. *)
Theorem departments_GET_courses_total `{Engine} (db : DB) :
  NoDup (Department.id <$> departmentsTable db) →
  NoDup (Course.id <$> coursesTable db) →
  referential_integrity db →
  foldr Nat.add 0 (DepartmentListItem.coursesCount <$> departments_GET db)
  = length (coursesTable db).
Proof.
  intros Hid Hcourses Hfk.
  rewrite (foldr_Permutation_add _ _
             (fmap_Permutation _ _ _ (departments_GET_Permutation db))).
  rewrite departments_GET_items by done.
  rewrite <- list_fmap_compose.
  by apply courses_by_department, (fk_course_department _ Hfk).
Qed.

Lemma departments_GET_courses_total_witness :
  let db :=
    mkDB [Department.mk "d1" "Math" "math" 1%N (Some 1%N);
          Department.mk "d2" "Art" "art" 2%N (Some 2%N)]
         [Course.mk "c1" "d1" (Some "Algebra") "algebra" None 3%N (Some 3%N);
          Course.mk "c2" "d2" (Some "Drawing") "drawing" None 4%N (Some 4%N);
          Course.mk "c3" "d1" (Some "Analysis") "analysis" None 5%N (Some 5%N)]
         [] [] [] [] [] [] []
         [UserToDepartment.mk "u1" "d1" LEADER] in
  NoDup (Department.id <$> departmentsTable db)
  ∧ NoDup (Course.id <$> coursesTable db)
  ∧ referential_integrity db
  ∧ foldr Nat.add 0
      (DepartmentListItem.coursesCount <$> @departments_GET reverse_order db)
    = length (coursesTable db).
Proof.
  intros db.
  assert (H1 : NoDup (Department.id <$> departmentsTable db))
    by (apply (bool_decide_unpack _); vm_compute; exact I).
  assert (H2 : NoDup (Course.id <$> coursesTable db))
    by (apply (bool_decide_unpack _); vm_compute; exact I).
  assert (H3 : referential_integrity db) by check_referential_integrity.
  repeat (split; [assumption|]).
  exact (@departments_GET_courses_total reverse_order db H1 H2 H3).
Defined.

(** ** Memberships *)

Lemma zod_string_min1 (p : list string) (msg : string) (f : JsonField) :
  zod_string p 1 msg None f = [] → ∃ s, f = Str s ∧ s ≠ "".
Proof.
  destruct f as [| | |s]; [done..|]. intros Hok. exists s. split; [done|].
  intros ->. discriminate Hok.
Qed.

Lemma zod_role_Success (f : JsonField) (role : departmentUserRole) :
  zod_role f = Success role →
  f = Undefined ∧ role = LECTURER ∨ f = Str (departmentUserRole_value role).
Proof.
  destruct f as [| | |s]; simpl; [intros [= <-]; by left|done..|].
  repeat case_decide; intros [= <-]; right; by subst.
Qed.

(** What has passed [assignUserToDepartmentSchema]. *)
Lemma assignUserToDepartmentSchema_Success (body : AssignUserToDepartmentBody.t)
    (row : UserToDepartment.t) :
  assignUserToDepartmentSchema body = Success row →
  ∃ u d role,
    row = UserToDepartment.mk u d role
    ∧ AssignUserToDepartmentBody.userId body = Str u ∧ u ≠ ""
    ∧ AssignUserToDepartmentBody.departmentId body = Str d ∧ d ≠ ""
    ∧ (AssignUserToDepartmentBody.role body = Undefined ∧ role = LECTURER
       ∨ AssignUserToDepartmentBody.role body = Str (departmentUserRole_value role)).
Proof.
  unfold assignUserToDepartmentSchema.
  destruct (zod_role _) as [role|role_issues] eqn:Hrole; [|done].
  destruct (zod_string ["userId"] _ _ _ _) as [|i1 l1] eqn:Hu; [|done].
  destruct (zod_string ["departmentId"] _ _ _ _) as [|i2 l2] eqn:Hd; [|done].
  apply zod_string_min1 in Hu as (u & Hu & Hune).
  apply zod_string_min1 in Hd as (d & Hd & Hdne).
  apply zod_role_Success in Hrole.
  intros [= <-]. exists u, d, role. rewrite Hu, Hd. done.
Qed.

(** X14: when [POST /members] answers 200, the body held a non-empty
    [userId] and a non-empty [departmentId], and exactly one membership row
    has been appended: that pair with the role sent, or with the role
    lecturer when no role was sent.  The member count of that role in that
    department has grown by one, every other count is as before. *)
Theorem departments_POST_members_stored `{Schema}
    (body : AssignUserToDepartmentBody.t) (db db' : DB) (response : Response) :
  departments_POST_members (Json body) db = (response, db') →
  status response = 200%N →
  ∃ u d role,
    AssignUserToDepartmentBody.userId body = Str u ∧ u ≠ ""
    ∧ AssignUserToDepartmentBody.departmentId body = Str d ∧ d ≠ ""
    ∧ (AssignUserToDepartmentBody.role body = Undefined ∧ role = LECTURER
       ∨ AssignUserToDepartmentBody.role body = Str (departmentUserRole_value role))
    ∧ db' = with_userToDepartment db
              (userToDepartment db ++ [UserToDepartment.mk u d role])
    ∧ ∀ role' d',
        count_members role' d' db'
        = count_members role' d' db
          + (if decide (role = role' ∧ d = d') then 1 else 0).
Proof.
  intros Hrun Hok.
  destruct (departments_POST_members_200 _ _ _ _ Hrun Hok) as (row & Hrow & ->).
  apply assignUserToDepartmentSchema_Success in Hrow
    as (u & d & role & -> & Hu & Hune & Hd & Hdne & Hrole).
  exists u, d, role. repeat (split; [done|]).
  intros role' d'. apply count_members_insert.
Qed.

Lemma departments_POST_members_stored_witness :
  let db :=
    mkDB [Department.mk "d1" "Math" "math" 1%N (Some 1%N)]
         [] [] [] [] [] [] [] []
         [UserToDepartment.mk "u1" "d1" LEADER] in
  let body := AssignUserToDepartmentBody.mk (Str "u2") (Str "d1") Undefined in
  let db' :=
    with_userToDepartment db
      (userToDepartment db ++ [UserToDepartment.mk "u2" "d1" LECTURER]) in
  @departments_POST_members referencing_schema (Json body) db
  = (mkResponse 200 JsonData, db')
  ∧ status (mkResponse 200 JsonData) = 200%N
  ∧ ∃ u d role,
      AssignUserToDepartmentBody.userId body = Str u ∧ u ≠ ""
      ∧ AssignUserToDepartmentBody.departmentId body = Str d ∧ d ≠ ""
      ∧ (AssignUserToDepartmentBody.role body = Undefined ∧ role = LECTURER
         ∨ AssignUserToDepartmentBody.role body = Str (departmentUserRole_value role))
      ∧ db' = with_userToDepartment db
                (userToDepartment db ++ [UserToDepartment.mk u d role])
      ∧ ∀ role' d',
          count_members role' d' db'
          = count_members role' d' db
            + (if decide (role = role' ∧ d = d') then 1 else 0).
Proof.
  intros db body db'.
  assert (Hrun : @departments_POST_members referencing_schema (Json body) db
                 = (mkResponse 200 JsonData, db'))
    by (vm_compute; reflexivity).
  split; [exact Hrun|]. split; [reflexivity|].
  exact (@departments_POST_members_stored referencing_schema body db db'
           (mkResponse 200 JsonData) Hrun eq_refl).
Defined.

(** X15: a [POST /members] whose [userId] or [departmentId] is the empty
    string is answered with status 400, whatever the role; the issues name
    each empty property with the message of the schema, and no membership
    is stored. *)
Theorem departments_POST_members_nothing_selected `{Schema}
    (body : AssignUserToDepartmentBody.t) (db : DB) :
  AssignUserToDepartmentBody.userId body = Str ""
  ∨ AssignUserToDepartmentBody.departmentId body = Str "" →
  ∃ issues,
    departments_POST_members (Json body) db
    = (mkResponse 400 (JsonError issues), db)
    ∧ (AssignUserToDepartmentBody.userId body = Str "" →
       mkIssue ["userId"] too_small (Some "User Must be selected") ∈ issues)
    ∧ (AssignUserToDepartmentBody.departmentId body = Str "" →
       mkIssue ["departmentId"] too_small (Some "Department Must be selected")
         ∈ issues).
Proof.
  intros Hempty. unfold departments_POST_members, assignUserToDepartmentSchema.
  set (iu := zod_string ["userId"] _ _ _ _).
  set (id := zod_string ["departmentId"] _ _ _ _).
  assert (Hiu : AssignUserToDepartmentBody.userId body = Str "" →
                mkIssue ["userId"] too_small (Some "User Must be selected") ∈ iu).
  { intros Hu. unfold iu. rewrite Hu. apply list_elem_of_here. }
  assert (Hid : AssignUserToDepartmentBody.departmentId body = Str "" →
                mkIssue ["departmentId"] too_small
                  (Some "Department Must be selected") ∈ id).
  { intros Hd. unfold id. rewrite Hd. apply list_elem_of_here. }
  assert (Hne : iu ++ id ≠ []).
  { destruct Hempty as [Hu%Hiu|Hd%Hid]; intros [-> ->]%app_eq_nil;
      by eapply elem_of_nil. }
  destruct (zod_role _) as [role|role_issues].
  - destruct (iu ++ id) as [|i l] eqn:Happ; [done|]. rewrite <- Happ.
    eexists. split; [reflexivity|].
    split; intros Hx; apply elem_of_app; auto.
  - eexists. split; [reflexivity|].
    split; intros Hx; rewrite !elem_of_app; auto.
Qed.

Lemma departments_POST_members_nothing_selected_witness :
  let body := AssignUserToDepartmentBody.mk (Str "") (Str "d1") (Str "leader") in
  let db := mkDB [Department.mk "d1" "Math" "math" 1%N (Some 1%N)]
              [] [] [] [] [] [] [] [] [] in
  (AssignUserToDepartmentBody.userId body = Str ""
   ∨ AssignUserToDepartmentBody.departmentId body = Str "")
  ∧ ∃ issues,
      @departments_POST_members referencing_schema (Json body) db
      = (mkResponse 400 (JsonError issues), db)
      ∧ (AssignUserToDepartmentBody.userId body = Str "" →
         mkIssue ["userId"] too_small (Some "User Must be selected") ∈ issues)
      ∧ (AssignUserToDepartmentBody.departmentId body = Str "" →
         mkIssue ["departmentId"] too_small (Some "Department Must be selected")
           ∈ issues).
Proof.
  intros body db.
  assert (Hempty : AssignUserToDepartmentBody.userId body = Str ""
                   ∨ AssignUserToDepartmentBody.departmentId body = Str "")
    by (left; reflexivity).
  split; [exact Hempty|].
  exact (@departments_POST_members_nothing_selected referencing_schema body db Hempty).
Defined.

(** X16: adding a member and then removing the same (userId,
    departmentId) pair with [PATCH /members] leads back to the stored state
    before the two calls, when the pair was no member before. *)
Theorem add_then_remove_member `{Schema} (u d : string) (role : JsonField)
    (db db' : DB) (response : Response) :
  departments_POST_members
    (Json (AssignUserToDepartmentBody.mk (Str u) (Str d) role)) db
  = (response, db') →
  status response = 200%N →
  (∀ m, m ∈ userToDepartment db →
        ¬ (UserToDepartment.userId m = u ∧ UserToDepartment.departmentId m = d)) →
  departments_PATCH_members
    (Json (UnassignUsersBody.mk (Some [(Str u, Str d)]))) db'
  = (mkResponse 200 JsonData, db).
Proof.
  intros Hrun Hok Hnew.
  destruct (departments_POST_members_200 _ _ _ _ Hrun Hok) as (row & Hrow & ->).
  apply assignUserToDepartmentSchema_Success in Hrow
    as (u' & d' & r & -> & [= <-] & _ & [= <-] & _ & _).
  rewrite (departments_PATCH_members_filter [(u, d)]). f_equal.
  unfold with_userToDepartment. cbn [userToDepartment departmentsTable coursesTable
    fields lessonRostersTable marks sessionsTable attendanceTable
    coursesToAcademies studentsToLessonRosters].
  rewrite filter_app, filter_cons_False, filter_nil, app_nil_r.
  - rewrite filter_all; [by destruct db|].
    apply Forall_forall. intros m Hm [= Hmu Hmd]%list_elem_of_singleton.
    by apply (Hnew m Hm).
  - cbn. intros Hno. apply Hno, list_elem_of_here.
Qed.

Lemma add_then_remove_member_witness :
  let db :=
    mkDB [Department.mk "d1" "Math" "math" 1%N (Some 1%N)]
         [] [] [] [] [] [] [] []
         [UserToDepartment.mk "u1" "d1" LEADER] in
  let db' :=
    with_userToDepartment db
      (userToDepartment db ++ [UserToDepartment.mk "u2" "d1" LEADER]) in
  @departments_POST_members referencing_schema
    (Json (AssignUserToDepartmentBody.mk (Str "u2") (Str "d1") (Str "leader"))) db
  = (mkResponse 200 JsonData, db')
  ∧ status (mkResponse 200 JsonData) = 200%N
  ∧ (∀ m, m ∈ userToDepartment db →
          ¬ (UserToDepartment.userId m = "u2" ∧ UserToDepartment.departmentId m = "d1"))
  ∧ departments_PATCH_members
      (Json (UnassignUsersBody.mk (Some [(Str "u2", Str "d1")]))) db'
    = (mkResponse 200 JsonData, db).
Proof.
  intros db db'.
  assert (Hrun : @departments_POST_members referencing_schema
                   (Json (AssignUserToDepartmentBody.mk (Str "u2") (Str "d1")
                            (Str "leader"))) db
                 = (mkResponse 200 JsonData, db'))
    by (vm_compute; reflexivity).
  assert (Hnew : ∀ m, m ∈ userToDepartment db →
            ¬ (UserToDepartment.userId m = "u2"
               ∧ UserToDepartment.departmentId m = "d1")).
  { intros m ->%list_elem_of_singleton [[=] _]. }
  split; [exact Hrun|]. split; [reflexivity|]. split; [exact Hnew|].
  exact (@add_then_remove_member referencing_schema "u2" "d1" (Str "leader")
           db db' (mkResponse 200 JsonData) Hrun eq_refl Hnew).
Defined.

(** An array of pairs either holds strings only, or the element-wise check
    raises an issue. *)
Lemma zod_array_of_string_pairs (items : list (JsonField * JsonField)) :
  ∀ g : nat → list string,
    (∃ pairs : list (string * string), items = (λ '(u, d), (Str u, Str d)) <$> pairs)
    ∨ mjoin (imap (λ i '(u, d),
                zod_plain_string (g i ++ ["userId"]) u
                ++ zod_plain_string (g i ++ ["departmentId"]) d) items) ≠ [].
Proof.
  induction items as [|[u d] items IH]; intros g.
  - left. by exists [].
  - destruct u as [| | |u]; [right; simpl; discriminate..|].
    destruct d as [| | |d]; [right; simpl; discriminate..|].
    destruct (IH (g ∘ S)) as [[pairs ->]|Hissue].
    + left. by exists ((u, d) :: pairs).
    + right. exact Hissue.
Qed.

(** X17: a body whose [idObject] is not an array of objects with a string
    [userId] and a string [departmentId] is answered by [PATCH /members]
    with status 400 and at least one issue; no membership is removed. *)
Theorem departments_PATCH_members_invalid (body : UnassignUsersBody.t) (db : DB) :
  (∀ pairs : list (string * string),
     UnassignUsersBody.idObject body ≠ Some ((λ '(u, d), (Str u, Str d)) <$> pairs)) →
  ∃ issues,
    issues ≠ []
    ∧ departments_PATCH_members (Json body) db
      = (mkResponse 400 (JsonError issues), db).
Proof.
  intros Hbad. unfold departments_PATCH_members, unassignUsersToDeprtmentSchema.
  destruct (UnassignUsersBody.idObject body) as [items|] eqn:Hids;
    [|eexists; (split; [|reflexivity]); discriminate].
  destruct (zod_array_of_string_pairs items
              (λ i, ["idObject"; JS.Number_toString (N.of_nat i)]))
    as [[pairs ->]|Hissue].
  - by destruct (Hbad pairs).
  - destruct (mjoin _) as [|issue issues]; [done|].
    eexists; (split; [|reflexivity]); discriminate.
Qed.

Lemma departments_PATCH_members_invalid_witness :
  let body := UnassignUsersBody.mk (Some [(Str "u1", Undefined)]) in
  let db := mkDB [] [] [] [] [] [] [] [] []
              [UserToDepartment.mk "u1" "d1" LEADER] in
  (∀ pairs : list (string * string),
     UnassignUsersBody.idObject body ≠ Some ((λ '(u, d), (Str u, Str d)) <$> pairs))
  ∧ ∃ issues,
      issues ≠ []
      ∧ departments_PATCH_members (Json body) db
        = (mkResponse 400 (JsonError issues), db).
Proof.
  intros body db.
  assert (Hbad : ∀ pairs : list (string * string),
            UnassignUsersBody.idObject body
            ≠ Some ((λ '(u, d), (Str u, Str d)) <$> pairs)).
  { intros [|[u d] [|p pairs]]; simpl; intros [=]. }
  split; [exact Hbad|]. exact (departments_PATCH_members_invalid body db Hbad).
Defined.

(** ** The user seeder: what is stored *)

(** The rows the seeder asks to insert have no [role]: an insert of one row
    or more is rejected. *)
Lemma insert_users_rejected (ids : list string) (users : list NewUser.t)
    (table : list User.t) :
  ids ≠ [] → users ≠ [] → insert_users ids users table = None.
Proof.
  intros Hids Husers.
  destruct ids as [|id ids]; [done|]. destruct users as [|user users]; [done|].
  unfold insert_users. cbv zeta. apply decide_False.
  intros [Hrole _]. apply Forall_cons in Hrole as [[r Hr] _].
  discriminate Hr.
Qed.

(** X18: the user seeder stores no user.  Whatever the table held, it is
    emptied first; for a count of zero the run returns and logs the
    completion message; for every other count it ends in an error on its
    first batch (the column [role] of [usersTable] is not nullable and has
    no default, and the seeder supplies none; with no role to pick from,
    the batch is not even built), nothing is logged, and the table is left
    empty. *)
Theorem userSeeder_stores_nothing (fuel length : nat) (roleIds : list string)
    (faker : JS.Oracle FakerUser.t) (randomUUID : JS.Oracle string)
    (usersTable : list User.t) :
  0 < fuel →
  ∃ run,
    userSeeder fuel length roleIds faker randomUUID usersTable = Some run
    ∧ UserSeederRun.usersTable run = []
    ∧ UserSeederRun.threw run = bool_decide (0 < length)
    ∧ UserSeederRun.console run
      = if decide (0 < length) then []
        else ["Seeding complete: 0 users inserted in batches of 1000"].
Proof.
  intros Hfuel. destruct fuel as [|fuel]; [lia|].
  unfold userSeeder. cbn [userSeeder_loop JS.draws].
  destruct (decide (0 < length)) as [Hlt|Hlt].
  - rewrite (bool_decide_eq_true_2 _ Hlt).
    set (n := batchSize `min` (length - 0)).
    assert (Hn : ∃ n', n = S n').
    { exists (pred n). unfold n.
      destruct (Nat.min_spec batchSize (length - 0)) as [[? ->]|[? ->]];
        unfold batchSize; lia. }
    destruct Hn as [n' Hn]. rewrite Hn.
    destruct (mapM id _) as [users|] eqn:Hbuilt; [|by eexists].
    apply mapM_Some, Forall2_length in Hbuilt.
    rewrite length_imap, length_fmap, length_seq in Hbuilt.
    rewrite insert_users_rejected; [by eexists|done|].
    by destruct users.
  - rewrite (bool_decide_eq_false_2 _ Hlt). by eexists.
Qed.

Lemma userSeeder_stores_nothing_witness :
  let faker : JS.Oracle FakerUser.t :=
    λ k, FakerUser.mk "Ann Lee" "Ann.Lee7@example.com" 1700000000000%N
           "secret" k "avatar.png" in
  let randomUUID : JS.Oracle string :=
    λ k, "uuid-" +:+ JS.Number_toString (N.of_nat k) in
  let usersTable :=
    [User.mk "old" (NewUser.mk "Old" "old@x.com" 1%N "pw" "r1" "old.png")
       (Some "admin")] in
  0 < 4
  ∧ ∃ run,
      userSeeder 4 3 ["r1"; "r2"] faker randomUUID usersTable = Some run
      ∧ UserSeederRun.usersTable run = []
      ∧ UserSeederRun.threw run = bool_decide (0 < 3)
      ∧ UserSeederRun.console run
        = if decide (0 < 3) then []
          else ["Seeding complete: 0 users inserted in batches of 1000"].
Proof.
  intros faker randomUUID usersTable.
  assert (H1 : 0 < 4) by lia.
  split; [exact H1|].
  exact (userSeeder_stores_nothing 4 3 ["r1"; "r2"] faker randomUUID usersTable H1).
Defined.

(** ** The user seeder: whole batches *)






(** ** The course seeder: slugs and references *)

Lemma generateUniqueSlug_from_result `{Utils} (fuel : nat) :
  ∀ (attempts : nat) (existingSlugs : gset string) (w : World) (g : UniqueSlug.t),
    attempts ≤ maxAttempts →
    generateUniqueSlug_from fuel attempts existingSlugs w = Some g →
    UniqueSlug.slug g = slugify (UniqueSlug.name g)
    ∨ (∃ n, UniqueSlug.slug g
            = slugify (UniqueSlug.name g) +:+ "-" +:+ JS.Number_toString n)
    ∨ (∃ timestamp,
         UniqueSlug.slug g = "course-" +:+ JS.Number_toString timestamp
         ∧ UniqueSlug.name g = "Course " +:+ JS.Number_toString timestamp
         ∧ UniqueSlug.attempts g = maxAttempts).
Proof.
  induction fuel as [|fuel IH]; intros attempts existingSlugs w g Hle Hg; [done|].
  simpl in Hg. case_decide as Hlt.
  - case_decide; [injection Hg as <-; simpl; auto|].
    case_decide; [injection Hg as <-; simpl; eauto|].
    apply IH in Hg; [done|lia].
  - injection Hg as <-. simpl. right. right.
    eexists. split; [done|]. split; [done|]. lia.
Qed.

(** X20: what [generateUniqueSlug] returns: the set afterwards is the set
    before with the returned slug added, and the slug is the slug of the
    returned name, or that slug with a numeric suffix, or, after all 100
    attempts, the timestamp slug with the timestamp name. *)
Theorem generateUniqueSlug_result `{Utils} (fuel : nat)
    (existingSlugs : gset string) (w : World) (g : UniqueSlug.t) :
  generateUniqueSlug fuel existingSlugs w = Some g →
  UniqueSlug.existingSlugs g = {[UniqueSlug.slug g]} ∪ existingSlugs
  ∧ (UniqueSlug.slug g = slugify (UniqueSlug.name g)
     ∨ (∃ n, UniqueSlug.slug g
             = slugify (UniqueSlug.name g) +:+ "-" +:+ JS.Number_toString n)
     ∨ (∃ timestamp,
          UniqueSlug.slug g = "course-" +:+ JS.Number_toString timestamp
          ∧ UniqueSlug.name g = "Course " +:+ JS.Number_toString timestamp
          ∧ UniqueSlug.attempts g = maxAttempts)).
Proof.
  intros Hg. split; [by eapply generateUniqueSlug_from_adds|].
  eapply generateUniqueSlug_from_result; [|exact Hg]. unfold maxAttempts. lia.
Qed.

Lemma generateUniqueSlug_result_witness :
  let w := mkWorld (λ _, "Books") (λ _, "Lorem ipsum.")
             (λ _, mkRandom (λ n, 5 * n / 1000)%N) (λ _, 1700000000000%N)
             (λ _, "uuid") in
  let g := UniqueSlug.mk "books-5" "Books" {["books-5"; "books"]} 1
             (mkWorld (λ _, "Books") (λ _, "Lorem ipsum.")
                (λ _, mkRandom (λ n, 5 * n / 1000)%N) (λ _, 1700000000000%N)
                (λ _, "uuid")) in
  @generateUniqueSlug spec_utils 101 {["books"]} w = Some g
  ∧ UniqueSlug.existingSlugs g = {[UniqueSlug.slug g]} ∪ {["books"]}
  ∧ (UniqueSlug.slug g = @slugify spec_utils (UniqueSlug.name g)
     ∨ (∃ n, UniqueSlug.slug g
             = @slugify spec_utils (UniqueSlug.name g) +:+ "-" +:+ JS.Number_toString n)
     ∨ (∃ timestamp,
          UniqueSlug.slug g = "course-" +:+ JS.Number_toString timestamp
          ∧ UniqueSlug.name g = "Course " +:+ JS.Number_toString timestamp
          ∧ UniqueSlug.attempts g = maxAttempts)).
Proof.
  intros w g.
  assert (Hg : @generateUniqueSlug spec_utils 101 {["books"]} w = Some g).
  { unfold generateUniqueSlug. cbn [generateUniqueSlug_from].
    rewrite decide_True by (unfold maxAttempts; lia).
    change (next_commerce_department w) with ("Books", w).
    change (@slugify spec_utils "Books") with "books". cbv zeta iota beta.
    rewrite decide_False by set_solver.
    change (next_Math_random w) with (mkRandom (λ n, 5 * n / 1000)%N, w).
    cbv zeta iota beta.
    change ("books" +:+ "-" +:+ JS.Number_toString (floor_times (mkRandom (λ n, 5 * n / 1000)%N) 1000))
      with "books-5".
    rewrite decide_True by set_solver. reflexivity. }
  split; [exact Hg|].
  exact (@generateUniqueSlug_result spec_utils 101 {["books"]} w g Hg).
Defined.

(** The calls of [generateUniqueSlug] only move forward in the sequence of
    random numbers: what holds of every number to come still does. *)
Lemma generateUniqueSlug_from_Math_random `{Utils} (P : RandomNumber → Prop)
    (fuel : nat) :
  ∀ (attempts : nat) (existingSlugs : gset string) (w : World) (g : UniqueSlug.t),
    (∀ k, P (Math_random w k)) →
    generateUniqueSlug_from fuel attempts existingSlugs w = Some g →
    ∀ k, P (Math_random (UniqueSlug.world g) k).
Proof.
  induction fuel as [|fuel IH]; intros attempts existingSlugs w g HP Hg k; [done|].
  simpl in Hg. case_decide; [|injection Hg as <-; apply HP].
  case_decide; [injection Hg as <-; apply HP|].
  case_decide; [injection Hg as <-; apply HP|].
  apply (λ HP', IH _ _ _ _ HP' Hg). intros k'. apply HP.
Qed.

(** When every random number picks an index inside the list of departments,
    the loop builds [n] more courses, each for one of the departments. *)
Lemma coursesSeeder_loop_builds `{Utils} (fuel : nat) (departments : list string)
    (n : nat) :
  maxAttempts < fuel →
  ∀ (existingSlugs : gset string) (coursesData : list NewCourse.t) (w : World),
    (∀ k, (floor_times (Math_random w k) (N.of_nat (length departments))
           < N.of_nat (length departments))%N) →
    ∃ built w',
      coursesSeeder_loop fuel n departments existingSlugs coursesData w
      = Some (built, false, w')
      ∧ length built = length coursesData + n
      ∧ (Forall (λ c, NewCourse.departmentId c ∈ departments) coursesData →
         Forall (λ c, NewCourse.departmentId c ∈ departments) built).
Proof.
  intros Hfuel. induction n as [|n IH]; intros existingSlugs coursesData w Hrandom.
  - eexists _, _. split; [reflexivity|]. split; [lia|done].
  - cbn [coursesSeeder_loop].
    change (next_Math_random w)
      with (Math_random w 0,
            mkWorld (faker_commerce_department w) (faker_lorem_paragraph w)
              (λ k, Math_random w (S k)) (Date_now w) (crypto_randomUUID w)).
    cbv iota beta zeta.
    set (w1 := mkWorld _ _ _ _ _).
    destruct (generateUniqueSlug_from_returns maxAttempts fuel 0 existingSlugs w1)
      as (g & Hg & _); [done|lia|].
    unfold generateUniqueSlug. rewrite Hg.
    pose proof (Hrandom 0) as Hindex.
    destruct (lookup_lt_is_Some_2 departments
                (N.to_nat (floor_times (Math_random w 0)
                             (N.of_nat (length departments)))))
      as [department Hdepartment]; [lia|].
    rewrite Hdepartment.
    change (next_lorem_paragraph (UniqueSlug.world g))
      with (faker_lorem_paragraph (UniqueSlug.world g) 0,
            mkWorld (faker_commerce_department (UniqueSlug.world g))
              (λ k, faker_lorem_paragraph (UniqueSlug.world g) (S k))
              (Math_random (UniqueSlug.world g)) (Date_now (UniqueSlug.world g))
              (crypto_randomUUID (UniqueSlug.world g))).
    cbv iota beta zeta.
    edestruct IH as (built & w' & Hloop & Hlen & Hrefs); [|rewrite Hloop].
    + cbn [Math_random].
      apply (generateUniqueSlug_from_Math_random
               (λ x, (floor_times x (N.of_nat (length departments))
                      < N.of_nat (length departments))%N) fuel 0 existingSlugs
               w1 g (λ k, Hrandom (S k)) Hg).
    + eexists _, _. split; [reflexivity|]. rewrite length_app in Hlen. simpl in Hlen.
      split; [lia|]. intros Hdata. apply Hrefs, Forall_app. split; [done|].
      apply Forall_singleton. simpl. by eapply list_elem_of_lookup_2.
Qed.

(** Deleting every course empties every table below the courses. *)
Lemma delete_all_courses_empties (db : DB) :
  delete_all_courses db
  = mkDB (departmentsTable db) [] [] [] [] [] [] [] [] (userToDepartment db).
Proof.
  unfold delete_all_courses. cbv zeta. cbn [fmap list_fmap].
  rewrite (filter_in_nil Field.courseId), (filter_in_nil LessonRoster.courseId),
    (filter_in_nil CourseToAcademy.courseId).
  cbn [fmap list_fmap].
  rewrite (filter_in_nil Mark.fieldId), (filter_in_nil Session.lessonRosterId),
    (filter_in_nil StudentToLessonRoster.lessonRosterId).
  cbn [fmap list_fmap]. by rewrite (filter_in_nil Attendance.periodId).
Qed.

(** X21: a run of the course seeder on a state whose references are
    intact leaves the departments and the memberships as they were and the
    references intact.  When it ends in an error, no course is stored;
    when it returns, the stored courses are exactly the courses it built,
    in order, and their slugs and ids are pairwise different: no course
    from before the run is left. *)
Theorem coursesSeeder_leaves `{Utils} (fuel length : nat) (now : Timestamp)
    (w : World) (db : DB) (run : CoursesSeederRun.t) :
  referential_integrity db →
  coursesSeeder fuel length now w db = Some run →
  departmentsTable (CoursesSeederRun.db run) = departmentsTable db
  ∧ userToDepartment (CoursesSeederRun.db run) = userToDepartment db
  ∧ referential_integrity (CoursesSeederRun.db run)
  ∧ (if CoursesSeederRun.threw run
     then coursesTable (CoursesSeederRun.db run) = []
     else (λ c, (Course.name c, Course.slug c, Course.departmentId c,
                 Course.description c))
            <$> coursesTable (CoursesSeederRun.db run)
          = (λ c, (Some (NewCourse.name c), NewCourse.slug c,
                   NewCourse.departmentId c, Some (NewCourse.description c)))
              <$> CoursesSeederRun.coursesData run
          ∧ NoDup (Course.slug <$> coursesTable (CoursesSeederRun.db run))
          ∧ NoDup (Course.id <$> coursesTable (CoursesSeederRun.db run))).
Proof.
  intros _. unfold coursesSeeder. cbv zeta. rewrite delete_all_courses_empties.
  set (db0 := mkDB (departmentsTable db) [] [] [] [] [] [] [] []
                (userToDepartment db)).
  assert (Hfk : referential_integrity db0)
    by (split; simpl; by intros x Hx%elem_of_nil).
  case_decide as Hnone.
  { intros [= <-]. cbn. do 3 (split; [done|]). split; [done|]. split; constructor. }
  destruct (coursesSeeder_loop _ _ _ _ _ _) as [[[coursesData threw] w']|]; [|done].
  destruct threw; [by intros [= <-]|].
  change (next_randomUUIDs (List.length coursesData) w')
    with (crypto_randomUUID w' <$> seq 0 (List.length coursesData),
          mkWorld (faker_commerce_department w') (faker_lorem_paragraph w')
            (Math_random w') (Date_now w')
            (λ k, crypto_randomUUID w' (List.length coursesData + k))).
  cbv iota beta.
  set (ids := crypto_randomUUID w' <$> seq 0 (List.length coursesData)).
  assert (Hids : List.length ids = List.length coursesData)
    by (unfold ids; by rewrite length_fmap, length_seq).
  clearbody ids.
  unfold insert_courses. cbv zeta.
  change (coursesTable db0) with (@nil Course.t). rewrite app_nil_l.
  case_decide as Hok; [|by intros [= <-]].
  destruct Hok as (_ & Hid & Hslug & Hrefs).
  intros [= <-]. cbn [CoursesSeederRun.db CoursesSeederRun.threw
    CoursesSeederRun.coursesData].
  split; [done|]. split; [done|]. split.
  - apply (referential_integrity_Forall (with_coursesTable _ _)); simpl;
      try by constructor. exact Hrefs.
  - cbn [with_coursesTable coursesTable]. split; [|done].
    clear Hid Hslug Hrefs. revert ids Hids.
    induction coursesData as [|c cs IH]; intros [|i ids] Hids; try done.
    simpl. f_equal. apply IH. simpl in Hids. lia.
Qed.

Lemma coursesSeeder_leaves_witness :
  let w := mkWorld (λ k, if decide (k = 0) then "Books" else "Home & Garden")
             (λ _, "Lorem ipsum.")
             (λ _, mkRandom (λ n, 5 * n / 1000)%N) (λ _, 1700000000000%N)
             (λ k, "uuid-" +:+ JS.Number_toString (N.of_nat k)) in
  let db := mkDB [Department.mk "d1" "Science" "science" 1%N (Some 1%N)]
              [Course.mk "c0" "d1" (Some "Old") "old" None 1%N (Some 1%N)]
              [Field.mk "f1" "c0" "midterm"] [] [] [] [] [] []
              [UserToDepartment.mk "u1" "d1" LEADER] in
  let run :=
    CoursesSeederRun.mk
      [NewCourse.mk "Books" "books" "d1" "Lorem ipsum.";
       NewCourse.mk "Home & Garden" "home-garden" "d1" "Lorem ipsum."]
      (mkDB [Department.mk "d1" "Science" "science" 1%N (Some 1%N)]
         [Course.mk "uuid-0" "d1" (Some "Books") "books" (Some "Lorem ipsum.")
            9%N (Some 9%N);
          Course.mk "uuid-1" "d1" (Some "Home & Garden") "home-garden"
            (Some "Lorem ipsum.") 9%N (Some 9%N)]
         [] [] [] [] [] [] []
         [UserToDepartment.mk "u1" "d1" LEADER])
      ["2 new courses seeded!"] false in
  referential_integrity db
  ∧ @coursesSeeder spec_utils 101 2 9%N w db = Some run
  ∧ departmentsTable (CoursesSeederRun.db run) = departmentsTable db
  ∧ userToDepartment (CoursesSeederRun.db run) = userToDepartment db
  ∧ referential_integrity (CoursesSeederRun.db run)
  ∧ (if CoursesSeederRun.threw run
     then coursesTable (CoursesSeederRun.db run) = []
     else (λ c, (Course.name c, Course.slug c, Course.departmentId c,
                 Course.description c))
            <$> coursesTable (CoursesSeederRun.db run)
          = (λ c, (Some (NewCourse.name c), NewCourse.slug c,
                   NewCourse.departmentId c, Some (NewCourse.description c)))
              <$> CoursesSeederRun.coursesData run
          ∧ NoDup (Course.slug <$> coursesTable (CoursesSeederRun.db run))
          ∧ NoDup (Course.id <$> coursesTable (CoursesSeederRun.db run))).
Proof.
  intros w db run.
  assert (Hfk : referential_integrity db) by check_referential_integrity.
  assert (Hrun : @coursesSeeder spec_utils 101 2 9%N w db = Some run)
    by (vm_compute; reflexivity).
  split; [exact Hfk|]. split; [exact Hrun|].
  exact (@coursesSeeder_leaves spec_utils 101 2 9%N w db run Hfk Hrun).
Defined.

(** X22: when there is a department and every random number picks an
    index below the number of departments, the course seeder does not fail
    while building: it builds exactly [length] courses, each for a stored
    department, and if the insert is accepted, [length] courses are
    stored. *)
Theorem coursesSeeder_picks_departments `{Utils} (fuel length : nat)
    (now : Timestamp) (w : World) (db : DB) :
  departmentsTable db ≠ [] →
  (∀ k, (floor_times (Math_random w k)
           (N.of_nat (List.length (departmentsTable db)))
         < N.of_nat (List.length (departmentsTable db)))%N) →
  maxAttempts < fuel →
  ∃ run,
    coursesSeeder fuel length now w db = Some run
    ∧ List.length (CoursesSeederRun.coursesData run) = length
    ∧ Forall (λ c, NewCourse.departmentId c ∈ Department.id <$> departmentsTable db)
        (CoursesSeederRun.coursesData run)
    ∧ (CoursesSeederRun.threw run = false →
       List.length (coursesTable (CoursesSeederRun.db run)) = length).
Proof.
  intros Hsome Hrandom Hfuel. unfold coursesSeeder. cbv zeta.
  rewrite delete_all_courses_empties.
  set (db0 := mkDB (departmentsTable db) [] [] [] [] [] [] [] []
                (userToDepartment db)).
  change (departmentsTable db0) with (departmentsTable db).
  rewrite decide_False.
  2:{ rewrite length_fmap. by destruct (departmentsTable db). }
  destruct (coursesSeeder_loop_builds fuel (Department.id <$> departmentsTable db)
              length Hfuel ∅ [] w) as (built & w' & -> & Hlen & Hrefs).
  { intros k. rewrite length_fmap. apply Hrandom. }
  simpl in Hlen. specialize (Hrefs (Forall_nil_2 _)).
  change (next_randomUUIDs (List.length built) w')
    with (crypto_randomUUID w' <$> seq 0 (List.length built),
          mkWorld (faker_commerce_department w') (faker_lorem_paragraph w')
            (Math_random w') (Date_now w')
            (λ k, crypto_randomUUID w' (List.length built + k))).
  cbv iota beta.
  destruct (insert_courses _ _ _ _) as [db'|] eqn:Hinsert;
    (eexists; split; [reflexivity|]);
    cbn [CoursesSeederRun.coursesData CoursesSeederRun.threw CoursesSeederRun.db];
    (split; [done|]); (split; [done|]); [|done].
  intros _. revert Hinsert. unfold insert_courses. cbv zeta.
  case_decide; [|done]. intros [= <-].
  cbn [with_coursesTable coursesTable].
  change (coursesTable db0) with (@nil Course.t).
  change (@nil Course.t ++ ?l) with l.
  rewrite length_zip_with_r_eq; [done|]. by rewrite length_fmap, length_seq.
Qed.

Lemma coursesSeeder_picks_departments_witness :
  let w := mkWorld (λ k, if decide (k = 0) then "Books" else "Home & Garden")
             (λ _, "Lorem ipsum.")
             (λ _, mkRandom (λ n, 5 * n / 1000)%N) (λ _, 1700000000000%N)
             (λ k, "uuid-" +:+ JS.Number_toString (N.of_nat k)) in
  let db := mkDB [Department.mk "d1" "Science" "science" 1%N (Some 1%N)]
              [] [] [] [] [] [] [] [] [] in
  departmentsTable db ≠ []
  ∧ (∀ k, (floor_times (Math_random w k)
             (N.of_nat (List.length (departmentsTable db)))
           < N.of_nat (List.length (departmentsTable db)))%N)
  ∧ maxAttempts < 101
  ∧ ∃ run,
      @coursesSeeder spec_utils 101 2 9%N w db = Some run
      ∧ List.length (CoursesSeederRun.coursesData run) = 2
      ∧ Forall (λ c, NewCourse.departmentId c ∈ Department.id <$> departmentsTable db)
          (CoursesSeederRun.coursesData run)
      ∧ (CoursesSeederRun.threw run = false →
         List.length (coursesTable (CoursesSeederRun.db run)) = 2).
Proof.
  intros w db.
  assert (H1 : departmentsTable db ≠ []) by discriminate.
  assert (H2 : ∀ k, (floor_times (Math_random w k)
                       (N.of_nat (List.length (departmentsTable db)))
                     < N.of_nat (List.length (departmentsTable db)))%N)
    by (intros k; vm_compute; reflexivity).
  assert (H3 : maxAttempts < 101) by (unfold maxAttempts; lia).
  repeat (split; [assumption|]).
  exact (@coursesSeeder_picks_departments spec_utils 101 2 9%N w db H1 H2 H3).
Defined.

(** ** The slug search of a create *)

Lemma findFirst_department_by_slug_taken (slug : string) (db : DB) (d : Department.t) :
  findFirst_department_by_slug slug db = Some d → slug ∈ department_slugs db.
Proof.
  intros Hfind. destruct (decide (slug ∈ department_slugs db)) as [|Hno]; [done|].
  apply findFirst_department_by_slug_None in Hno. congruence.
Qed.

Lemma departments_POST_loop_candidates (db : DB) (baseSlug : string) (fuel : nat) :
  ∀ (slug : string) (counter : N) (slug' : string) (counter' : N),
    departments_POST_loop fuel db baseSlug slug counter = Some (slug', counter') →
    (counter' = counter ∧ slug' = slug
     ∨ (counter < counter')%N
       ∧ slug' = baseSlug +:+ "-" +:+ JS.Number_toString (counter' - 1)
       ∧ slug ∈ department_slugs db
       ∧ ∀ j, (counter ≤ j < counter' - 1)%N →
              baseSlug +:+ "-" +:+ JS.Number_toString j ∈ department_slugs db).
Proof.
  induction fuel as [|fuel IH]; intros slug counter slug' counter' Hloop; [done|].
  simpl in Hloop.
  destruct (findFirst_department_by_slug slug db) as [d|] eqn:Hfind;
    [|injection Hloop as <- <-; by left].
  apply findFirst_department_by_slug_taken in Hfind.
  apply IH in Hloop as [[-> ->]|(Hlt & -> & Htaken & Hbelow)]; right.
  - split; [lia|]. split; [f_equal; f_equal; f_equal; lia|]. split; [done|].
    intros j Hj. lia.
  - split; [lia|]. split; [done|]. split; [done|].
    intros j Hj. destruct (decide (j = counter)) as [->|Hne]; [done|].
    apply Hbelow. lia.
Qed.

(** X23: given more iterations than there are departments, the slug search
    of [POST /] ends, on the first free candidate: the slug of the name if
    it is free, otherwise [base-k] for the least [k] from 1 on such that
    [base-k] is free; the counter is then [k + 1]. *)
Theorem departments_POST_loop_first_free (db : DB) (baseSlug : string) (fuel : nat) :
  length (departmentsTable db) < fuel →
  ∃ slug counter,
    departments_POST_loop fuel db baseSlug baseSlug 1 = Some (slug, counter)
    ∧ (slug ∉ department_slugs db)
    ∧ (counter = 1%N ∧ slug = baseSlug
       ∨ (1 < counter)%N
         ∧ slug = baseSlug +:+ "-" +:+ JS.Number_toString (counter - 1)
         ∧ baseSlug ∈ department_slugs db
         ∧ ∀ j, (1 ≤ j < counter - 1)%N →
                baseSlug +:+ "-" +:+ JS.Number_toString j ∈ department_slugs db).
Proof.
  intros Hfuel.
  destruct (departments_POST_loop_terminates db baseSlug fuel Hfuel)
    as (slug & counter & Hloop & Hfree).
  exists slug, counter. split; [done|]. split; [done|].
  by apply departments_POST_loop_candidates in Hloop.
Qed.

Lemma departments_POST_loop_first_free_witness :
  let db := mkDB [Department.mk "d1" "Math" "math" 1%N (Some 1%N);
                  Department.mk "d2" "Math" "math-1" 2%N (Some 2%N)]
              [] [] [] [] [] [] [] [] [] in
  length (departmentsTable db) < 3
  ∧ departments_POST_loop 3 db "math" "math" 1 = Some ("math-2", 3%N)
  ∧ ∃ slug counter,
      departments_POST_loop 3 db "math" "math" 1 = Some (slug, counter)
      ∧ (slug ∉ department_slugs db)
      ∧ (counter = 1%N ∧ slug = "math"
         ∨ (1 < counter)%N
           ∧ slug = "math" +:+ "-" +:+ JS.Number_toString (counter - 1)
           ∧ "math" ∈ department_slugs db
           ∧ ∀ j, (1 ≤ j < counter - 1)%N →
                  "math" +:+ "-" +:+ JS.Number_toString j ∈ department_slugs db).
Proof.
  intros db. split; [simpl; lia|]. split; [vm_compute; reflexivity|].
  apply (departments_POST_loop_first_free db "math" 3). simpl; lia.
Defined.

(** ** Repeating a request *)

(** X24: with the same readings of the clock, repeating a [PUT /:slug]
    request changes nothing more: the answer and the stored state are those
    of the first call. *)
Theorem departments_PUT_idempotent `{JS.Runtime} (slug : string) (t1 t2 : Timestamp)
    (req : Request CreateDepartmentBody.t) (db : DB) :
  departments_PUT slug t1 t2 req (departments_PUT slug t1 t2 req db).2
  = departments_PUT slug t1 t2 req db.
Proof.
  destruct req as [|body]; [done|]. unfold departments_PUT.
  destruct (createDepartmentSchema body) as [s|issues]; [|done].
  cbn [snd]. f_equal. unfold update_departments_by_slug, with_departmentsTable.
  cbn [departmentsTable coursesTable fields lessonRostersTable marks
       sessionsTable attendanceTable coursesToAcademies
       studentsToLessonRosters userToDepartment].
  f_equal. rewrite <- list_fmap_compose. apply list_fmap_ext.
  intros i d _. cbn. destruct (decide (Department.slug d = slug)) as [Hd|Hd].
  - by rewrite decide_True.
  - by rewrite decide_False.
Qed.

(** X25: repeating a [PATCH /] request changes nothing more: the second
    call gives the same answer and leaves the state the first call left. *)
Theorem departments_PATCH_idempotent (req : Request DeleteDepartmentsBody.t)
    (db : DB) :
  departments_PATCH req (departments_PATCH req db).2 = departments_PATCH req db.
Proof.
  destruct req as [|body]; [done|]. unfold departments_PATCH.
  destruct (deleteDepartmentsSchema body) as [ids|issues]; [|done].
  cbn [snd]. f_equal. apply delete_departments_unknown.
  intros i Hi. rewrite delete_departments_departmentsTable.
  intros (d & -> & [Hkept _]%list_elem_of_filter)%list_elem_of_fmap. done.
Qed.

(** X26: repeating a [PATCH /members] request changes nothing more. *)
Theorem departments_PATCH_members_idempotent (req : Request UnassignUsersBody.t)
    (db : DB) :
  departments_PATCH_members req (departments_PATCH_members req db).2
  = departments_PATCH_members req db.
Proof.
  destruct req as [|body]; [done|]. unfold departments_PATCH_members.
  destruct (unassignUsersToDeprtmentSchema body) as [pairs|issues]; [|done].
  cbn [snd]. f_equal. rewrite !delete_pairs_spec.
  unfold with_userToDepartment.
  cbn [departmentsTable coursesTable fields lessonRostersTable marks
       sessionsTable attendanceTable coursesToAcademies
       studentsToLessonRosters userToDepartment].
  f_equal. rewrite list_filter_filter. apply list_filter_iff. tauto.
Qed.

Lemma departments_PATCH_members_order_witness :
  let db := mkDB [] [] [] [] [] [] [] [] []
              [UserToDepartment.mk "u1" "d1" LEADER;
               UserToDepartment.mk "u2" "d1" LECTURER;
               UserToDepartment.mk "u3" "d2" LEADER] in
  let pairs := [("u1", "d1"); ("u3", "d2")] in
  let pairs' := [("u3", "d2"); ("u1", "d1"); ("u3", "d2")] in
  (∀ p, p ∈ pairs ↔ p ∈ pairs')
  ∧ departments_PATCH_members
      (Json (UnassignUsersBody.mk (Some ((λ '(u, d), (Str u, Str d)) <$> pairs)))) db
    = departments_PATCH_members
        (Json (UnassignUsersBody.mk (Some ((λ '(u, d), (Str u, Str d)) <$> pairs')))) db.
Proof.
  intros db pairs pairs'.
  assert (Hsame : ∀ p, p ∈ pairs ↔ p ∈ pairs').
  { intros p. unfold pairs, pairs'. rewrite !elem_of_cons, !elem_of_nil. tauto. }
  split; [exact Hsame|].
  exact (departments_PATCH_members_order pairs pairs' db Hsame).
Defined.
